(** * Twitch chat dashboard: the core pipeline, embedded and verified

  A shallow embedding of the backend services of the chat dashboard:

  - [MessageBuffer]      (app/services/message_buffer.py)
  - [MetricsCalculator]  (app/services/metrics_calculator.py)
  - [HypeDetector]       (app/services/hype_detector.py)
  - [Websockets]         (app/api/websockets/metrics_ws.py, hype_ws.py)
  - [Main]               (app/main.py, broadcast_metrics_loop)
  - [Config]             (app/config.py, the comma-separated settings)
  - [TwitchClient]       (app/services/twitch_client.py, the message parser)
  - [Channels]           (app/api/routes/channels.py)
  - [Pipeline]           (the loop of main.py run on the services above)

  Conventions of the embedding.

  - A Python [datetime] is its wall-clock reading in microseconds plus an
    optional UTC offset ([None] for a naive datetime); a [timedelta] is a
    number of microseconds.
  - A Python [float] is idealised as an exact rational ([Qc]); rounding of
    binary64 arithmetic is not modelled.  [statistics.mean] and the
    variance behind [statistics.stdev] are computed by Python on exact
    fractions, so they are exact here too.
  - A [dict] is a [gmap], a [set] of sockets is a [gset] of socket ids, a
    [collections.deque] is the list of its items, oldest first, with its
    [maxlen].
  - Clock readings ([datetime.utcnow()], [datetime.now(timezone.utc)]) are
    taken as extra arguments. *)

From Stdlib Require Import ZArith QArith Qcanon Qround List Ascii String Lia Lqa.
From stdpp Require Import gmap strings list numbers sorting.

Open Scope Z_scope.

Set Warnings "-clear-no-such-hyp".

(** ** Dates and durations *)

Module Datetime.

(** [wall] counts the microseconds of the date and time fields (what
    [replace(tzinfo=...)] leaves untouched); [tzinfo] is the UTC offset in
    microseconds of an aware datetime. *)
Record datetime := mk_datetime { wall : Z; tzinfo : option Z }.

Definition timedelta := Z.

Definition seconds (n : Z) : timedelta := n * 1000000.

(** [datetime.now(timezone.utc)] and [datetime.utcnow()] at the UTC
    reading [t]. *)
Definition aware_utc (t : Z) : datetime := mk_datetime t (Some 0).
Definition naive (t : Z) : datetime := mk_datetime t None.

(** [dt - delta] and [dt + delta]: the fields move, the zone stays. *)
Definition sub (dt : datetime) (delta : timedelta) : datetime :=
  mk_datetime (wall dt - delta) (tzinfo dt).
Definition add (dt : datetime) (delta : timedelta) : datetime :=
  mk_datetime (wall dt + delta) (tzinfo dt).

(** [dt.replace(tzinfo=timezone.utc) if dt.tzinfo is None else dt] *)
Definition assume_utc (dt : datetime) : datetime :=
  match tzinfo dt with
  | None => mk_datetime (wall dt) (Some 0)
  | Some _ => dt
  end.

(** The instant an aware datetime denotes (fields minus offset); for a
    naive one, its fields. *)
Definition instant (dt : datetime) : Z :=
  match tzinfo dt with
  | Some off => wall dt - off
  | None => wall dt
  end.

(** [a >= b] between two aware datetimes. *)
Definition geb (a b : datetime) : bool := instant b <=? instant a.

End Datetime.

(** ** collections.deque *)

Module Deque.

Record deque (A : Type) := mk_deque { items : list A; maxlen : option nat }.
Arguments mk_deque {A} _ _.
Arguments items {A} _.
Arguments maxlen {A} _.

(** [deque(maxlen=n)] and [deque()] *)
Definition empty {A} (n : option nat) : deque A := mk_deque [] n.

(** [d.append(x)]: the item goes to the right end; a bounded deque that
    has grown past [maxlen] drops its leftmost item. *)
Definition append {A} (d : deque A) (x : A) : deque A :=
  let l := items d ++ [x] in
  match maxlen d with
  | Some n => if (n <? length l)%nat then mk_deque (drop 1 l) (Some n)
              else mk_deque l (Some n)
  | None => mk_deque l None
  end.

(** [d.clear()] *)
Definition clear {A} (d : deque A) : deque A := mk_deque [] (maxlen d).

(** The last [n] items of a list. *)
Definition lastn {A} (n : nat) (l : list A) : list A :=
  drop (length l - n) l.

End Deque.

(** ** Strings *)

Module Str.

(** [c.lower()] for one character of the ASCII range. *)
Definition lower_ascii (c : ascii) : ascii :=
  let n := nat_of_ascii c in
  if ((65 <=? n) && (n <=? 90))%nat then ascii_of_nat (n + 32) else c.

(** [s.lower()].  Channel and user names are Twitch logins, which are
    ASCII; bytes outside the ASCII letters are left as they are. *)
Fixpoint lower (s : string) : string :=
  match s with
  | EmptyString => EmptyString
  | String c rest => String (lower_ascii c) (lower rest)
  end.

End Str.

(** ** Data model (app/models/chat_message.py) *)

Module ChatMessage.

Record t := mk {
  id : string;
  channel : string;
  username : string;
  content : string;
  timestamp : Datetime.datetime;
  emotes : list string;
  badges : list string
}.

End ChatMessage.

Module ChannelMetrics.

Record t := mk {
  channel : string;
  timestamp : Datetime.datetime;
  messages_per_second : Qc;
  messages_last_minute : nat;
  unique_chatters_5min : nat;
  top_emotes : list (string * nat);
  avg_message_length : Qc
}.

End ChannelMetrics.

(** ** The per-channel message window (app/services/message_buffer.py) *)

Module MessageBuffer.

Import Datetime Deque.

(** [deque(maxlen=n)] raises ValueError for a negative [n], so the capacity
    of a buffer that has accepted a message is a natural number. *)
Record t := mk {
  _buffers : gmap string (deque ChatMessage.t);
  _maxlen : nat
}.

(** [MessageBuffer(maxlen)] *)
Definition init (maxlen : nat) : t := mk ∅ maxlen.

Definition add_message (self : t) (channel : string) (message : ChatMessage.t) : t :=
  let channel := Str.lower channel in
  let buffers :=
    match _buffers self !! channel with
    | None => <[channel := Deque.empty (Some (_maxlen self))]> (_buffers self)
    | Some _ => _buffers self
    end in
  let buffers :=
    match buffers !! channel with
    | Some d => <[channel := Deque.append d message]> buffers
    | None => buffers
    end in
  mk buffers (_maxlen self).

(** [limit and len(messages) >= limit] *)
Definition limit_reached (limit : option Z) (messages : list ChatMessage.t) : bool :=
  match limit with
  | Some n => negb (n =? 0) && (n <=? Z.of_nat (length messages))
  | None => false
  end.

(** The loop of [get_messages_since] over [reversed(self._buffers[channel])],
    with [messages] the list built so far. *)
Fixpoint scan_since (since : datetime) (limit : option Z)
    (newest_first : list ChatMessage.t) (messages : list ChatMessage.t)
    : list ChatMessage.t :=
  match newest_first with
  | [] => messages
  | message :: rest =>
      let msg_time := assume_utc (ChatMessage.timestamp message) in
      if geb msg_time since then
        let messages := messages ++ [message] in
        if limit_reached limit messages then messages
        else scan_since since limit rest messages
      else scan_since since limit rest messages
  end.

Definition get_messages_since (self : t) (channel : string) (since : datetime)
    (limit : option Z) : list ChatMessage.t :=
  let channel := Str.lower channel in
  match _buffers self !! channel with
  | None => []
  | Some d =>
      let since := assume_utc since in
      rev (scan_since since limit (rev (items d)) [])
  end.

Definition get_recent_messages (self : t) (channel : string) (count : Z)
    : list ChatMessage.t :=
  let channel := Str.lower channel in
  match _buffers self !! channel with
  | None => []
  | Some d =>
      let start_idx := Z.max 0 (Z.of_nat (length (items d)) - count) in
      drop (Z.to_nat start_idx) (items d)
  end.

Definition get_message_count (self : t) (channel : string) : nat :=
  let channel := Str.lower channel in
  match _buffers self !! channel with
  | None => 0%nat
  | Some d => length (items d)
  end.

Definition clear_channel (self : t) (channel : string) : t :=
  let channel := Str.lower channel in
  match _buffers self !! channel with
  | Some d => mk (<[channel := Deque.clear d]> (_buffers self)) (_maxlen self)
  | None => self
  end.

(** The stored events of a channel, oldest first: [list(self._buffers[c])],
    and the empty list for a channel that has no buffer. *)
Definition window (self : t) (channel : string) : list ChatMessage.t :=
  match _buffers self !! Str.lower channel with
  | Some d => items d
  | None => []
  end.

(** A run of [add_message] calls, in order. *)
Definition insert_all (self : t) (ins : list (string * ChatMessage.t)) : t :=
  fold_left (fun b cm => add_message b (fst cm) (snd cm)) ins self.

(** The messages of [ins] that went to the window with key [key]. *)
Definition inserted_for (key : string) (ins : list (string * ChatMessage.t))
    : list ChatMessage.t :=
  map snd (List.filter (fun cm => bool_decide (Str.lower (fst cm) = key)) ins).

(** What [get_messages_since] selects: [msg_time >= since] after both sides
    got UTC for a missing zone. *)
Definition not_before (since : datetime) (m : ChatMessage.t) : bool :=
  geb (assume_utc (ChatMessage.timestamp m)) (assume_utc since).

(** [a] carries a timestamp no later than [b]'s. *)
Definition no_later (a b : ChatMessage.t) : Prop :=
  instant (assume_utc (ChatMessage.timestamp a))
  <= instant (assume_utc (ChatMessage.timestamp b)).

(** [clear_all()] *)
Definition clear_all (self : t) : t := mk ∅ (_maxlen self).

(** [get_all_channels()]: the keys of [_buffers].  The map does not keep the
    insertion order of the dict, so the order of this list is not that of
    the code; only what the list holds is. *)
Definition get_all_channels (self : t) : list string :=
  (map_to_list (_buffers self)).*1.

(** The dict returned by [get_stats()]. *)
Record stats := mk_stats {
  total_channels : nat;
  max_per_channel : nat;
  channels : gmap string nat
}.

Definition get_stats (self : t) : stats :=
  mk_stats (size (_buffers self)) (_maxlen self)
    ((fun buffer => length (items buffer)) <$> _buffers self).

(** The calls that change a buffer. *)
Inductive op :=
| Add (channel : string) (message : ChatMessage.t)
| ClearChannel (channel : string)
| ClearAll.

Definition apply (self : t) (o : op) : t :=
  match o with
  | Add channel message => add_message self channel message
  | ClearChannel channel => clear_channel self channel
  | ClearAll => clear_all self
  end.

(** A run of calls, in order. *)
Definition run (self : t) (ops : list op) : t := fold_left apply ops self.

(** Every deque of the buffer has the buffer's capacity and respects it,
    and sits under a lowercase key. *)
Definition bounded (self : t) : Prop :=
  forall key d, _buffers self !! key = Some d ->
    maxlen d = Some (_maxlen self)
    /\ (length (items d) <= _maxlen self)%nat
    /\ Str.lower key = key.

End MessageBuffer.

(** ** Exceptions *)

Module Py.

(** The exceptions the modelled code meets.  [CancelledError] derives from
    [BaseException], the others from [Exception]. *)
Inductive exn :=
| StatisticsError
| ZeroDivisionError
| Exception (msg : string)
| CancelledError.

(** [isinstance(e, Exception)] *)
Definition is_Exception (e : exn) : bool :=
  match e with
  | CancelledError => false
  | _ => true
  end.

(** What a call comes to: a value, or a raised exception. *)
Inductive result (A : Type) :=
| Ok (a : A)
| Raise (e : exn).
Arguments Ok {A} _.
Arguments Raise {A} _.

(** [str(e)] *)
Definition str (e : exn) : string :=
  match e with
  | Exception msg => msg
  | _ => ""
  end.

(** Code with effects on a state [S] that may raise: a run returns the
    value or the exception, and the state reached. *)
Definition M (S A : Type) : Type := S -> result A * S.

Definition ret {S A} (a : A) : M S A := fun s => (Ok a, s).

Definition bind {S A B} (m : M S A) (k : A -> M S B) : M S B :=
  fun s =>
    match m s with
    | (Ok a, s') => k a s'
    | (Raise e, s') => (Raise e, s')
    end.

(** A statement that only changes the state. *)
Definition effect {S} (f : S -> S) : M S unit := fun s => (Ok tt, f s).

(** [try: body / except Exception as e: handler(e)] *)
Definition try_except_Exception {S A} (body : M S A) (handler : exn -> M S A) : M S A :=
  fun s =>
    match body s with
    | (Raise e, s') => if is_Exception e then handler e s' else (Raise e, s')
    | (Ok a, s') => (Ok a, s')
    end.

(** [try: body / except asyncio.CancelledError: on_cancel /
    except Exception as e: handler(e)] *)
Definition try_except_Cancelled_Exception {S A} (body : M S A) (on_cancel : M S A)
    (handler : exn -> M S A) : M S A :=
  fun s =>
    match body s with
    | (Raise CancelledError, s') => on_cancel s'
    | (Raise e, s') => handler e s'
    | (Ok a, s') => (Ok a, s')
    end.

(** [for x in l: body(x)] *)
Fixpoint for_each {S A} (l : list A) (body : A -> M S unit) : M S unit :=
  match l with
  | [] => ret tt
  | x :: rest => bind (body x) (fun _ => for_each rest body)
  end.

(** [m] raises only exceptions that satisfy [P]. *)
Definition raises_only {S A} (P : exn -> Prop) (m : M S A) : Prop :=
  forall s e s', m s = (Raise e, s') -> P e.

(** No run of [m] is cancelled. *)
Definition never_cancelled {S A} (m : M S A) : Prop :=
  raises_only (fun e => e <> CancelledError) m.

Declare Scope py_scope.
Delimit Scope py_scope with py.
Notation "x <- m ;; k" := (bind m (fun x => k))
  (at level 100, m at level 99, k at level 100, right associativity) : py_scope.
Notation "m ;;; k" := (bind m (fun _ => k))
  (at level 100, k at level 100, right associativity) : py_scope.

End Py.

(** ** Python numbers *)

Module Num.

(** [float(n)] for a count [n]. *)
Definition of_nat (n : nat) : Qc := Qc_of_Z (Z.of_nat n).

Definition of_Z (n : Z) : Qc := Qc_of_Z n.

(** [math.floor(x)] *)
Definition floor (x : Qc) : Z := Qfloor (this x).

(** [round(x, ndigits)]: to the nearest multiple of [10^-ndigits], a tie
    going to the even one. *)
Definition round (x : Qc) (ndigits : nat) : Qc :=
  let scale := of_Z (10 ^ Z.of_nat ndigits) in
  let y := (x * scale)%Qc in
  let f := floor y in
  let r := (y - of_Z f)%Qc in
  let half := Q2Qc (1 # 2) in
  let k := if decide (r < half)%Qc then f
           else if decide (half < r)%Qc then f + 1
           else if Z.even f then f else f + 1 in
  (of_Z k / scale)%Qc.

(** [x / y] on floats. *)
Definition div (x y : Qc) : Py.result Qc :=
  if decide (y = 0%Qc) then Py.Raise Py.ZeroDivisionError else Py.Ok (x / y)%Qc.

(** [delta.total_seconds()] for a duration in microseconds. *)
Definition total_seconds (delta : Z) : Qc := (of_Z delta / of_Z 1000000)%Qc.

End Num.

(** ** The statistics module *)

Module Statistics.

Definition fsum (data : list Qc) : Qc := fold_right Qcplus 0%Qc data.

(** [statistics.mean(data)]: the exact mean; StatisticsError on no data. *)
Definition mean (data : list Qc) : Py.result Qc :=
  match data with
  | [] => Py.Raise Py.StatisticsError
  | _ => Py.Ok (fsum data / Num.of_nat (length data))%Qc
  end.

(** [statistics.variance(data)]: the exact sample variance;
    StatisticsError on fewer than two data points. *)
Definition variance (data : list Qc) : Py.result Qc :=
  if (length data <? 2)%nat then Py.Raise Py.StatisticsError
  else
    let n := Num.of_nat (length data) in
    let xbar := (fsum data / n)%Qc in
    let ss := fsum (map (fun x => ((x - xbar) * (x - xbar))%Qc) data) in
    Py.Ok (ss / (n - 1))%Qc.

Section Stdev.

(** The square root of floats, of which nothing is assumed here. *)
Variable sqrt : Qc -> Qc.

(** [statistics.stdev(data)]: the square root of the sample variance. *)
Definition stdev (data : list Qc) : Py.result Qc :=
  match variance data with
  | Py.Ok v => Py.Ok (sqrt v)
  | Py.Raise e => Py.Raise e
  end.

End Stdev.

End Statistics.

(** ** The metrics aggregator (app/services/metrics_calculator.py) *)

Module MetricsCalculator.

Import Datetime.

(** [collections.Counter]: the counts of a [dict], which keeps its keys in
    the order of their first insertion. *)
Fixpoint counter_add (e : string) (c : list (string * nat)) : list (string * nat) :=
  match c with
  | [] => [(e, 1%nat)]
  | (k, n) :: rest =>
      if String.eqb k e then (k, S n) :: rest else (k, n) :: counter_add e rest
  end.

(** [Counter(iterable)] *)
Definition Counter (l : list string) : list (string * nat) :=
  fold_left (fun c e => counter_add e c) l [].

(** One step of a stable sort by decreasing count: [x] comes in front of the
    items that followed it in the input, so it goes before the first item
    whose count is not greater than its own. *)
Fixpoint insert_desc (x : string * nat) (sorted : list (string * nat))
    : list (string * nat) :=
  match sorted with
  | [] => [x]
  | y :: rest =>
      if (snd y <=? snd x)%nat then x :: y :: rest else y :: insert_desc x rest
  end.

(** [sorted(items, key=itemgetter(1), reverse=True)], which is stable. *)
Fixpoint sorted_desc (l : list (string * nat)) : list (string * nat) :=
  match l with
  | [] => []
  | x :: rest => insert_desc x (sorted_desc rest)
  end.

(** [Counter.most_common(n)] is [heapq.nlargest(n, items, key=count)],
    documented as [sorted(items, key=count, reverse=True)[:n]]. *)
Definition most_common (c : list (string * nat)) (n : nat) : list (string * nat) :=
  take n (sorted_desc c).

Definition _get_messages_in_window (buffer : MessageBuffer.t) (channel : string)
    (now : datetime) (seconds : Z) : list ChatMessage.t :=
  let since := Datetime.sub now (Datetime.seconds seconds) in
  MessageBuffer.get_messages_since buffer channel since None.

Definition _count_unique_chatters (messages : list ChatMessage.t) : nat :=
  let usernames : gset string :=
    list_to_set (map (fun msg => Str.lower (ChatMessage.username msg)) messages) in
  size usernames.

Definition _get_top_emotes (messages : list ChatMessage.t) (limit : nat)
    : list (string * nat) :=
  let all_emotes := flat_map ChatMessage.emotes messages in
  let emote_counts := Counter all_emotes in
  most_common emote_counts limit.

Definition _calculate_avg_message_length (messages : list ChatMessage.t) : Qc :=
  match messages with
  | [] => 0%Qc
  | _ =>
      let total_length :=
        fold_left (fun s msg => (s + String.length (ChatMessage.content msg))%nat) messages 0%nat in
      Num.round (Num.of_nat total_length / Num.of_nat (length messages))%Qc 1
  end.

(** [calculate_metrics(channel)] when [datetime.now(timezone.utc)] reads
    [now]. *)
Definition calculate_metrics (buffer : MessageBuffer.t) (channel : string) (now : Z)
    : ChannelMetrics.t :=
  let now := aware_utc now in
  let messages_1s := _get_messages_in_window buffer channel now 1 in
  let messages_1m := _get_messages_in_window buffer channel now 60 in
  let messages_5m := _get_messages_in_window buffer channel now 300 in
  let messages_per_second := length messages_1s in
  let messages_last_minute := length messages_1m in
  let unique_chatters := _count_unique_chatters messages_5m in
  let top_emotes := _get_top_emotes messages_5m 10 in
  let avg_length := _calculate_avg_message_length messages_5m in
  ChannelMetrics.mk channel now (Num.of_nat messages_per_second)
    messages_last_minute unique_chatters top_emotes avg_length.

(** Position of the first occurrence of [e] in [l] ([length l] when there is
    none). *)
Fixpoint first_seen (e : string) (l : list string) : nat :=
  match l with
  | [] => 0%nat
  | x :: rest => if String.eqb x e then 0%nat else S (first_seen e rest)
  end.

(** Number of occurrences of the token [e]. *)
Definition occurrences (all : list string) (e : string) : nat :=
  count_occ string_dec all e.

(** [a] goes before [b] in the ranking of the tokens of [all]: more
    occurrences, or as many and first seen earlier. *)
Definition outranks (all : list string) (a b : string) : Prop :=
  (occurrences all b < occurrences all a)%nat
  \/ (occurrences all a = occurrences all b
      /\ (first_seen a all < first_seen b all)%nat).

(** [a] and [b] as Python orders them: two aware datetimes by their
    instants, two naive ones by their fields; one of each is a TypeError. *)
Definition comparable (a b : datetime) : Py.result (Z * Z) :=
  match tzinfo a, tzinfo b with
  | Some off_a, Some off_b => Py.Ok (wall a - off_a, wall b - off_b)
  | None, None => Py.Ok (wall a, wall b)
  | _, _ =>
      Py.Raise (Py.Exception "can't compare offset-naive and offset-aware datetimes")
  end.

(** [sum(1 for m in messages
         if m.timestamp >= window_start and m.timestamp < point_time)] *)
Fixpoint count_between (window_start point_time : datetime)
    (messages : list ChatMessage.t) : Py.result nat :=
  match messages with
  | [] => Py.Ok 0%nat
  | m :: rest =>
      match comparable (ChatMessage.timestamp m) window_start with
      | Py.Raise e => Py.Raise e
      | Py.Ok (t, start) =>
          if start <=? t then
            match comparable (ChatMessage.timestamp m) point_time with
            | Py.Raise e => Py.Raise e
            | Py.Ok (t, point) =>
                match count_between window_start point_time rest with
                | Py.Raise e => Py.Raise e
                | Py.Ok n => Py.Ok (if t <? point then S n else n)
                end
            end
          else count_between window_start point_time rest
      end
  end.

(** [range(n, 0, -1)] *)
Fixpoint range_down (n : nat) : list Z :=
  match n with
  | O => []
  | S k => Z.of_nat (S k) :: range_down k
  end.

(** The loop of [get_velocity_history] over the seconds [steps]; a point
    of the history is its time (which the code then formats) and its
    velocity. *)
Fixpoint history_loop (buffer : MessageBuffer.t) (channel : string) (now : datetime)
    (steps : list Z) : Py.result (list (datetime * nat)) :=
  match steps with
  | [] => Py.Ok []
  | i :: rest =>
      let point_time := Datetime.sub now (Datetime.seconds i) in
      let window_start := Datetime.sub point_time (Datetime.seconds 1) in
      let messages := MessageBuffer.get_messages_since buffer channel window_start None in
      match count_between window_start point_time messages with
      | Py.Raise e => Py.Raise e
      | Py.Ok velocity =>
          match history_loop buffer channel now rest with
          | Py.Raise e => Py.Raise e
          | Py.Ok history => Py.Ok ((point_time, velocity) :: history)
          end
      end
  end.

(** [get_velocity_history(channel, window_seconds)] when
    [datetime.now(timezone.utc)] reads [now]. *)
Definition get_velocity_history (buffer : MessageBuffer.t) (channel : string)
    (window_seconds : Z) (now : Z) : Py.result (list (datetime * nat)) :=
  history_loop buffer channel (aware_utc now) (range_down (Z.to_nat window_seconds)).

(** The stored messages of a channel whose timestamp, read as UTC when it
    is naive, lies in [[from, to)]. *)
Definition stored_between (buffer : MessageBuffer.t) (channel : string) (from to : Z)
    : list ChatMessage.t :=
  List.filter
    (fun m => let t := instant (assume_utc (ChatMessage.timestamp m)) in
              (from <=? t) && (t <? to))
    (MessageBuffer.window buffer channel).

(** The point of the history [i] seconds before [now]: its time, and the
    number of stored messages of the second that ends there. *)
Definition history_point (buffer : MessageBuffer.t) (channel : string) (now : Z) (i : Z)
    : datetime * nat :=
  (aware_utc (now - Datetime.seconds i),
   length (stored_between buffer channel
             (now - Datetime.seconds (i + 1)) (now - Datetime.seconds i))).

(** The timestamp of [m] carries a zone. *)
Definition aware (m : ChatMessage.t) : Prop :=
  tzinfo (ChatMessage.timestamp m) <> None.

(** [sum(len(msg.content) for msg in messages)] *)
Definition total_length (messages : list ChatMessage.t) : nat :=
  fold_left (fun s msg => (s + String.length (ChatMessage.content msg))%nat) messages 0%nat.

(** The same ranking on counter entries, read off their stored counts. *)
Definition precedes (all : list string) (a b : string * nat) : Prop :=
  (snd b < snd a)%nat
  \/ (snd a = snd b /\ (first_seen (fst a) all < first_seen (fst b) all)%nat).

End MetricsCalculator.

(** ** The burst detector (app/services/hype_detector.py) *)

Module HypeEvent.

Record t := mk {
  channel : string;
  timestamp : Datetime.datetime;
  velocity : Qc;
  baseline_mean : Qc;
  baseline_std : Qc;
  multiplier : Qc;
  top_emotes : list (string * nat)
}.

End HypeEvent.

Module HypeDetector.

Import Deque.

(** The readings of [datetime.utcnow()] are naive datetimes; the detector
    keeps them as their microsecond counts. *)
Record t := mk {
  window_seconds : Z;
  threshold_std : Qc;
  cooldown_seconds : Z;
  min_velocity : Qc;
  _velocity_windows : gmap string (deque (Z * Qc));
  _last_hype : gmap string Z
}.

(** [HypeDetector(window_seconds, threshold_std, cooldown_seconds, min_velocity)] *)
Definition init (window_seconds : Z) (threshold_std : Qc) (cooldown_seconds : Z)
    (min_velocity : Qc) : t :=
  mk window_seconds threshold_std cooldown_seconds min_velocity ∅ ∅.

Definition set_windows (self : t) (w : gmap string (deque (Z * Qc))) : t :=
  mk (window_seconds self) (threshold_std self) (cooldown_seconds self)
     (min_velocity self) w (_last_hype self).

Definition set_last_hype (self : t) (h : gmap string Z) : t :=
  mk (window_seconds self) (threshold_std self) (cooldown_seconds self)
     (min_velocity self) (_velocity_windows self) h.

(** [while window and window[0][0] < cutoff: window.popleft()], on the
    items of the window. *)
Fixpoint evict_old (cutoff : Z) (window : list (Z * Qc)) : list (Z * Qc) :=
  match window with
  | [] => []
  | (t0, v0) :: rest =>
      if t0 <? cutoff then evict_old cutoff rest else (t0, v0) :: rest
  end.

(** [record_velocity(channel, velocity)] when [datetime.utcnow()] reads [now]. *)
Definition record_velocity (self : t) (channel : string) (velocity : Qc) (now : Z) : t :=
  let windows :=
    match _velocity_windows self !! channel with
    | None => <[channel := Deque.empty None]> (_velocity_windows self)
    | Some _ => _velocity_windows self
    end in
  match windows !! channel with
  | None => set_windows self windows
  | Some window =>
      let window := append window (now, velocity) in
      let cutoff := now - Datetime.seconds (window_seconds self) in
      let window := mk_deque (evict_old cutoff (items window)) (maxlen window) in
      set_windows self (<[channel := window]> windows)
  end.

(** The cooldown test that opens [check_for_hype]: a burst was recorded for
    the channel and [(now - last).total_seconds() < cooldown_seconds]. *)
Definition in_cooldown (self : t) (channel : string) (now : Z) : bool :=
  match _last_hype self !! channel with
  | Some last =>
      let time_since_last := Num.total_seconds (now - last) in
      bool_decide (time_since_last < Num.of_Z (cooldown_seconds self))%Qc
  | None => false
  end.

(** [top_emotes or []] *)
Definition or_empty (top_emotes : option (list (string * nat))) : list (string * nat) :=
  match top_emotes with
  | Some l => l
  | None => []
  end.

Section Detector.

Variable sqrt : Qc -> Qc.

(** The [try] block of [check_for_hype]: mean and standard deviation of the
    velocities, or [None] where the code returns on StatisticsError. *)
Definition baseline (velocities : list Qc) : Py.result (option (Qc * Qc)) :=
  match Statistics.mean velocities with
  | Py.Raise Py.StatisticsError => Py.Ok None
  | Py.Raise e => Py.Raise e
  | Py.Ok mean =>
      match (if (1 <? length velocities)%nat then Statistics.stdev sqrt velocities
             else Py.Ok 0%Qc) with
      | Py.Raise Py.StatisticsError => Py.Ok None
      | Py.Raise e => Py.Raise e
      | Py.Ok std => Py.Ok (Some (mean, std))
      end
  end.

(** [check_for_hype(channel, current_velocity, top_emotes)] when
    [datetime.utcnow()] reads [now]: the value returned or the exception
    raised, and the detector afterwards. *)
Definition check_for_hype (self : t) (channel : string) (current_velocity : Qc)
    (top_emotes : option (list (string * nat))) (now : Z)
    : Py.result (option HypeEvent.t) * t :=
  if in_cooldown self channel now then (Py.Ok None, self)
  else if decide (current_velocity < min_velocity self)%Qc then (Py.Ok None, self)
  else
    match _velocity_windows self !! channel with
    | None => (Py.Ok None, self)
    | Some window =>
        if (length (items window) <? 10)%nat then (Py.Ok None, self)
        else
          let velocities := map snd (items window) in
          match baseline velocities with
          | Py.Raise e => (Py.Raise e, self)
          | Py.Ok None => (Py.Ok None, self)
          | Py.Ok (Some (mean, std)) =>
              let std := if decide (std = 0%Qc) then Q2Qc (1 # 10) else std in
              let threshold := (mean + threshold_std self * std)%Qc in
              if decide (threshold < current_velocity)%Qc then
                match (if decide (0 < mean)%Qc then Num.div current_velocity mean
                       else Py.Ok current_velocity) with
                | Py.Raise e => (Py.Raise e, self)
                | Py.Ok multiplier =>
                    let event :=
                      HypeEvent.mk channel (Datetime.naive now) current_velocity
                        (Num.round mean 2) (Num.round std 2) (Num.round multiplier 2)
                        (or_empty top_emotes) in
                    (Py.Ok (Some event),
                     set_last_hype self (<[channel := now]> (_last_hype self)))
                end
              else (Py.Ok None, self)
          end
    end.

(** [get_baseline(channel)] *)
Definition get_baseline (self : t) (channel : string) : Qc * Qc :=
  match _velocity_windows self !! channel with
  | None => (0%Qc, 0%Qc)
  | Some window =>
      if (length (items window) <? 2)%nat then (0%Qc, 0%Qc)
      else
        let velocities := map snd (items window) in
        match Statistics.mean velocities, Statistics.stdev sqrt velocities with
        | Py.Ok mean, Py.Ok std => (Num.round mean 2, Num.round std 2)
        | _, _ => (0%Qc, 0%Qc)
        end
  end.

(** The threshold [check_for_hype] compares the velocity with, for a channel
    with at least ten retained samples: [mean + threshold_std * std], with
    0.1 for a zero [std]. *)
Definition threshold_of (self : t) (channel : string) : option Qc :=
  match _velocity_windows self !! channel with
  | None => None
  | Some window =>
      if (length (items window) <? 10)%nat then None
      else
        match baseline (map snd (items window)) with
        | Py.Ok (Some (mean, std)) =>
            let std := if decide (std = 0%Qc) then Q2Qc (1 # 10) else std in
            Some (mean + threshold_std self * std)%Qc
        | _ => None
        end
  end.

End Detector.

(** [reset_channel(channel)] *)
Definition reset_channel (self : t) (channel : string) : t :=
  mk (window_seconds self) (threshold_std self) (cooldown_seconds self)
     (min_velocity self) (delete channel (_velocity_windows self))
     (delete channel (_last_hype self)).

(** A run of [record_velocity] calls for one channel: each sample is the
    clock reading of a call with the velocity recorded at it, in call
    order. *)
Definition record_all (self : t) (channel : string) (samples : list (Z * Qc)) : t :=
  fold_left (fun d s => record_velocity d channel (snd s) (fst s)) samples self.

(** The samples taken no earlier than [window_seconds] before the last
    one. *)
Definition retained (window_seconds : Z) (samples : list (Z * Qc)) : list (Z * Qc) :=
  match last samples with
  | None => []
  | Some s_last =>
      List.filter (fun s => fst s_last - Datetime.seconds window_seconds <=? fst s) samples
  end.

(** The calls made on a detector by its clients, with the clock reading of
    each. *)
Inductive call :=
| Record (channel : string) (velocity : Qc) (now : Z)
| Check (channel : string) (current_velocity : Qc)
    (top_emotes : option (list (string * nat))) (now : Z)
| Reset (channel : string).

Section Calls.

Variable sqrt : Qc -> Qc.

(** One call on the detector [snd acc], the events returned so far being
    [fst acc]. *)
Definition step (acc : list HypeEvent.t * t) (c : call) : list HypeEvent.t * t :=
  match c with
  | Record channel velocity now =>
      (fst acc, record_velocity (snd acc) channel velocity now)
  | Check channel current_velocity top_emotes now =>
      let out := check_for_hype sqrt (snd acc) channel current_velocity top_emotes now in
      match fst out with
      | Py.Ok (Some event) => (fst acc ++ [event], snd out)
      | _ => (fst acc, snd out)
      end
  | Reset channel => (fst acc, reset_channel (snd acc) channel)
  end.

(** A run of calls, in order: the events returned and the detector
    afterwards. *)
Definition run_calls (self : t) (calls : list call) : list HypeEvent.t * t :=
  fold_left step calls ([], self).

End Calls.

(** The samples that the [record_velocity] calls of a run took for
    [channel]: clock reading and velocity, in call order. *)
Definition recorded (channel : string) (calls : list call) : list (Z * Qc) :=
  flat_map
    (fun c => match c with
              | Record channel' velocity now =>
                  if decide (channel' = channel) then [(now, velocity)] else []
              | _ => []
              end)
    calls.

(** Every velocity window is a [deque()], without [maxlen]. *)
Definition unbounded (self : t) : Prop :=
  forall key d, _velocity_windows self !! key = Some d -> maxlen d = None.

(** No call of the run is a [reset_channel]. *)
Definition no_reset (calls : list call) : Prop :=
  Forall (fun c => match c with Reset _ => False | _ => True end) calls.

End HypeDetector.

(** ** The broadcast registries (app/api/websockets) *)

Module Websockets.

(** A connection object, by identity. *)
Definition WebSocket := nat.

(** What goes over a connection: the JSON of a metrics snapshot
    ([type: metrics]) or of a hype event ([type: hype_event]). *)
Inductive payload :=
| MetricsPayload (metrics : ChannelMetrics.t)
| HypePayload (event : HypeEvent.t).

(** The peers: what each connection has received so far, and the
    connections on which a send fails. *)
Record Net := mk_net {
  received : gmap WebSocket (list payload);
  failing : gset WebSocket
}.

Definition inbox (net : Net) (ws : WebSocket) : list payload :=
  default [] (received net !! ws).

(** [await websocket.send_json(message)] and [await connection.send_text(message)] *)
Definition send (ws : WebSocket) (message : payload) (net : Net) : Py.result unit * Net :=
  if decide (ws ∈ failing net)
  then (Py.Raise (Py.Exception "send failed"), net)
  else (Py.Ok tt, mk_net (<[ws := inbox net ws ++ [message]]> (received net)) (failing net)).

(** The loop over the connections, one try per send: an [Exception] puts the
    connection into [disconnected]; anything else goes up. *)
Fixpoint send_each (connections : list WebSocket) (message : payload)
    (disconnected : gset WebSocket) (net : Net)
    : Py.result (gset WebSocket) * Net :=
  match connections with
  | [] => (Py.Ok disconnected, net)
  | websocket :: rest =>
      match send websocket message net with
      | (Py.Ok _, net) => send_each rest message disconnected net
      | (Py.Raise e, net) =>
          if Py.is_Exception e
          then send_each rest message ({[websocket]} ∪ disconnected) net
          else (Py.Raise e, net)
      end
  end.

(** Both managers hold the set [active_connections]. *)
Record ConnectionManager := mk_manager { active_connections : gset WebSocket }.

(** [connect], once [websocket.accept()] has returned, and [disconnect]. *)
Definition connect (self : ConnectionManager) (websocket : WebSocket) : ConnectionManager :=
  mk_manager ({[websocket]} ∪ active_connections self).

Definition disconnect (self : ConnectionManager) (websocket : WebSocket) : ConnectionManager :=
  mk_manager (active_connections self ∖ {[websocket]}).

(** The body shared by [broadcast_metrics] and [broadcast_hype]; the set is
    iterated in the order of [elements]. *)
Definition broadcast (self : ConnectionManager) (message : payload) (net : Net)
    : Py.result unit * ConnectionManager * Net :=
  if decide (active_connections self = ∅) then (Py.Ok tt, self, net)
  else
    match send_each (elements (active_connections self)) message ∅ net with
    | (Py.Ok disconnected, net) =>
        (Py.Ok tt, mk_manager (active_connections self ∖ disconnected), net)
    | (Py.Raise e, net) => (Py.Raise e, self, net)
    end.

(** [ConnectionManager.broadcast_metrics(metrics)] *)
Definition broadcast_metrics (self : ConnectionManager) (metrics : ChannelMetrics.t)
    (net : Net) : Py.result unit * ConnectionManager * Net :=
  broadcast self (MetricsPayload metrics) net.

(** [HypeConnectionManager.broadcast_hype(event)] *)
Definition broadcast_hype (self : ConnectionManager) (event : HypeEvent.t)
    (net : Net) : Py.result unit * ConnectionManager * Net :=
  broadcast self (HypePayload event) net.

(** [client_count] *)
Definition client_count (self : ConnectionManager) : nat :=
  size (active_connections self).

(** Best-effort delivery of [message] from the registry [self] over [net],
    as an outcome [out] of a broadcast: nothing is raised; the registry
    keeps exactly its connections that do not fail; each of these has
    received the message, once, after what it had received before; a
    registered connection that fails is gone from the registry and has
    received nothing; connections outside the registry are untouched. *)
Definition isolated_delivery (self : ConnectionManager) (message : payload) (net : Net)
    (out : Py.result unit * ConnectionManager * Net) : Prop :=
  let '(r, self', net') := out in
  r = Py.Ok tt
  /\ active_connections self' = active_connections self ∖ failing net
  /\ (forall ws, ws ∈ active_connections self -> ws ∉ failing net ->
        (ws ∈ active_connections self') /\ inbox net' ws = inbox net ws ++ [message])
  /\ (forall ws, ws ∈ active_connections self -> ws ∈ failing net ->
        (ws ∉ active_connections self') /\ inbox net' ws = inbox net ws)
  /\ (forall ws, ws ∉ active_connections self ->
        (ws ∉ active_connections self') /\ inbox net' ws = inbox net ws).

End Websockets.

(** ** Settings (app/config.py) *)

Module Config.

(** [s.split(sep)] for a one-character separator. *)
Fixpoint split (sep : ascii) (s : string) : list string :=
  match s with
  | EmptyString => [EmptyString]
  | String c rest =>
      if Ascii.eqb c sep then EmptyString :: split sep rest
      else
        match split sep rest with
        | field :: fields => String c field :: fields
        | [] => [String c EmptyString]
        end
  end.

(** [c.isspace()] on the ASCII range: tab to carriage return, the four
    separators 28 to 31, and the space.  Settings and names are taken as
    ASCII text, as in [Str]. *)
Definition is_space (c : ascii) : bool :=
  let n := nat_of_ascii c in
  (((9 <=? n) && (n <=? 13)) || ((28 <=? n) && (n <=? 32)))%nat.

(** [s.lstrip()], [s.rstrip()] and [s.strip()] *)
Fixpoint lstrip (s : string) : string :=
  match s with
  | EmptyString => EmptyString
  | String c rest => if is_space c then lstrip rest else s
  end.

Fixpoint rstrip (s : string) : string :=
  match s with
  | EmptyString => EmptyString
  | String c rest =>
      match rstrip rest with
      | EmptyString => if is_space c then EmptyString else String c EmptyString
      | kept => String c kept
      end
  end.

Definition strip (s : string) : string := rstrip (lstrip s).

(** A non-empty string is true. *)
Definition truthy (s : string) : bool :=
  match s with
  | EmptyString => false
  | String _ _ => true
  end.

(** [[x.strip() for x in value.split(",") if x.strip()]]: the
    comprehension of both list properties. *)
Definition comma_list (value : string) : list string :=
  map strip (List.filter (fun x => truthy (strip x)) (split "," value)).

(** The two comma-separated settings. *)
Record Settings := mk_settings {
  default_channels : string;
  cors_origins : string
}.

Definition channels_list (self : Settings) : list string :=
  comma_list (default_channels self).

Definition cors_origins_list (self : Settings) : list string :=
  comma_list (cors_origins self).

(** [sep.join(l)] *)
Fixpoint join (sep : string) (l : list string) : string :=
  match l with
  | [] => EmptyString
  | [x] => x
  | x :: rest => x ++ sep ++ join sep rest
  end.

(** The character [c] occurs in [s]. *)
Fixpoint occurs (c : ascii) (s : string) : bool :=
  match s with
  | EmptyString => false
  | String c' rest => Ascii.eqb c' c || occurs c rest
  end.

(** A name as the list properties return them: not empty, without a comma,
    with no white space at either end. *)
Definition clean (name : string) : Prop :=
  name <> EmptyString /\ occurs "," name = false /\ strip name = name.

End Config.

(** ** The chat client (app/services/twitch_client.py) *)

Module TwitchClient.

Import Py.

(** What the parser reads of a [twitchio.Message]: [echo], the IRC tags
    ([None] when the message has none), [content], [channel.name] ([None]
    when [message.channel] is [None]), and the display name and badges of
    the author ([None] when there is no author). *)
Record Message := mk_message {
  echo : bool;
  tags : option (gmap string string);
  content : option string;
  channel_name : option string;
  author : option (string * list string)
}.

(** [message.tags[key]] where [message.tags] is there and has the key. *)
Definition tag (message : Message) (key : string) : option string :=
  match tags message with
  | Some t => t !! key
  | None => None
  end.

(** [s.split(sep)[0]] and, for [sep in s], [s.split(sep, 1)[1]]. *)
Fixpoint before (sep : ascii) (s : string) : string :=
  match s with
  | EmptyString => EmptyString
  | String c rest => if Ascii.eqb c sep then EmptyString else String c (before sep rest)
  end.

Fixpoint after (sep : ascii) (s : string) : string :=
  match s with
  | EmptyString => EmptyString
  | String c rest => if Ascii.eqb c sep then rest else after sep rest
  end.

(** [s[start:stop]] *)
Definition slice (s : string) (start stop : Z) : string :=
  let len := Z.of_nat (String.length s) in
  let clamp := fun i => if i <? 0 then Z.max (i + len) 0 else Z.min i len in
  let i := clamp start in
  let j := clamp stop in
  String.substring (Z.to_nat i) (Z.to_nat (j - i)) s.

Section Parser.

(** [int(s)]: the number, or [None] for ValueError. *)
Variable int : string -> option Z.

(** What [datetime.fromtimestamp(ms / 1000, tz=timezone.utc)] raises for
    [ms], if it raises: [Some None] for ValueError, [Some (Some e)] for
    any other exception [e]. *)
Variable fromtimestamp_raises : Z -> option (option exn).

(** The loop of [_extract_emotes] over the fields of the [emotes] tag,
    with [emotes] the list built so far; a ValueError ends the loop, and
    the names found before it stay. *)
Fixpoint scan_emotes (content : string) (fields : list string) (emotes : list string)
    : list string :=
  match fields with
  | [] => emotes
  | emote_data :: rest =>
      if Config.occurs ":" emote_data then
        let positions := after ":" emote_data in
        if Config.truthy positions && Config.truthy content then
          let first_pos := before "," positions in
          match map int (Config.split "-" first_pos) with
          | [Some start; Some stop] =>
              let emote_name := slice content start (stop + 1) in
              if Config.truthy emote_name && negb (bool_decide (emote_name ∈ emotes))
              then scan_emotes content rest (emotes ++ [emote_name])
              else scan_emotes content rest emotes
          | _ => emotes
          end
        else scan_emotes content rest emotes
      else scan_emotes content rest emotes
  end.

Definition _extract_emotes (message : Message) : list string :=
  let emote_tag := default EmptyString (tag message "emotes") in
  if Config.truthy emote_tag
  then scan_emotes (default EmptyString (content message)) (Config.split "/" emote_tag) []
  else [].

Definition _extract_badges (message : Message) : list string :=
  match author message with
  | Some (_, badges) => badges
  | None => []
  end.

(** [_extract_timestamp(message)] when [datetime.now(timezone.utc)] reads
    [now]; the tag counts milliseconds, and the division by 1000 is taken
    as exact. *)
Definition _extract_timestamp (message : Message) (now : Z)
    : result Datetime.datetime :=
  match tag message "tmi-sent-ts" with
  | Some text =>
      match int text with
      | Some ms_timestamp =>
          match fromtimestamp_raises ms_timestamp with
          | None => Ok (Datetime.aware_utc (ms_timestamp * 1000))
          | Some None => Ok (Datetime.aware_utc now)
          | Some (Some e) => Raise e
          end
      | None => Ok (Datetime.aware_utc now)
      end
  | None => Ok (Datetime.aware_utc now)
  end.

Definition _parse_message (message : Message) (now : Z) : result ChatMessage.t :=
  let emotes := _extract_emotes message in
  let badges := _extract_badges message in
  let channel := default "unknown" (channel_name message) in
  let username := match author message with
                  | Some (display_name, _) => display_name
                  | None => "unknown"
                  end in
  let msg_id := default EmptyString (tag message "id") in
  match _extract_timestamp message now with
  | Raise e => Raise e
  | Ok timestamp =>
      Ok (ChatMessage.mk msg_id channel username
            (default EmptyString (content message)) timestamp emotes badges)
  end.

(** [event_message(message)] with the callback [handle_twitch_message] of
    main.py, which puts the parsed message into the buffer. *)
Definition event_message (message : Message) (now : Z) (buffer : MessageBuffer.t)
    : result unit * MessageBuffer.t :=
  if echo message then (Ok tt, buffer)
  else
    match _parse_message message now with
    | Raise e => (Raise e, buffer)
    | Ok parsed_message =>
        (Ok tt, MessageBuffer.add_message buffer (ChatMessage.channel parsed_message)
                  parsed_message)
    end.

(** The buffer after the client has handled the messages [received], each
    with the clock reading of its handling. *)
Definition feed (buffer : MessageBuffer.t) (received : list (Message * Z))
    : MessageBuffer.t :=
  fold_left (fun b mt => snd (event_message (fst mt) (snd mt) b)) received buffer.

End Parser.

(** [e] is a piece of [s]. *)
Definition piece_of (e s : string) : Prop :=
  exists pre post, s = (pre ++ e ++ post)%string.

(** Every stored message carries a zone. *)
Definition all_aware (buffer : MessageBuffer.t) : Prop :=
  forall key d, MessageBuffer._buffers buffer !! key = Some d ->
    Forall MetricsCalculator.aware (Deque.items d).

End TwitchClient.

(** ** Channel management (app/api/routes/channels.py, twitch_client.py) *)

Module Channels.

Import Py.

(** The client as the routes see it: the set [_connected_channels], and what
    [join_channels] and [part_channels] of the IRC library raise, if they
    raise. *)
Record TwitchChatClient := mk_client {
  _connected_channels : gset string;
  irc_error : option string
}.

(** [TwitchChatClient(token, channels, callback)] *)
Definition init (channels : list string) (irc_error : option string) : TwitchChatClient :=
  mk_client (list_to_set channels) irc_error.

Definition set_connected (self : TwitchChatClient) (channels : gset string)
    : TwitchChatClient :=
  mk_client channels (irc_error self).

(** [await self.join_channels([channel])] and
    [await self.part_channels([channel])] *)
Definition irc_call (self : TwitchChatClient) : result unit :=
  match irc_error self with
  | Some msg => Raise (Exception msg)
  | None => Ok tt
  end.

Definition join_channel (self : TwitchChatClient) (channel : string)
    : result unit * TwitchChatClient :=
  if decide (channel ∉ _connected_channels self) then
    match irc_call self with
    | Raise e => (Raise e, self)
    | Ok _ => (Ok tt, set_connected self ({[channel]} ∪ _connected_channels self))
    end
  else (Ok tt, self).

Definition leave_channel (self : TwitchChatClient) (channel : string)
    : result unit * TwitchChatClient :=
  if decide (channel ∈ _connected_channels self) then
    match irc_call self with
    | Raise e => (Raise e, self)
    | Ok _ => (Ok tt, set_connected self (_connected_channels self ∖ {[channel]}))
    end
  else (Ok tt, self).

(** What a route comes to: its response, an [HTTPException], or an
    exception that is no [Exception]. *)
Inductive outcome :=
| ChannelResponse (status channel : string)
| HTTPException (status_code : Z) (detail : string)
| Raised (e : exn).

(** [POST /channels]; [client] is [get_twitch_client()], [None] when the
    application runs without a client. *)
Definition add_channel (client : option TwitchChatClient) (request_channel : string)
    : outcome * option TwitchChatClient :=
  let channel := Config.strip (Str.lower request_channel) in
  if negb (Config.truthy channel)
  then (HTTPException 400 "Channel name cannot be empty", client)
  else
    match client with
    | None => (HTTPException 503 "Twitch client not connected. Check credentials.", client)
    | Some c =>
        if decide (channel ∈ _connected_channels c)
        then (ChannelResponse "already_joined" channel, client)
        else
          match join_channel c channel with
          | (Ok _, c) => (ChannelResponse "joined" channel, Some c)
          | (Raise e, c) =>
              if is_Exception e
              then (HTTPException 500 ("Failed to join channel: " ++ str e), Some c)
              else (Raised e, Some c)
          end
    end.

(** [DELETE /channels/{name}] *)
Definition remove_channel (client : option TwitchChatClient) (name : string)
    : outcome * option TwitchChatClient :=
  let channel := Config.strip (Str.lower name) in
  match client with
  | None => (HTTPException 503 "Twitch client not connected", client)
  | Some c =>
      if decide (channel ∉ _connected_channels c)
      then (HTTPException 404 ("Not monitoring channel: " ++ channel), client)
      else
        match leave_channel c channel with
        | (Ok _, c) => (ChannelResponse "left" channel, Some c)
        | (Raise e, c) =>
            if is_Exception e
            then (HTTPException 500 ("Failed to leave channel: " ++ str e), Some c)
            else (Raised e, Some c)
        end
  end.

(** The channels of a client, none for no client. *)
Definition connected (client : option TwitchChatClient) : gset string :=
  match client with
  | Some c => _connected_channels c
  | None => ∅
  end.

End Channels.

(** ** The orchestration loop (app/main.py) *)

Module Main.

Import Py.
Open Scope py_scope.

Section Loop.

(** The world the loop acts on: the services, the connections, the
    database, the log, the clock and the event loop. *)
Context {World : Type}.

(** The collaborators, each as the effect of its call; any of them may
    raise, and the awaited ones may be cancelled. *)
Variable channels_list : M World (list string).
Variable calculate_metrics : string -> M World ChannelMetrics.t.
Variable record_velocity : string -> Qc -> M World unit.
Variable check_for_hype :
  string -> Qc -> list (string * nat) -> M World (option HypeEvent.t).
(** [async with async_session() as session:
       repo = HypeEventRepository(session); await repo.create(hype_event)] *)
Variable repo_create : HypeEvent.t -> M World unit.
Variable broadcast_hype : HypeEvent.t -> M World unit.
Variable broadcast_metrics : ChannelMetrics.t -> M World unit.
(** [await asyncio.sleep(seconds)] *)
Variable sleep : Z -> M World unit.
(** [logger.info(msg)] and [logger.error(msg)] *)
Variable logger_info : string -> World -> World.
Variable logger_error : string -> World -> World.

(** The save-and-broadcast step of a detected hype event, in its [try]. *)
Definition save_and_broadcast (hype_event : HypeEvent.t) : M World unit :=
  try_except_Exception
    (repo_create hype_event ;;;
     broadcast_hype hype_event)
    (fun e => effect (logger_error ("Failed to save/broadcast hype event: " ++ str e))).

(** The body of [for channel in channels_list]. *)
Definition process_channel (channel : string) : M World unit :=
  metrics <- calculate_metrics channel ;;
  record_velocity channel (ChannelMetrics.messages_per_second metrics) ;;;
  hype_event <- check_for_hype channel
                  (ChannelMetrics.messages_per_second metrics)
                  (ChannelMetrics.top_emotes metrics) ;;
  match hype_event with
  | Some hype_event => save_and_broadcast hype_event
  | None => ret tt
  end ;;;
  broadcast_metrics metrics.

(** How one pass through the body of [while True] ends. *)
Inductive flow := Continue | Break.

(** The [try] statement that is the body of [while True]. *)
Definition iteration : M World flow :=
  try_except_Cancelled_Exception
    (channels <- channels_list ;;
     for_each channels process_channel ;;;
     sleep 1 ;;;
     ret Continue)
    (effect (logger_info "Metrics broadcast loop cancelled") ;;;
     ret Break)
    (fun e =>
       effect (logger_error ("Error in metrics broadcast loop: " ++ str e)) ;;;
       sleep 1 ;;;
       ret Continue).

(** [while True] for at most [fuel] passes. *)
Fixpoint while_true (fuel : nat) : M World (option unit) :=
  match fuel with
  | O => ret None
  | S fuel =>
      f <- iteration ;;
      match f with
      | Break => ret (Some tt)
      | Continue => while_true fuel
      end
  end.

(** [broadcast_metrics_loop()], run for at most [fuel] passes of its loop:
    [Ok (Some tt)] when the coroutine has returned, [Ok None] when it is
    still looping, [Raise e] when it has ended by the exception [e]. *)
Definition broadcast_metrics_loop (fuel : nat) : M World (option unit) :=
  effect (logger_info "Starting metrics broadcast loop") ;;;
  while_true fuel.

(** No collaborator is ever cancelled. *)
Definition nothing_cancelled : Prop :=
  never_cancelled channels_list
  /\ (forall c, never_cancelled (calculate_metrics c))
  /\ (forall c v, never_cancelled (record_velocity c v))
  /\ (forall c v t, never_cancelled (check_for_hype c v t))
  /\ (forall ev, never_cancelled (repo_create ev))
  /\ (forall ev, never_cancelled (broadcast_hype ev))
  /\ (forall m, never_cancelled (broadcast_metrics m))
  /\ (forall n, never_cancelled (sleep n)).

(** [asyncio.sleep] raises nothing but a cancellation. *)
Definition sleep_raises_only_cancellation : Prop :=
  forall n, raises_only (fun e => e = CancelledError) (sleep n).

End Loop.

End Main.

(** ** A harness for the loop

    Collaborators for running the loop on concrete data: every call is
    recorded, raises what the script says for it, and otherwise acts on a
    world made of the two registries, the peers, the saved events and the
    log.  The broadcasts are those of [Websockets]. *)

Module Sim.

Import Py Websockets.
Open Scope py_scope.

Record World := mk {
  calls : list (string * string);
  log : list string;
  ws_manager : ConnectionManager;
  hype_manager : ConnectionManager;
  net : Net;
  saved : list HypeEvent.t
}.

(** The script of a run: the monitored channels, what the call [name] for
    [channel] raises, and the channels for which the detector fires. *)
Record Script := mk_script {
  channels : list string;
  raises : string -> string -> option exn;
  bursts : string -> bool
}.

Definition record_call (name channel : string) (w : World) : World :=
  mk (calls w ++ [(name, channel)]) (log w) (ws_manager w) (hype_manager w)
     (net w) (saved w).

Definition write_log (line : string) (w : World) : World :=
  mk (calls w) (log w ++ [line]) (ws_manager w) (hype_manager w) (net w) (saved w).

Definition save (event : HypeEvent.t) (w : World) : World :=
  mk (calls w) (log w) (ws_manager w) (hype_manager w) (net w) (saved w ++ [event]).

Section Scripted.

Variable script : Script.

(** Entering the call [name] for [channel]. *)
Definition call (name channel : string) : M World unit :=
  fun w =>
    match raises script name channel with
    | Some e => (Raise e, record_call name channel w)
    | None => (Ok tt, record_call name channel w)
    end.

Definition metrics_of (channel : string) : ChannelMetrics.t :=
  ChannelMetrics.mk channel (Datetime.aware_utc 0) 0%Qc 0 0 [] 0%Qc.

Definition event_of (channel : string) (velocity : Qc) (emotes : list (string * nat))
    : HypeEvent.t :=
  HypeEvent.mk channel (Datetime.naive 0) velocity 0%Qc 0%Qc 0%Qc emotes.

Definition channels_list : M World (list string) := ret (channels script).

Definition calculate_metrics (channel : string) : M World ChannelMetrics.t :=
  call "calculate_metrics" channel ;;; ret (metrics_of channel).

Definition record_velocity (channel : string) (velocity : Qc) : M World unit :=
  call "record_velocity" channel.

Definition check_for_hype (channel : string) (velocity : Qc)
    (emotes : list (string * nat)) : M World (option HypeEvent.t) :=
  call "check_for_hype" channel ;;;
  ret (if bursts script channel then Some (event_of channel velocity emotes) else None).

Definition repo_create (event : HypeEvent.t) : M World unit :=
  call "repo.create" (HypeEvent.channel event) ;;; effect (save event).

Definition broadcast_hype (event : HypeEvent.t) : M World unit :=
  call "broadcast_hype" (HypeEvent.channel event) ;;;
  fun w =>
    let '(r, manager, net) := Websockets.broadcast_hype (hype_manager w) event (net w) in
    (r, mk (calls w) (log w) (ws_manager w) manager net (saved w)).

Definition broadcast_metrics (metrics : ChannelMetrics.t) : M World unit :=
  call "broadcast_metrics" (ChannelMetrics.channel metrics) ;;;
  fun w =>
    let '(r, manager, net) := Websockets.broadcast_metrics (ws_manager w) metrics (net w) in
    (r, mk (calls w) (log w) manager (hype_manager w) net (saved w)).

Definition sleep (seconds : Z) : M World unit := call "sleep" "".

Definition logger_info (msg : string) : World -> World := write_log ("INFO " ++ msg).
Definition logger_error (msg : string) : World -> World := write_log ("ERROR " ++ msg).

Definition process_channel : string -> M World unit :=
  Main.process_channel calculate_metrics record_velocity check_for_hype
    repo_create broadcast_hype broadcast_metrics logger_error.

Definition iteration : M World Main.flow :=
  Main.iteration channels_list calculate_metrics record_velocity check_for_hype
    repo_create broadcast_hype broadcast_metrics sleep logger_info logger_error.

Definition broadcast_metrics_loop (fuel : nat) : M World (option unit) :=
  Main.broadcast_metrics_loop channels_list calculate_metrics record_velocity
    check_for_hype repo_create broadcast_hype broadcast_metrics sleep
    logger_info logger_error fuel.

End Scripted.

(** A world with metrics subscribers 1 and 2, burst subscribers 3 and 4,
    no failing connection, nothing received, saved or logged. *)
Definition world0 : World :=
  mk [] [] (mk_manager {[1%nat; 2%nat]}) (mk_manager {[3%nat; 4%nat]})
     (mk_net ∅ ∅) [].

Definition no_fault : string -> string -> option exn := fun _ _ => None.

(** Channels [a] and [b]; computing the metrics of [a] raises. *)
Definition metrics_fail : Script :=
  mk_script ["a"; "b"]
    (fun name channel =>
       if (String.eqb name "calculate_metrics" && String.eqb channel "a")%bool
       then Some (Exception "metrics failed") else None)
    (fun _ => false).

(** Channels [a] and [b]; a burst on [a], whose save raises. *)
Definition save_fail : Script :=
  mk_script ["a"; "b"]
    (fun name channel =>
       if (String.eqb name "repo.create" && String.eqb channel "a")%bool
       then Some (Exception "database is locked") else None)
    (fun channel => String.eqb channel "a").

(** Channels [a] and [b]; a burst on [a], whose save is cancelled. *)
Definition save_cancelled : Script :=
  mk_script ["a"; "b"]
    (fun name channel =>
       if (String.eqb name "repo.create" && String.eqb channel "a")%bool
       then Some CancelledError else None)
    (fun channel => String.eqb channel "a").

(** Channels [a] and [b]; a burst on [a]; nothing raises. *)
Definition all_well : Script :=
  mk_script ["a"; "b"] no_fault (fun channel => String.eqb channel "a").

End Sim.

(** ** The loop on the services

    The collaborators of the loop as main.py wires them: the settings, the
    message buffer behind the metrics calculator, the detector, the two
    registries with their peers, and the table of saved events.  Here the
    clock moves only while the loop sleeps, the metrics and hype endpoints
    have peers of their own, a save fails when the database is down, and
    nothing is cancelled. *)

Module Pipeline.

Import Py Websockets.
Open Scope py_scope.

Record World := mk {
  settings : Config.Settings;
  message_buffer : MessageBuffer.t;
  hype_detector : HypeDetector.t;
  ws_manager : ConnectionManager;
  metrics_peers : Net;
  hype_manager : ConnectionManager;
  hype_peers : Net;
  database : list HypeEvent.t;
  database_down : bool;
  log : list string;
  clock : Z
}.

Definition set_detector (w : World) (detector : HypeDetector.t) : World :=
  mk (settings w) (message_buffer w) detector (ws_manager w) (metrics_peers w)
     (hype_manager w) (hype_peers w) (database w) (database_down w) (log w) (clock w).

Definition set_metrics_side (w : World) (manager : ConnectionManager) (peers : Net)
    : World :=
  mk (settings w) (message_buffer w) (hype_detector w) manager peers
     (hype_manager w) (hype_peers w) (database w) (database_down w) (log w) (clock w).

Definition set_hype_side (w : World) (manager : ConnectionManager) (peers : Net)
    : World :=
  mk (settings w) (message_buffer w) (hype_detector w) (ws_manager w) (metrics_peers w)
     manager peers (database w) (database_down w) (log w) (clock w).

Definition set_database (w : World) (rows : list HypeEvent.t) : World :=
  mk (settings w) (message_buffer w) (hype_detector w) (ws_manager w) (metrics_peers w)
     (hype_manager w) (hype_peers w) rows (database_down w) (log w) (clock w).

Definition write_log (line : string) (w : World) : World :=
  mk (settings w) (message_buffer w) (hype_detector w) (ws_manager w) (metrics_peers w)
     (hype_manager w) (hype_peers w) (database w) (database_down w) (log w ++ [line])
     (clock w).

Definition set_clock (w : World) (t : Z) : World :=
  mk (settings w) (message_buffer w) (hype_detector w) (ws_manager w) (metrics_peers w)
     (hype_manager w) (hype_peers w) (database w) (database_down w) (log w) t.

Section Services.

Variable sqrt : Qc -> Qc.

(** [settings.channels_list] *)
Definition channels_list : M World (list string) :=
  fun w => (Ok (Config.channels_list (settings w)), w).

(** [metrics_calculator.calculate_metrics(channel)] *)
Definition calculate_metrics (channel : string) : M World ChannelMetrics.t :=
  fun w =>
    (Ok (MetricsCalculator.calculate_metrics (message_buffer w) channel (clock w)), w).

(** [hype_detector.record_velocity(channel, velocity)] *)
Definition record_velocity (channel : string) (velocity : Qc) : M World unit :=
  fun w =>
    (Ok tt,
     set_detector w (HypeDetector.record_velocity (hype_detector w) channel velocity
                       (clock w))).

(** [hype_detector.check_for_hype(channel=..., current_velocity=...,
    top_emotes=...)] *)
Definition check_for_hype (channel : string) (current_velocity : Qc)
    (top_emotes : list (string * nat)) : M World (option HypeEvent.t) :=
  fun w =>
    let out := HypeDetector.check_for_hype sqrt (hype_detector w) channel
                 current_velocity (Some top_emotes) (clock w) in
    (fst out, set_detector w (snd out)).

(** The save of an event in its own session. *)
Definition repo_create (event : HypeEvent.t) : M World unit :=
  fun w =>
    if database_down w then (Raise (Exception "database is locked"), w)
    else (Ok tt, set_database w (database w ++ [event])).

Definition broadcast_hype (event : HypeEvent.t) : M World unit :=
  fun w =>
    let '(r, manager, peers) :=
      Websockets.broadcast_hype (hype_manager w) event (hype_peers w) in
    (r, set_hype_side w manager peers).

Definition broadcast_metrics (metrics : ChannelMetrics.t) : M World unit :=
  fun w =>
    let '(r, manager, peers) :=
      Websockets.broadcast_metrics (ws_manager w) metrics (metrics_peers w) in
    (r, set_metrics_side w manager peers).

Definition sleep (n : Z) : M World unit :=
  fun w => (Ok tt, set_clock w (clock w + Datetime.seconds n)).

Definition logger_info (msg : string) : World -> World := write_log ("INFO " ++ msg).
Definition logger_error (msg : string) : World -> World := write_log ("ERROR " ++ msg).

Definition process_channel : string -> M World unit :=
  Main.process_channel calculate_metrics record_velocity check_for_hype
    repo_create broadcast_hype broadcast_metrics logger_error.

Definition iteration : M World Main.flow :=
  Main.iteration channels_list calculate_metrics record_velocity check_for_hype
    repo_create broadcast_hype broadcast_metrics sleep logger_info logger_error.

Definition broadcast_metrics_loop (fuel : nat) : M World (option unit) :=
  Main.broadcast_metrics_loop channels_list calculate_metrics record_velocity
    check_for_hype repo_create broadcast_hype broadcast_metrics sleep
    logger_info logger_error fuel.

End Services.

(** The snapshot of [channel] in the world [w]. *)
Definition snapshot (w : World) (channel : string) : ChannelMetrics.t :=
  MetricsCalculator.calculate_metrics (message_buffer w) channel (clock w).

(** The calls that one pass of the loop makes on the detector for the
    channels [channels], in order. *)
Definition detector_calls (w : World) (channels : list string)
    : list HypeDetector.call :=
  flat_map
    (fun channel =>
       let metrics := snapshot w channel in
       [HypeDetector.Record channel (ChannelMetrics.messages_per_second metrics) (clock w);
        HypeDetector.Check channel (ChannelMetrics.messages_per_second metrics)
          (Some (ChannelMetrics.top_emotes metrics)) (clock w)])
    channels.

(** What a registered connection of [manager] holds after the messages
    [sent] were broadcast over [peers] one after the other, and what any
    other connection holds. *)
Definition delivered (manager : ConnectionManager) (peers : Net) (sent : list payload)
    (ws : WebSocket) : list payload :=
  if decide (ws ∈ active_connections manager /\ ws ∉ failing peers)
  then inbox peers ws ++ sent
  else inbox peers ws.

(** The registry after the messages [sent] were broadcast. *)
Definition pruned (manager : ConnectionManager) (peers : Net) (sent : list payload)
    : ConnectionManager :=
  match sent with
  | [] => manager
  | _ => mk_manager (active_connections manager ∖ failing peers)
  end.


End Pipeline.

(** ** Sample data *)

Module Samples.

Import Datetime.

(** A square root to run the detector on concrete numbers: exact on the
    squares of rationals and on zero, rounded down otherwise. *)
Definition sqrt_down (x : Qc) : Qc :=
  Q2Qc (Z.sqrt (Qnum (this x) * Zpos (Qden (this x))) # Qden (this x)).

(** The detector of main.py after twelve velocities of 10.0 for channel
    [c], recorded at seconds 1 to 12. *)
Definition steady : HypeDetector.t :=
  fold_left
    (fun d t => HypeDetector.record_velocity d "c" (Q2Qc 10) (seconds t))
    [1; 2; 3; 4; 5; 6; 7; 8; 9; 10; 11; 12]
    (HypeDetector.init 60 (Q2Qc 2) 30 (Q2Qc 5)).

(** Its window for [c]: an unbounded deque of the twelve samples. *)
Definition steady_window : Deque.deque (Z * Qc) :=
  Deque.mk_deque
    (map (fun t => (seconds t, Q2Qc 10)) [1; 2; 3; 4; 5; 6; 7; 8; 9; 10; 11; 12])
    None.

(** A chat message with id [name], sent at second [t] (an aware UTC
    timestamp, as the chat client makes them) with the given emotes. *)
Definition message (name : string) (t : Z) (emotes : list string) : ChatMessage.t :=
  ChatMessage.mk name "chan" "viewer" "hello" (aware_utc (seconds t)) emotes [].

Definition msgA := message "A" 1 ["LUL"].
Definition msgB := message "B" 2 ["KEKW"; "LUL"].
Definition msgC := message "C" 3 ["KEKW"].
Definition msgD := message "D" 4 ["Pog"].

End Samples.

(** * Properties *)

(** ** Dates *)

Module DatetimeFacts.

Import Datetime.

Lemma instant_assume_utc_sub dt delta :
  instant (assume_utc (sub dt delta)) = instant (assume_utc dt) - delta.
Proof. destruct dt as [w [off|]]; unfold assume_utc, instant, sub; simpl; lia. Qed.

Lemma instant_assume_utc_add dt delta :
  instant (assume_utc (add dt delta)) = instant (assume_utc dt) + delta.
Proof. destruct dt as [w [off|]]; unfold assume_utc, instant, add; simpl; lia. Qed.

End DatetimeFacts.

(** ** Deques *)

Module DequeFacts.

Import Deque.

Lemma lastn_length {A} n (l : list A) : length (lastn n l) = (length l `min` n)%nat.
Proof. unfold lastn. rewrite length_drop. lia. Qed.

Lemma lastn_all {A} n (l : list A) : (length l <= n)%nat -> lastn n l = l.
Proof. intros H. unfold lastn. replace (length l - n)%nat with 0%nat by lia. done. Qed.

Lemma lastn_snoc {A} n (l : list A) x :
  lastn n (l ++ [x]) =
  if (n <? length (lastn n l ++ [x]))%nat then drop 1 (lastn n l ++ [x])
  else lastn n l ++ [x].
Proof.
  unfold lastn. rewrite !length_app, length_drop. simpl.
  destruct (Nat.ltb_spec n (length l - (length l - n) + 1)) as [Hlt|Hge].
  - rewrite !drop_app, drop_drop, length_drop. f_equal; f_equal; lia.
  - replace (length l - n)%nat with 0%nat by lia.
    replace (length l + 1 - n)%nat with 0%nat by lia. done.
Qed.

End DequeFacts.

(** ** The message window *)

Module MessageBufferFacts.

Import Datetime Deque MessageBuffer DequeFacts.

(** The deque that [add_message] appends to: the channel's own, or a fresh
    one of the buffer's capacity. *)
Lemma add_message_lookup (b : MessageBuffer.t) c m key :
  _buffers (add_message b c m) !! key =
  if decide (Str.lower c = key)
  then Some (append (default (Deque.empty (Some (_maxlen b))) (_buffers b !! Str.lower c)) m)
  else _buffers b !! key.
Proof.
  unfold add_message. simpl.
  destruct (_buffers b !! Str.lower c) as [d|] eqn:Hd; simpl.
  - rewrite Hd. destruct (decide (Str.lower c = key)) as [<-|Hne].
    + by rewrite lookup_insert_eq.
    + by rewrite lookup_insert_ne.
  - rewrite lookup_insert_eq. destruct (decide (Str.lower c = key)) as [<-|Hne].
    + by rewrite lookup_insert_eq.
    + by rewrite !lookup_insert_ne.
Qed.

Lemma add_message_maxlen (b : MessageBuffer.t) c m :
  _maxlen (add_message b c m) = _maxlen b.
Proof. reflexivity. Qed.

Lemma insert_all_snoc b ins c m :
  insert_all b (ins ++ [(c, m)]) = add_message (insert_all b ins) c m.
Proof. unfold insert_all. by rewrite fold_left_app. Qed.

Lemma insert_all_maxlen b ins : _maxlen (insert_all b ins) = _maxlen b.
Proof.
  induction ins as [|[c m] ins IH] using rev_ind; [done|].
  by rewrite insert_all_snoc, add_message_maxlen.
Qed.

Lemma inserted_for_snoc key ins c m :
  inserted_for key (ins ++ [(c, m)]) =
  inserted_for key ins ++ (if decide (Str.lower c = key) then [m] else []).
Proof.
  unfold inserted_for. rewrite List.filter_app, map_app. simpl.
  destruct (decide (Str.lower c = key)) as [Heq|Hne].
  - by rewrite bool_decide_eq_true_2.
  - by rewrite bool_decide_eq_false_2.
Qed.

Lemma append_bounded {A} N (l : list A) x :
  append (mk_deque (lastn N l) (Some N)) x = mk_deque (lastn N (l ++ [x])) (Some N).
Proof.
  unfold append. simpl. rewrite (lastn_snoc N l x).
  by destruct (N <? length (lastn N l ++ [x]))%nat.
Qed.

(** After any run of insertions into a fresh buffer of capacity [N], the
    deque of a key holds the last [N] messages sent to that key; a key that
    got no message has no deque. *)
Lemma insert_all_lookup N ins key :
  _buffers (insert_all (init N) ins) !! key =
  match inserted_for key ins with
  | [] => None
  | l => Some (mk_deque (lastn N l) (Some N))
  end.
Proof.
  induction ins as [|[c m] ins IH] using rev_ind; [done|].
  rewrite insert_all_snoc, add_message_lookup, inserted_for_snoc.
  rewrite insert_all_maxlen. simpl.
  destruct (decide (Str.lower c = key)) as [Heq|Hne].
  - subst key. rewrite IH.
    destruct (inserted_for (Str.lower c) ins) as [|m0 l] eqn:Hl; simpl.
    + f_equal. apply (append_bounded N [] m).
    + f_equal. apply (append_bounded N (m0 :: l) m).
  - rewrite IH, app_nil_r. done.
Qed.

Lemma window_insert_all N ins channel :
  window (insert_all (init N) ins) channel =
  lastn N (inserted_for (Str.lower channel) ins).
Proof.
  unfold window. rewrite insert_all_lookup.
  by destruct (inserted_for (Str.lower channel) ins).
Qed.

Lemma count_insert_all N ins channel :
  get_message_count (insert_all (init N) ins) channel =
  (length (inserted_for (Str.lower channel) ins) `min` N)%nat.
Proof.
  unfold get_message_count. rewrite insert_all_lookup.
  destruct (inserted_for (Str.lower channel) ins) as [|m l] eqn:Hl; [done|].
  simpl items. by rewrite lastn_length.
Qed.

Lemma lastn_full_snoc {A} N (l : list A) x :
  length (lastn N l) = N -> lastn N (l ++ [x]) = drop 1 (lastn N l ++ [x]).
Proof.
  intros Hfull. rewrite lastn_snoc, length_app, Hfull. simpl.
  destruct (Nat.ltb_spec N (N + 1)); [done | lia].
Qed.

(** C3 (bounded window).  Take a fresh buffer of capacity [N] and any run
    [ins] of insertions, to any channels and in any interleaving.  For every
    channel the window then counts [min (number of events sent to it) N]
    events, and holds exactly the last [N] events sent to it, oldest first.
    If the window is full, one more insertion drops the oldest event and
    keeps the others in order with the new one last. *)
Theorem bounded_window (N : nat) (ins : list (string * ChatMessage.t)) (channel : string) :
  let b := insert_all (init N) ins in
  let sent := inserted_for (Str.lower channel) ins in
  get_message_count b channel = (length sent `min` N)%nat
  /\ length (window b channel) = (length sent `min` N)%nat
  /\ window b channel = lastn N sent
  /\ (forall m, length (window b channel) = N ->
        window (add_message b channel m) channel = drop 1 (window b channel ++ [m]))
  /\ (forall m, length (window b channel) = N -> (0 < N)%nat ->
        window (add_message b channel m) channel = drop 1 (window b channel) ++ [m]).
Proof.
  intros b sent. subst b sent.
  assert (Hstep : forall m, length (window (insert_all (init N) ins) channel) = N ->
    window (add_message (insert_all (init N) ins) channel m) channel =
    drop 1 (window (insert_all (init N) ins) channel ++ [m])).
  { intros m Hfull. rewrite <- insert_all_snoc, !window_insert_all, inserted_for_snoc.
    rewrite decide_True by done. apply lastn_full_snoc.
    by rewrite <- window_insert_all. }
  split; [apply count_insert_all|].
  split; [by rewrite window_insert_all, lastn_length|].
  split; [apply window_insert_all|].
  split; [exact Hstep|].
  intros m Hfull Hpos. rewrite Hstep by done.
  destruct (window (insert_all (init N) ins) channel) as [|m0 w]; simpl in *; [lia | done].
Qed.

(** The scan keeps what it has and adds, newest first, the events that are
    not before [since]. *)
Lemma scan_since_no_limit since newest_first messages :
  scan_since since None newest_first messages =
  messages ++ List.filter (fun m => geb (assume_utc (ChatMessage.timestamp m)) since) newest_first.
Proof.
  revert messages. induction newest_first as [|m rest IH]; intros messages; simpl.
  - by rewrite app_nil_r.
  - destruct (geb (assume_utc (ChatMessage.timestamp m)) since); simpl.
    + rewrite IH. by rewrite <- app_assoc.
    + apply IH.
Qed.

Lemma get_messages_since_filter b channel since :
  get_messages_since b channel since None =
  List.filter (not_before since) (window b channel).
Proof.
  unfold get_messages_since, window.
  destruct (_buffers b !! Str.lower channel) as [d|]; [|done].
  rewrite scan_since_no_limit. simpl.
  by rewrite List.filter_rev, rev_involutive.
Qed.

Lemma not_before_true since m :
  not_before since m = true <->
  instant (assume_utc since) <= instant (assume_utc (ChatMessage.timestamp m)).
Proof. unfold not_before, geb. apply Z.leb_le. Qed.

Lemma not_before_false since m :
  not_before since m = false <->
  instant (assume_utc (ChatMessage.timestamp m)) < instant (assume_utc since).
Proof. unfold not_before, geb. apply Z.leb_gt. Qed.

(** C4 (query).  With no limit, [get_messages_since] returns the stored
    events of the channel whose timestamp is at or after [since], in the
    order of the window (arrival order, oldest first), and nothing for a
    channel without a buffer.  Scenario: after A, B, C, D went into a window
    of capacity 3, it holds B, C, D; with the timestamps of B, C, D in
    arrival order, the query since B's timestamp returns B, C, D and the
    query since any later time than D's timestamp returns nothing. *)
Theorem query_since :
  (forall (b : MessageBuffer.t) channel since,
     get_messages_since b channel since None =
       List.filter (not_before since) (window b channel)
     /\ (forall m, In m (get_messages_since b channel since None) <->
           In m (window b channel) /\
           instant (assume_utc since) <= instant (assume_utc (ChatMessage.timestamp m)))
     /\ (_buffers b !! Str.lower channel = None ->
           get_messages_since b channel since None = []))
  /\ (forall channel A B C D,
       let b := insert_all (init 3) [(channel, A); (channel, B); (channel, C); (channel, D)] in
       window b channel = [B; C; D]
       /\ (no_later B C -> no_later C D ->
            get_messages_since b channel (ChatMessage.timestamp B) None = [B; C; D]
            /\ forall delta, 0 < delta ->
                 get_messages_since b channel
                   (Datetime.add (ChatMessage.timestamp D) delta) None = [])).
Proof.
  split.
  - intros b channel since. split; [apply get_messages_since_filter|]. split.
    + intros m. rewrite get_messages_since_filter, List.filter_In.
      by rewrite not_before_true.
    + intros Hnone. unfold get_messages_since. by rewrite Hnone.
  - intros channel A B C D b.
    assert (Hw : window b channel = [B; C; D]).
    { subst b. rewrite window_insert_all. unfold inserted_for. simpl.
      rewrite !bool_decide_eq_true_2 by done. reflexivity. }
    split; [exact Hw|].
    unfold no_later. intros HBC HCD. split.
    + rewrite get_messages_since_filter, Hw. simpl.
      rewrite !(proj2 (not_before_true _ _)) by lia. done.
    + intros delta Hdelta. rewrite get_messages_since_filter, Hw. simpl.
      rewrite !(proj2 (not_before_false _ _));
        [done | rewrite DatetimeFacts.instant_assume_utc_add; lia ..].
Qed.

End MessageBufferFacts.

(** ** The metrics aggregator *)

Module MetricsCalculatorFacts.

Import Datetime MessageBuffer MetricsCalculator.

Lemma filter_length_mono {A} (f g : A -> bool) (l : list A) :
  (forall x, f x = true -> g x = true) ->
  (length (List.filter f l) <= length (List.filter g l))%nat.
Proof.
  intros Hfg. induction l as [|x l IH]; simpl; [lia|].
  destruct (f x) eqn:Hf.
  - rewrite (Hfg x Hf). simpl. lia.
  - destruct (g x); simpl; lia.
Qed.

(** A longer horizon selects at least the events of a shorter one. *)
Lemma horizon_mono buffer channel now (s1 s2 : Z) :
  s1 <= s2 ->
  (length (_get_messages_in_window buffer channel now s1)
   <= length (_get_messages_in_window buffer channel now s2))%nat.
Proof.
  intros Hle. unfold _get_messages_in_window.
  rewrite !MessageBufferFacts.get_messages_since_filter.
  apply filter_length_mono. intros m.
  rewrite !MessageBufferFacts.not_before_true.
  rewrite !DatetimeFacts.instant_assume_utc_sub. unfold seconds. lia.
Qed.

(** C8 (horizons).  On one buffer state and one reading [now] of the clock,
    the 60-second horizon holds at least as many events as the 1-second
    horizon, and the 300-second horizon at least as many as the 60-second
    one; the metrics snapshot reports the first two counts as
    [messages_per_second] and [messages_last_minute]. *)
Theorem horizon_counts_monotonic (buffer : MessageBuffer.t) (channel : string) (now : Z) :
  let t := aware_utc now in
  let count_1s := length (_get_messages_in_window buffer channel t 1) in
  let count_60s := length (_get_messages_in_window buffer channel t 60) in
  let count_300s := length (_get_messages_in_window buffer channel t 300) in
  let metrics := calculate_metrics buffer channel now in
  (count_1s <= count_60s)%nat
  /\ (count_60s <= count_300s)%nat
  /\ ChannelMetrics.messages_per_second metrics = Num.of_nat count_1s
  /\ ChannelMetrics.messages_last_minute metrics = count_60s
  /\ (ChannelMetrics.messages_per_second metrics
      <= Num.of_nat (ChannelMetrics.messages_last_minute metrics))%Qc.
Proof.
  intros t c1 c60 c300 metrics.
  assert (H1 : (c1 <= c60)%nat) by (apply horizon_mono; lia).
  assert (H2 : (c60 <= c300)%nat) by (apply horizon_mono; lia).
  repeat split; try done.
  subst metrics. unfold calculate_metrics, Num.of_nat.
  cbn [ChannelMetrics.messages_per_second ChannelMetrics.messages_last_minute].
  apply (proj1 (Z2Qc_inj_le _ _)), Nat2Z.inj_le. exact H1.
Qed.

(** *** Counter *)

Lemma eqb_string_true (a b : string) : String.eqb a b = true <-> a = b.
Proof. apply String.eqb_eq. Qed.

Lemma Counter_snoc l e : Counter (l ++ [e]) = counter_add e (Counter l).
Proof. unfold Counter. by rewrite fold_left_app. Qed.

Lemma counter_add_fresh e (c : list (string * nat)) :
  e ∉ c.*1 -> counter_add e c = c ++ [(e, 1%nat)].
Proof.
  induction c as [|[k n] c IH]; csimpl; intros Hnot; [done|].
  apply not_elem_of_cons in Hnot as [Hne Hnot].
  destruct (String.eqb k e) eqn:Hke.
  - apply eqb_string_true in Hke. congruence.
  - by rewrite IH.
Qed.

Lemma counter_add_keys_known e (c : list (string * nat)) :
  e ∈ c.*1 -> (counter_add e c).*1 = c.*1.
Proof.
  induction c as [|[k n] c IH]; csimpl; intros Hin; [by apply elem_of_nil in Hin|].
  destruct (String.eqb k e) eqn:Hke; csimpl; [done|].
  apply String.eqb_neq in Hke.
  apply elem_of_cons in Hin as [Heq|Hin]; [congruence|].
  by rewrite IH.
Qed.

(** Where an entry of the updated counter comes from: an untouched entry of
    another token, the incremented entry of [e], or the new entry of [e]. *)
Lemma counter_add_entry e (c : list (string * nat)) k n :
  NoDup c.*1 ->
  (k, n) ∈ counter_add e c ->
  (k <> e /\ (k, n) ∈ c)
  \/ (k = e /\ exists n', n = S n' /\ (k, n') ∈ c)
  \/ (k = e /\ n = 1%nat /\ e ∉ c.*1).
Proof.
  induction c as [|[k0 n0] c IH]; csimpl; intros Hnd Hin.
  - apply list_elem_of_singleton in Hin. inversion Hin; subst.
    right; right. repeat split; [apply not_elem_of_nil].
  - apply NoDup_cons in Hnd as [Hk0 Hnd].
    destruct (String.eqb k0 e) eqn:Hke.
    + apply eqb_string_true in Hke. subst k0.
      apply elem_of_cons in Hin as [Heq|Hin].
      * inversion Heq; subst. right; left. split; [done|].
        exists n0. split; [done | apply elem_of_cons; by left].
      * destruct (decide (k = e)) as [->|Hne].
        -- exfalso. apply Hk0. apply (list_elem_of_fmap_2 fst) in Hin. exact Hin.
        -- left. split; [done | apply elem_of_cons; by right].
    + apply String.eqb_neq in Hke.
      apply elem_of_cons in Hin as [Heq|Hin].
      * inversion Heq; subst. left. split; [done | apply elem_of_cons; by left].
      * destruct (IH Hnd Hin) as [[Hne Hc]|[[-> (n' & -> & Hc)]|(-> & -> & Hnot)]].
        -- left. split; [done | apply elem_of_cons; by right].
        -- right; left. split; [done|]. exists n'. split; [done | apply elem_of_cons; by right].
        -- right; right. repeat split. apply not_elem_of_cons. by split.
Qed.

(** *** First occurrences and counts *)

Lemma first_seen_lt e l : e ∈ l -> (first_seen e l < length l)%nat.
Proof.
  induction l as [|x l IH]; simpl; intros Hin; [by apply elem_of_nil in Hin|].
  destruct (String.eqb x e) eqn:Hxe; [lia|].
  apply String.eqb_neq in Hxe.
  apply elem_of_cons in Hin as [Heq|Hin]; [congruence|].
  specialize (IH Hin). lia.
Qed.

Lemma first_seen_app_l e l k : e ∈ l -> first_seen e (l ++ k) = first_seen e l.
Proof.
  induction l as [|x l IH]; simpl; intros Hin; [by apply elem_of_nil in Hin|].
  destruct (String.eqb x e) eqn:Hxe; [done|].
  apply String.eqb_neq in Hxe.
  apply elem_of_cons in Hin as [Heq|Hin]; [congruence|].
  by rewrite IH.
Qed.

Lemma first_seen_snoc_fresh e l : e ∉ l -> first_seen e (l ++ [e]) = length l.
Proof.
  induction l as [|x l IH]; simpl; intros Hnot.
  - by rewrite String.eqb_refl.
  - apply not_elem_of_cons in Hnot as [Hne Hnot].
    destruct (String.eqb x e) eqn:Hxe.
    + apply eqb_string_true in Hxe. congruence.
    + by rewrite IH.
Qed.

Lemma occurrences_snoc l e k :
  occurrences (l ++ [e]) k = (occurrences l k + if decide (k = e) then 1 else 0)%nat.
Proof.
  unfold occurrences. rewrite count_occ_app. simpl.
  destruct (string_dec e k), (decide (k = e)); congruence.
Qed.

Lemma occurrences_fresh l k : k ∉ l -> occurrences l k = 0%nat.
Proof. intros Hnot. apply count_occ_not_In. by rewrite <- list_elem_of_In. Qed.

Lemma occurrences_pos l k : k ∈ l -> (0 < occurrences l k)%nat.
Proof. intros Hin. apply count_occ_In. by rewrite <- list_elem_of_In. Qed.

Lemma StronglySorted_change {A} (R R' : A -> A -> Prop) (l : list A) :
  (forall a b, a ∈ l -> b ∈ l -> R a b -> R' a b) ->
  StronglySorted R l -> StronglySorted R' l.
Proof.
  induction l as [|x l IH]; intros Himp Hs; [constructor|].
  apply StronglySorted_cons in Hs as [Hx Hs]. apply StronglySorted_cons. split.
  - rewrite Forall_forall in *. intros y Hy. apply Himp.
    + apply elem_of_cons; by left.
    + apply elem_of_cons; by right.
    + by apply Hx.
  - apply IH; [|done]. intros a b Ha Hb. apply Himp; apply elem_of_cons; by right.
Qed.

(** The counter of a token list: one entry per distinct token, in the order
    the tokens first occur, each with its number of occurrences. *)
Lemma Counter_spec l :
  NoDup (Counter l).*1
  /\ (forall k, k ∈ (Counter l).*1 <-> k ∈ l)
  /\ Forall (fun kn => kn.2 = occurrences l kn.1) (Counter l)
  /\ StronglySorted (fun a b => (first_seen a l < first_seen b l)%nat) (Counter l).*1.
Proof.
  induction l as [|e l (Hnd & Hkeys & Hcnt & Hord)] using rev_ind.
  - repeat split; try constructor; by intros ?%elem_of_nil.
  - rewrite Counter_snoc.
    assert (Hcnt' : Forall (fun kn => kn.2 = occurrences (l ++ [e]) kn.1)
                      (counter_add e (Counter l))).
    { rewrite Forall_forall in *. intros [k n] Hin. simpl.
      rewrite occurrences_snoc.
      destruct (counter_add_entry e _ k n Hnd Hin)
        as [[Hne Hc]|[[-> (n' & -> & Hc)]|(-> & -> & Hnot)]].
      - rewrite decide_False by done. specialize (Hcnt _ Hc). simpl in Hcnt. lia.
      - rewrite decide_True by done. specialize (Hcnt _ Hc). simpl in Hcnt. lia.
      - rewrite decide_True by done. rewrite occurrences_fresh; [done|].
        by rewrite <- Hkeys. }
    assert (Hold : StronglySorted
              (fun a b => (first_seen a (l ++ [e]) < first_seen b (l ++ [e]))%nat)
              (Counter l).*1).
    { eapply StronglySorted_change; [|exact Hord].
      intros a b Ha Hb. rewrite !first_seen_app_l by (by apply Hkeys). done. }
    destruct (decide (e ∈ (Counter l).*1)) as [Hin|Hnot].
    + rewrite counter_add_keys_known by done.
      repeat split; try done.
      * intros Hk. apply elem_of_app. left. by apply Hkeys.
      * intros Hk. apply elem_of_app in Hk as [Hk|Hk]; [by apply Hkeys|].
        apply list_elem_of_singleton in Hk. by subst.
    + rewrite counter_add_fresh in * by done. rewrite fmap_app. csimpl.
      repeat split; try done.
      * apply NoDup_app. repeat split; [done| |apply NoDup_singleton].
        intros x Hx Hx'. apply list_elem_of_singleton in Hx'. by subst.
      * intros Hk. apply elem_of_app in Hk as [Hk|Hk];
          apply elem_of_app; [left; by apply Hkeys | by right].
      * intros Hk. apply elem_of_app in Hk as [Hk|Hk];
          apply elem_of_app; [left; by apply Hkeys | by right].
      * apply StronglySorted_app. repeat split; [|done|repeat constructor].
        intros a b Ha Hb. apply list_elem_of_singleton in Hb. subst b.
        rewrite first_seen_app_l by (by apply Hkeys).
        rewrite first_seen_snoc_fresh by (by rewrite <- Hkeys).
        apply first_seen_lt. by apply Hkeys.
Qed.

(** *** The stable sort *)

Lemma insert_desc_perm x s : insert_desc x s ≡ₚ x :: s.
Proof.
  induction s as [|y s IH]; simpl; [done|].
  destruct (snd y <=? snd x)%nat; [done|].
  rewrite IH. apply Permutation_swap.
Qed.

Lemma sorted_desc_perm l : sorted_desc l ≡ₚ l.
Proof.
  induction l as [|x l IH]; simpl; [done|].
  by rewrite insert_desc_perm, IH.
Qed.

(** An entry seen before every entry of a ranked list is inserted at its
    rank. *)
Lemma insert_desc_sorted all x s :
  StronglySorted (precedes all) s ->
  Forall (fun y => (first_seen (fst x) all < first_seen (fst y) all)%nat) s ->
  StronglySorted (precedes all) (insert_desc x s).
Proof.
  induction s as [|y s IH]; simpl; intros Hs Hx.
  - repeat constructor.
  - apply StronglySorted_cons in Hs as [Hy Hs].
    apply Forall_cons in Hx as [Hxy Hx].
    destruct (Nat.leb_spec (snd y) (snd x)) as [Hle|Hgt].
    + apply StronglySorted_cons. split; [|by apply StronglySorted_cons].
      apply Forall_cons. split.
      * unfold precedes. lia.
      * rewrite Forall_forall in *. intros z Hz.
        specialize (Hy z Hz). specialize (Hx z Hz). unfold precedes in *. lia.
    + apply StronglySorted_cons. split; [|by apply IH].
      rewrite insert_desc_perm. apply Forall_cons. split; [|done].
      unfold precedes. lia.
Qed.

Lemma sorted_desc_sorted all (c : list (string * nat)) :
  StronglySorted (fun a b => (first_seen (fst a) all < first_seen (fst b) all)%nat) c ->
  StronglySorted (precedes all) (sorted_desc c).
Proof.
  induction c as [|x c IH]; simpl; intros Hc; [constructor|].
  apply StronglySorted_cons in Hc as [Hx Hc].
  apply insert_desc_sorted; [by apply IH|].
  by rewrite sorted_desc_perm.
Qed.

Lemma StronglySorted_fmap {A B} (f : A -> B) (R : B -> B -> Prop) (l : list A) :
  StronglySorted R (f <$> l) <-> StronglySorted (fun a b => R (f a) (f b)) l.
Proof.
  induction l as [|x l IH]; csimpl; [split; constructor|].
  rewrite !StronglySorted_cons, IH, Forall_fmap. done.
Qed.

(** C9 (top emotes).  Let [all] be the emote tokens of the given messages,
    in message order.  [_get_top_emotes] returns at most [limit] entries
    (all the distinct tokens when there are fewer), one per token, each
    token with its number of occurrences in [all]; the entries are in
    ranking order, a higher count first and, among equal counts, the token
    first seen earlier first; and every token left out ranks after every
    token returned.  [calculate_metrics] calls it with limit 10 on the
    messages of the 300-second horizon. *)
Theorem top_emotes_ranking (messages : list ChatMessage.t) (limit : nat) :
  let all := flat_map ChatMessage.emotes messages in
  let top := _get_top_emotes messages limit in
  length top = (limit `min` length (remove_dups all))%nat
  /\ NoDup top.*1
  /\ Forall (fun en => en.1 ∈ all /\ en.2 = occurrences all en.1) top
  /\ StronglySorted (fun a b => outranks all a.1 b.1) top
  /\ (forall e, e ∈ all -> e ∉ top.*1 -> Forall (fun r => outranks all r.1 e) top)
  /\ (forall buffer channel now,
        ChannelMetrics.top_emotes (calculate_metrics buffer channel now) =
        _get_top_emotes (_get_messages_in_window buffer channel (aware_utc now) 300) 10).
Proof.
  intros all top. subst top. unfold _get_top_emotes, most_common. fold all.
  destruct (Counter_spec all) as (Hnd & Hkeys & Hcnt & Hord).
  set (c := Counter all) in *. set (s := sorted_desc c).
  assert (Hperm : s ≡ₚ c) by apply sorted_desc_perm.
  assert (Hcnt_s : Forall (fun kn => kn.2 = occurrences all kn.1) s) by by rewrite Hperm.
  assert (Hs : StronglySorted (fun a b => outranks all a.1 b.1) s).
  { apply StronglySorted_change with (R := precedes all).
    - rewrite Forall_forall in Hcnt_s. intros a b Ha Hb.
      unfold precedes, outranks. rewrite <- (Hcnt_s a Ha), <- (Hcnt_s b Hb). done.
    - apply sorted_desc_sorted.
      exact (proj1 (StronglySorted_fmap fst
               (fun a b => (first_seen a all < first_seen b all)%nat) c) Hord). }
  assert (Hnd_s : NoDup s.*1) by by rewrite Hperm.
  rewrite <- (take_drop limit s) in Hs, Hnd_s.
  apply StronglySorted_app in Hs as (Hcross & Hs & _).
  rewrite fmap_app in Hnd_s. apply NoDup_app in Hnd_s as (Hnd_top & Hdisj & _).
  repeat split.
  - rewrite length_take. f_equal. rewrite Hperm, <- (length_fmap fst c).
    apply Permutation_length, NoDup_Permutation;
      [done | apply NoDup_remove_dups|].
    intros k. by rewrite Hkeys, elem_of_remove_dups.
  - done.
  - apply Forall_forall. intros en Hen. apply elem_of_take in Hen as (i & Hen & _).
    apply list_elem_of_lookup_2 in Hen. split.
    + apply Hkeys. rewrite <- Hperm. by apply list_elem_of_fmap_2.
    + rewrite Forall_forall in Hcnt_s. by apply Hcnt_s.
  - done.
  - intros e He Hnot. apply Forall_forall. intros r Hr.
    assert (He_s : e ∈ s.*1) by (rewrite Hperm; by apply Hkeys).
    rewrite <- (take_drop limit s), fmap_app in He_s.
    apply elem_of_app in He_s as [He_s|He_s]; [done|].
    apply list_elem_of_fmap in He_s as (en & -> & Hen).
    by apply Hcross.
Qed.

End MetricsCalculatorFacts.

(** ** Numbers and statistics *)

Module NumFacts.

Lemma total_seconds_lt (delta c : Z) :
  (Num.total_seconds delta < Num.of_Z c)%Qc <-> delta < c * 1000000.
Proof.
  unfold Num.total_seconds, Num.of_Z.
  assert (Hpos : (0 < Qc_of_Z 1000000)%Qc).
  { rewrite <- Z2Qc_inj_0. by apply Z2Qc_inj_lt. }
  rewrite (Qcmult_lt_mono_pos_r _ _ (Qc_of_Z 1000000)) by done.
  unfold Qcdiv. rewrite <- Qcmult_assoc, Qcmult_inv_l, Qcmult_1_r
    by (apply not_eq_sym, Qclt_not_eq, Hpos).
  rewrite <- Z2Qc_inj_mul. symmetry. apply Z2Qc_inj_lt.
Qed.

(** Division by a positive mean does not raise. *)
Lemma div_pos x y : (0 < y)%Qc -> Num.div x y = Py.Ok (x / y)%Qc.
Proof.
  intros Hy. unfold Num.div. rewrite decide_False; [done|].
  apply not_eq_sym, Qclt_not_eq, Hy.
Qed.

(** [round(0.1, 2)] is 0.1. *)
Lemma round_tenth : Num.round (Q2Qc (1 # 10)) 2 = Q2Qc (1 # 10).
Proof. apply Qc_is_canon. by vm_compute. Qed.

End NumFacts.

Module StatisticsFacts.

Import Statistics.

Lemma of_nat_S n : Num.of_nat (S n) = (Num.of_nat n + 1)%Qc.
Proof.
  unfold Num.of_nat. rewrite Nat2Z.inj_succ, <- Z.add_1_r, Z2Qc_inj_add.
  by rewrite Z2Qc_inj_1.
Qed.

Lemma of_nat_pos n : (0 < n)%nat -> (0 < Num.of_nat n)%Qc.
Proof.
  intros Hn. unfold Num.of_nat. rewrite <- Z2Qc_inj_0.
  apply (proj1 (Z2Qc_inj_lt _ _)). lia.
Qed.

Lemma fsum_constant c data :
  Forall (fun x => x = c) data -> fsum data = (Num.of_nat (length data) * c)%Qc.
Proof.
  induction 1 as [|x data -> _ IH]; simpl fsum; simpl length.
  - change (Num.of_nat 0) with (Qc_of_Z 0). rewrite Z2Qc_inj_0. ring.
  - rewrite IH, of_nat_S. ring.
Qed.

Lemma fsum_zero data : Forall (fun x => x = 0%Qc) data -> fsum data = 0%Qc.
Proof. intros H. rewrite (fsum_constant 0%Qc) by done. ring. Qed.

(** Identical samples: the mean is their value and the variance is zero. *)
Lemma mean_constant c data :
  data <> [] -> Forall (fun x => x = c) data -> mean data = Py.Ok c.
Proof.
  intros Hne Hc. destruct data as [|x data]; [done|].
  unfold mean. rewrite (fsum_constant c) by done. f_equal.
  rewrite Qcmult_comm. apply Qcdiv_mult_l.
  apply not_eq_sym, Qclt_not_eq, of_nat_pos. simpl. lia.
Qed.

Lemma variance_constant c data :
  (2 <= length data)%nat -> Forall (fun x => x = c) data -> variance data = Py.Ok 0%Qc.
Proof.
  intros Hlen Hc. unfold variance.
  destruct (Nat.ltb_spec (length data) 2) as [Hlt|_]; [lia|]. f_equal.
  rewrite fsum_zero; [unfold Qcdiv; ring|].
  rewrite Forall_forall in Hc. apply Forall_forall. intros y Hy.
  apply list_elem_of_fmap in Hy as (x & -> & Hx). rewrite (Hc x Hx).
  rewrite (fsum_constant c) by (by apply Forall_forall).
  rewrite (Qcmult_comm _ c), Qcdiv_mult_l; [ring|].
  apply not_eq_sym, Qclt_not_eq, of_nat_pos. lia.
Qed.

End StatisticsFacts.

(** ** The burst detector *)

Module HypeDetectorFacts.

Import Deque HypeDetector.

Lemma in_cooldown_before self channel now last :
  _last_hype self !! channel = Some last ->
  now < last + Datetime.seconds (cooldown_seconds self) ->
  in_cooldown self channel now = true.
Proof.
  intros Hlast Hnow. unfold in_cooldown. rewrite Hlast.
  apply bool_decide_eq_true_2, NumFacts.total_seconds_lt.
  unfold Datetime.seconds in Hnow. lia.
Qed.

Lemma in_cooldown_after self channel now last :
  _last_hype self !! channel = Some last ->
  last + Datetime.seconds (cooldown_seconds self) <= now ->
  in_cooldown self channel now = false.
Proof.
  intros Hlast Hnow. unfold in_cooldown. rewrite Hlast.
  apply bool_decide_eq_false_2. rewrite NumFacts.total_seconds_lt.
  unfold Datetime.seconds in Hnow. lia.
Qed.

Lemma in_cooldown_never self channel now :
  _last_hype self !! channel = None -> in_cooldown self channel now = false.
Proof. intros Hlast. unfold in_cooldown. by rewrite Hlast. Qed.

(** [record_velocity] touches the velocity windows only. *)
Lemma record_velocity_last_hype self channel velocity now :
  _last_hype (record_velocity self channel velocity now) = _last_hype self
  /\ cooldown_seconds (record_velocity self channel velocity now) = cooldown_seconds self.
Proof.
  unfold record_velocity.
  destruct (_velocity_windows self !! channel); simpl.
  - by destruct (_ !! channel).
  - by rewrite lookup_insert_eq.
Qed.

Section Detector.

Variable sqrt : Qc -> Qc.

Lemma mean_raises data e : Statistics.mean data = Py.Raise e -> e = Py.StatisticsError.
Proof. destruct data; simpl; congruence. Qed.

Lemma stdev_raises data e :
  Statistics.stdev sqrt data = Py.Raise e -> e = Py.StatisticsError.
Proof.
  unfold Statistics.stdev, Statistics.variance.
  destruct (length data <? 2)%nat; congruence.
Qed.

(** The statistics step raises nothing: StatisticsError is caught. *)
Lemma baseline_ok velocities : exists r, baseline sqrt velocities = Py.Ok r.
Proof.
  unfold baseline.
  destruct (Statistics.mean velocities) as [mean|e] eqn:Hmean.
  - destruct (1 <? length velocities)%nat.
    + destruct (Statistics.stdev sqrt velocities) as [std|e] eqn:Hstd; [by eexists|].
      apply stdev_raises in Hstd. subst e. by eexists.
    + by eexists.
  - apply mean_raises in Hmean. subst e. by eexists.
Qed.

(** What [check_for_hype] does, by cases. *)
Lemma check_for_hype_cooldown self channel v emotes now :
  in_cooldown self channel now = true ->
  check_for_hype sqrt self channel v emotes now = (Py.Ok None, self).
Proof. intros Hcd. unfold check_for_hype. by rewrite Hcd. Qed.

Lemma check_for_hype_noise_floor self channel v emotes now :
  (v < min_velocity self)%Qc ->
  check_for_hype sqrt self channel v emotes now = (Py.Ok None, self).
Proof.
  intros Hv. unfold check_for_hype.
  destruct (in_cooldown self channel now); [done|].
  by rewrite decide_True.
Qed.

Lemma check_for_hype_no_threshold self channel v emotes now :
  threshold_of sqrt self channel = None ->
  check_for_hype sqrt self channel v emotes now = (Py.Ok None, self).
Proof.
  unfold threshold_of, check_for_hype. intros Hth.
  destruct (in_cooldown self channel now); [done|].
  destruct (decide (v < min_velocity self)%Qc); [done|].
  destruct (_velocity_windows self !! channel) as [window|]; [|done].
  destruct (length (items window) <? 10)%nat; [done|].
  destruct (baseline_ok (map snd (items window))) as [[[mean std]|] Hb];
    rewrite Hb in *; [done | done].
Qed.

Lemma check_for_hype_below self channel v emotes now th :
  threshold_of sqrt self channel = Some th -> (v <= th)%Qc ->
  check_for_hype sqrt self channel v emotes now = (Py.Ok None, self).
Proof.
  unfold threshold_of, check_for_hype. intros Hth Hv.
  destruct (in_cooldown self channel now); [done|].
  destruct (decide (v < min_velocity self)%Qc); [done|].
  destruct (_velocity_windows self !! channel) as [window|]; [|done].
  destruct (length (items window) <? 10)%nat; [done|].
  destruct (baseline sqrt (map snd (items window))) as [[[mean std]|]|e]; try done.
  injection Hth as <-. rewrite decide_False; [done|]. by apply Qcle_not_lt.
Qed.

Lemma check_for_hype_above self channel v emotes now th :
  in_cooldown self channel now = false ->
  (min_velocity self <= v)%Qc ->
  threshold_of sqrt self channel = Some th -> (th < v)%Qc ->
  exists ev,
    check_for_hype sqrt self channel v emotes now =
      (Py.Ok (Some ev), set_last_hype self (<[channel := now]> (_last_hype self)))
    /\ HypeEvent.channel ev = channel
    /\ HypeEvent.timestamp ev = Datetime.naive now
    /\ HypeEvent.velocity ev = v
    /\ HypeEvent.top_emotes ev = or_empty emotes.
Proof.
  unfold threshold_of, check_for_hype. intros Hcd Hmin Hth Hv.
  rewrite Hcd. rewrite decide_False by (by apply Qcle_not_lt).
  destruct (_velocity_windows self !! channel) as [window|]; [|done].
  destruct (length (items window) <? 10)%nat; [done|].
  destruct (baseline sqrt (map snd (items window))) as [[[mean std]|]|e]; try done.
  injection Hth as <-. rewrite decide_True by done.
  destruct (decide (0 < mean)%Qc) as [Hpos|Hnpos].
  - rewrite NumFacts.div_pos by done. by eexists.
  - by eexists.
Qed.

(** No call raises: StatisticsError is caught, and the division is made
    by a positive mean only. *)
Lemma check_for_hype_total self channel v emotes now :
  exists r, fst (check_for_hype sqrt self channel v emotes now) = Py.Ok r.
Proof.
  unfold check_for_hype.
  destruct (in_cooldown self channel now); [by eexists|].
  destruct (decide (v < min_velocity self)%Qc); [by eexists|].
  destruct (_velocity_windows self !! channel) as [window|]; [|by eexists].
  destruct (length (items window) <? 10)%nat; [by eexists|].
  destruct (baseline_ok (map snd (items window))) as [[[mean std]|] ->];
    [|by eexists].
  destruct (decide (_ < v)%Qc); [|by eexists].
  destruct (decide (0 < mean)%Qc) as [Hpos|Hnpos]; [|by eexists].
  rewrite NumFacts.div_pos by done. by eexists.
Qed.

(** The detector after a call: as before when no event is returned, and
    with [now] as the channel's last burst time when one is. *)
Lemma check_for_hype_state self channel v emotes now :
  match fst (check_for_hype sqrt self channel v emotes now) with
  | Py.Ok (Some ev) =>
      snd (check_for_hype sqrt self channel v emotes now) =
      set_last_hype self (<[channel := now]> (_last_hype self))
  | _ => snd (check_for_hype sqrt self channel v emotes now) = self
  end.
Proof.
  unfold check_for_hype.
  destruct (in_cooldown self channel now); [done|].
  destruct (decide (v < min_velocity self)%Qc); [done|].
  destruct (_velocity_windows self !! channel) as [window|]; [|done].
  destruct (length (items window) <? 10)%nat; [done|].
  destruct (baseline sqrt (map snd (items window))) as [[[mean std]|]|e]; try done.
  destruct (decide (_ < v)%Qc); [|done].
  destruct (decide (0 < mean)%Qc); [|done].
  by destruct (Num.div v mean).
Qed.

(** C5 (cooldown gate).  Let the detector, with a cooldown of 30 seconds,
    return a burst event for [channel] at time [T].  The detector then
    holds [T] as the channel's last burst time, and recording velocities
    does not change it.  On any detector that holds it, whatever its
    velocity windows: a call for the channel at a time before [T + 30s]
    returns none for every velocity; a call at [T + 31s] passes the cooldown
    test, and returns an event when the velocity is at least the minimum
    and above the channel's threshold. *)
Theorem cooldown_gate (self self' : HypeDetector.t) (channel : string) (v : Qc)
    (emotes : option (list (string * nat))) (T : Z) (ev : HypeEvent.t) :
  cooldown_seconds self = 30 ->
  check_for_hype sqrt self channel v emotes T = (Py.Ok (Some ev), self') ->
  (cooldown_seconds self' = 30 /\ _last_hype self' !! channel = Some T)
  /\ (forall d c' v' t',
        cooldown_seconds d = 30 -> _last_hype d !! channel = Some T ->
        cooldown_seconds (record_velocity d c' v' t') = 30
        /\ _last_hype (record_velocity d c' v' t') !! channel = Some T)
  /\ (forall d v' emotes' now,
        cooldown_seconds d = 30 -> _last_hype d !! channel = Some T ->
        now < T + Datetime.seconds 30 ->
        check_for_hype sqrt d channel v' emotes' now = (Py.Ok None, d))
  /\ (forall d v' emotes' th,
        cooldown_seconds d = 30 -> _last_hype d !! channel = Some T ->
        let now := T + Datetime.seconds 31 in
        in_cooldown d channel now = false
        /\ ((min_velocity d <= v')%Qc ->
            threshold_of sqrt d channel = Some th -> (th < v')%Qc ->
            exists ev',
              check_for_hype sqrt d channel v' emotes' now =
              (Py.Ok (Some ev'), set_last_hype d (<[channel := now]> (_last_hype d))))).
Proof.
  intros Hcd Hfire.
  pose proof (check_for_hype_state self channel v emotes T) as Hst.
  rewrite Hfire in Hst. simpl in Hst. subst self'.
  split; [split; [done | apply lookup_insert_eq]|].
  split.
  { intros d c' v' t' Hd HT.
    destruct (record_velocity_last_hype d c' v' t') as [-> ->]. done. }
  split.
  { intros d v' emotes' now Hd HT Hnow.
    apply check_for_hype_cooldown, (in_cooldown_before _ _ _ T); [done|].
    by rewrite Hd. }
  intros d v' emotes' th Hd HT now.
  assert (Hopen : in_cooldown d channel now = false).
  { apply (in_cooldown_after _ _ _ T); [done|].
    subst now. rewrite Hd. unfold Datetime.seconds. lia. }
  split; [done|]. intros Hmin Hth Hv.
  destruct (check_for_hype_above d channel v' emotes' now th Hopen Hmin Hth Hv)
    as (ev' & Hev' & _).
  by exists ev'.
Qed.

Lemma baseline_zero_std velocities mean :
  (10 <= length velocities)%nat ->
  Statistics.mean velocities = Py.Ok mean ->
  Statistics.stdev sqrt velocities = Py.Ok 0%Qc ->
  baseline sqrt velocities = Py.Ok (Some (mean, 0%Qc)).
Proof.
  intros Hlen Hmean Hstd. unfold baseline. rewrite Hmean.
  destruct (Nat.ltb_spec 1 (length velocities)) as [_|Hle]; [|lia].
  by rewrite Hstd.
Qed.

(** C6 (zero standard deviation).  Take a call of [check_for_hype] that
    reaches the statistics: the channel is not in cooldown and has at least
    ten retained samples.  The call raises nothing, so no division by zero.
    If the standard deviation of the retained velocities is exactly zero,
    the threshold is [mean + threshold_std * 0.1]: every velocity that is at
    least the minimum velocity and above that threshold yields an event,
    which reports 0.1 as the deviation, and no velocity at or below it does.
    Ten or more identical samples are such a case, with their value as the
    mean, as soon as the square root of zero is zero. *)
Theorem zero_std_epsilon (self : HypeDetector.t) (channel : string) (v : Qc)
    (emotes : option (list (string * nat))) (now : Z) (window : deque (Z * Qc)) :
  in_cooldown self channel now = false ->
  _velocity_windows self !! channel = Some window ->
  (10 <= length (items window))%nat ->
  let velocities := map snd (items window) in
  let call := check_for_hype sqrt self channel v emotes now in
  (exists r, fst call = Py.Ok r)
  /\ (forall mean,
        Statistics.mean velocities = Py.Ok mean ->
        Statistics.stdev sqrt velocities = Py.Ok 0%Qc ->
        let threshold := (mean + threshold_std self * Q2Qc (1 # 10))%Qc in
        threshold_of sqrt self channel = Some threshold
        /\ ((min_velocity self <= v)%Qc -> (threshold < v)%Qc ->
            exists ev,
              call = (Py.Ok (Some ev),
                      set_last_hype self (<[channel := now]> (_last_hype self)))
              /\ HypeEvent.velocity ev = v
              /\ HypeEvent.baseline_mean ev = Num.round mean 2
              /\ HypeEvent.baseline_std ev = Q2Qc (1 # 10))
        /\ ((v <= threshold)%Qc -> call = (Py.Ok None, self)))
  /\ (forall c,
        sqrt 0%Qc = 0%Qc -> Forall (fun x => x = c) velocities ->
        Statistics.mean velocities = Py.Ok c
        /\ Statistics.stdev sqrt velocities = Py.Ok 0%Qc).
Proof.
  intros Hcd Hwin Hlen velocities call.
  assert (Hlen' : (10 <= length velocities)%nat)
    by (subst velocities; by rewrite length_map).
  split; [apply check_for_hype_total|]. split.
  - intros mean Hmean Hstd threshold.
    pose proof (baseline_zero_std velocities mean Hlen' Hmean Hstd) as Hb.
    assert (Hth : threshold_of sqrt self channel = Some threshold).
    { unfold threshold_of. rewrite Hwin.
      destruct (Nat.ltb_spec (length (items window)) 10) as [Hlt|_]; [lia|].
      fold velocities. rewrite Hb. by rewrite decide_True. }
    split; [exact Hth|]. split.
    + intros Hmin Hv. subst call. unfold check_for_hype.
      rewrite Hcd, Hwin. rewrite decide_False by (by apply Qcle_not_lt).
      destruct (Nat.ltb_spec (length (items window)) 10) as [Hlt|_]; [lia|].
      fold velocities. rewrite Hb. cbv zeta.
      rewrite (decide_True (P := (0 = 0)%Qc)) by done.
      fold threshold. rewrite decide_True by done.
      destruct (decide (0 < mean)%Qc) as [Hpos|Hnpos].
      * rewrite NumFacts.div_pos by done. eexists. split; [done|].
        split; [done|]. split; [done|]. apply NumFacts.round_tenth.
      * eexists. split; [done|].
        split; [done|]. split; [done|]. apply NumFacts.round_tenth.
    + intros Hv. by apply (check_for_hype_below _ _ _ _ _ threshold).
  - intros c Hsqrt Hc.
    split.
    + apply StatisticsFacts.mean_constant; [|done].
      intros Hnil. rewrite Hnil in Hlen'. simpl in Hlen'. lia.
    + unfold Statistics.stdev.
      rewrite (StatisticsFacts.variance_constant c) by (done || lia).
      by rewrite Hsqrt.
Qed.

(** C10 (frame).  A call of [check_for_hype] that returns none leaves the
    detector exactly as it was, velocity windows and last burst times
    included; that is the outcome in cooldown, below the minimum velocity,
    with fewer than ten samples, and at or below the threshold.  A call that
    returns an event changes one thing: the last burst time of its channel
    becomes [now]. *)
Theorem check_for_hype_frame (self : HypeDetector.t) (channel : string) (v : Qc)
    (emotes : option (list (string * nat))) (now : Z) :
  let call := check_for_hype sqrt self channel v emotes now in
  (fst call = Py.Ok None -> snd call = self)
  /\ (forall ev, fst call = Py.Ok (Some ev) ->
        snd call = set_last_hype self (<[channel := now]> (_last_hype self))
        /\ _velocity_windows (snd call) = _velocity_windows self
        /\ _last_hype (snd call) !! channel = Some now
        /\ forall c, c <> channel -> _last_hype (snd call) !! c = _last_hype self !! c)
  /\ (in_cooldown self channel now = true -> call = (Py.Ok None, self))
  /\ ((v < min_velocity self)%Qc -> call = (Py.Ok None, self))
  /\ ((forall window, _velocity_windows self !! channel = Some window ->
         (length (items window) < 10)%nat) -> call = (Py.Ok None, self))
  /\ (forall th, threshold_of sqrt self channel = Some th -> (v <= th)%Qc ->
        call = (Py.Ok None, self)).
Proof.
  intros call.
  pose proof (check_for_hype_state self channel v emotes now) as Hst.
  fold call in Hst.
  split; [intros Hnone; by rewrite Hnone in Hst|].
  split.
  { intros ev Hev. rewrite Hev in Hst. rewrite Hst. simpl.
    split; [done|]. split; [done|]. split; [apply lookup_insert_eq|].
    intros c Hc. by apply lookup_insert_ne. }
  split; [apply check_for_hype_cooldown|].
  split; [apply check_for_hype_noise_floor|].
  split; [|apply check_for_hype_below].
  intros Hfew. apply check_for_hype_no_threshold. unfold threshold_of.
  destruct (_velocity_windows self !! channel) as [window|]; [|done].
  destruct (Nat.ltb_spec (length (items window)) 10) as [_|Hge]; [done|].
  specialize (Hfew window eq_refl). lia.
Qed.

End Detector.

End HypeDetectorFacts.

(** ** The broadcast registries *)

Module WebsocketsFacts.

Import Websockets.

Lemma inbox_send_same ws message net :
  ws ∉ failing net ->
  send ws message net =
  (Py.Ok tt, mk_net (<[ws := inbox net ws ++ [message]]> (received net)) (failing net)).
Proof. intros Hok. unfold send. by rewrite decide_False. Qed.

(** The send loop over any duplicate-free list of connections: it raises
    nothing, every healthy connection of the list gets the message once,
    the failing ones are collected, and nobody else is touched. *)
Lemma send_each_spec connections message disconnected net :
  NoDup connections ->
  exists net',
    send_each connections message disconnected net =
      (Py.Ok (disconnected ∪ (list_to_set connections ∩ failing net)), net')
    /\ failing net' = failing net
    /\ forall ws,
        inbox net' ws =
        if decide (ws ∈ connections /\ ws ∉ failing net)
        then inbox net ws ++ [message] else inbox net ws.
Proof.
  revert disconnected net.
  induction connections as [|ws0 rest IH]; intros disconnected net Hnd.
  - exists net. cbn [send_each]. split; [f_equal; f_equal; set_solver|]. split; [done|].
    intros ws. case_decide as Hc; [|done]. destruct Hc as [Hin _].
    by apply elem_of_nil in Hin.
  - apply NoDup_cons in Hnd as [Hfresh Hnd]. cbn [send_each]. unfold send.
    destruct (decide (ws0 ∈ failing net)) as [Hfail|Hok]; cbn [Py.is_Exception].
    + destruct (IH ({[ws0]} ∪ disconnected) net Hnd) as (net' & -> & Hf & Hin).
      exists net'. split; [f_equal; f_equal; set_solver|]. split; [done|].
      intros ws. rewrite Hin.
      repeat case_decide; try done; exfalso; set_solver.
    + set (net1 := mk_net (<[ws0 := inbox net ws0 ++ [message]]> (received net)) (failing net)).
      destruct (IH disconnected net1 Hnd) as (net' & -> & Hf & Hin).
      exists net'. split; [f_equal; f_equal; set_solver|]. split; [done|].
      intros ws. rewrite Hin. cbn [failing].
      destruct (decide (ws = ws0)) as [->|Hne].
      * assert (Hnew : inbox net1 ws0 = inbox net ws0 ++ [message]).
        { unfold inbox at 1. simpl. by rewrite lookup_insert_eq. }
        rewrite Hnew.
        repeat case_decide; try done; exfalso; set_solver.
      * assert (Hsame : inbox net1 ws = inbox net ws).
        { unfold inbox. simpl. by rewrite lookup_insert_ne. }
        rewrite Hsame.
        repeat case_decide; try done; exfalso; set_solver.
Qed.

(** One broadcast: no exception; the registry loses exactly its failing
    connections; every registered connection that does not fail receives
    the message, once, after what it had; every other inbox is as before. *)
Lemma broadcast_spec self message net :
  exists net',
    broadcast self message net =
      (Py.Ok tt, mk_manager (active_connections self ∖ failing net), net')
    /\ failing net' = failing net
    /\ forall ws,
        inbox net' ws =
        if decide (ws ∈ active_connections self /\ ws ∉ failing net)
        then inbox net ws ++ [message] else inbox net ws.
Proof.
  unfold broadcast. destruct (decide (active_connections self = ∅)) as [Hempty|Hne].
  - exists net. split.
    + destruct self as [conns]. simpl in *. subst conns. do 3 f_equal. set_solver.
    + split; [done|]. intros ws. case_decide as Hc; [|done].
      rewrite Hempty in Hc. set_solver.
  - destruct (send_each_spec (elements (active_connections self)) message ∅ net
                (NoDup_elements _)) as (net' & -> & Hf & Hin).
    exists net'. split; [do 3 f_equal; set_solver|]. split; [done|].
    intros ws. rewrite Hin.
    repeat case_decide; try done; exfalso; set_solver.
Qed.

Lemma broadcast_isolated self message net :
  isolated_delivery self message net (broadcast self message net).
Proof.
  destruct (broadcast_spec self message net) as (net' & -> & Hf & Hin).
  unfold isolated_delivery. cbn [active_connections].
  split; [done|]. split; [done|].
  repeat split; try (rewrite Hin; case_decide); try done; set_solver.
Qed.

(** C7 (broadcast isolation).  For every registry, every state of the
    peers and every payload, [broadcast_metrics] and [broadcast_hype]
    deliver the payload to every registered connection whose send does not
    fail, whatever the other sends do, and remove from the registry exactly
    the connections whose send failed; the broadcast itself raises
    nothing. *)
Theorem broadcast_isolation (self : ConnectionManager) (net : Net)
    (metrics : ChannelMetrics.t) (event : HypeEvent.t) :
  isolated_delivery self (MetricsPayload metrics) net (broadcast_metrics self metrics net)
  /\ isolated_delivery self (HypePayload event) net (broadcast_hype self event net).
Proof. split; apply broadcast_isolated. Qed.

End WebsocketsFacts.

(** ** The orchestration loop *)

Module MainFacts.

Import Py Main.
Open Scope py_scope.

Lemma bind_ok {S A B} (m : M S A) (k : A -> M S B) s a s' :
  m s = (Ok a, s') -> bind m k s = k a s'.
Proof. intros H. unfold bind. by rewrite H. Qed.

Lemma bind_raise {S A B} (m : M S A) (k : A -> M S B) s e s' :
  m s = (Raise e, s') -> bind m k s = (Raise e, s').
Proof. intros H. unfold bind. by rewrite H. Qed.

Lemma raises_only_ret {S A} (P : exn -> Prop) (a : A) : raises_only P (@ret S A a).
Proof. intros s e s' H. unfold ret in H. congruence. Qed.

Lemma raises_only_effect {S} (P : exn -> Prop) (f : S -> S) : raises_only P (effect f).
Proof. intros s e s' H. unfold effect in H. congruence. Qed.

Lemma raises_only_bind {S A B} (P : exn -> Prop) (m : M S A) (k : A -> M S B) :
  raises_only P m -> (forall a, raises_only P (k a)) -> raises_only P (bind m k).
Proof.
  intros Hm Hk s e s' H. unfold bind in H.
  destruct (m s) as [[a|e0] s0] eqn:Hms.
  - by apply (Hk a s0 e s').
  - injection H as <- <-. by apply (Hm s e0 s0).
Qed.

Lemma raises_only_for_each {S A} (P : exn -> Prop) (l : list A) (body : A -> M S unit) :
  (forall x, raises_only P (body x)) -> raises_only P (for_each l body).
Proof.
  intros Hbody. induction l as [|x l IH]; simpl.
  - apply raises_only_ret.
  - apply raises_only_bind; [apply Hbody | intros _; apply IH].
Qed.

Lemma raises_only_try_except_Exception {S A} (P : exn -> Prop)
    (body : M S A) (handler : exn -> M S A) :
  (forall e, raises_only P (handler e)) ->
  raises_only (fun e => is_Exception e = false -> P e) body ->
  raises_only P (try_except_Exception body handler).
Proof.
  intros Hh Hb s e s' H. unfold try_except_Exception in H.
  destruct (body s) as [[a|e0] s0] eqn:Hbs; [congruence|].
  destruct (is_Exception e0) eqn:He0.
  - by apply (Hh e0 s0 e s').
  - injection H as <- <-. by apply (Hb s e0 s0).
Qed.

Lemma raises_only_weaken {S A} (P Q : exn -> Prop) (m : M S A) :
  (forall e, P e -> Q e) -> raises_only P m -> raises_only Q m.
Proof. intros HPQ Hm s e s' H. apply HPQ. by apply (Hm s e s'). Qed.

(** A loop over channels stops at the first channel that raises. *)
Lemma for_each_raise {S A} (body : A -> M S unit) pre c post s s1 s2 e :
  for_each pre body s = (Ok tt, s1) ->
  body c s1 = (Raise e, s2) ->
  for_each (pre ++ c :: post) body s = (Raise e, s2).
Proof.
  revert s. induction pre as [|x pre IH]; simpl; intros s Hpre Hc.
  - unfold ret in Hpre. injection Hpre as <-. by apply bind_raise.
  - unfold bind in *. destruct (body x s) as [[[]|e0] s0]; [|congruence].
    by apply IH.
Qed.

Lemma for_each_ok_app {S A} (body : A -> M S unit) l1 l2 s s1 :
  for_each l1 body s = (Ok tt, s1) ->
  for_each (l1 ++ l2) body s = for_each l2 body s1.
Proof.
  revert s. induction l1 as [|x l1 IH]; simpl; intros s H.
  - unfold ret in H. by injection H as <-.
  - unfold bind in *. destruct (body x s) as [[[]|e0] s0]; [|congruence].
    by apply IH.
Qed.

Section LoopFacts.

Context {World : Type}.
Variable channels_list : M World (list string).
Variable calculate_metrics : string -> M World ChannelMetrics.t.
Variable record_velocity : string -> Qc -> M World unit.
Variable check_for_hype :
  string -> Qc -> list (string * nat) -> M World (option HypeEvent.t).
Variable repo_create : HypeEvent.t -> M World unit.
Variable broadcast_hype : HypeEvent.t -> M World unit.
Variable broadcast_metrics : ChannelMetrics.t -> M World unit.
Variable sleep : Z -> M World unit.
Variable logger_info : string -> World -> World.
Variable logger_error : string -> World -> World.

Local Abbreviation save_and_broadcast :=
  (Main.save_and_broadcast repo_create broadcast_hype logger_error).
Local Abbreviation process_channel :=
  (Main.process_channel calculate_metrics record_velocity check_for_hype
     repo_create broadcast_hype broadcast_metrics logger_error).
Local Abbreviation iteration :=
  (Main.iteration channels_list calculate_metrics record_velocity check_for_hype
     repo_create broadcast_hype broadcast_metrics sleep logger_info logger_error).
Local Abbreviation while_true :=
  (Main.while_true channels_list calculate_metrics record_velocity check_for_hype
     repo_create broadcast_hype broadcast_metrics sleep logger_info logger_error).
Local Abbreviation broadcast_metrics_loop :=
  (Main.broadcast_metrics_loop channels_list calculate_metrics record_velocity
     check_for_hype repo_create broadcast_hype broadcast_metrics sleep
     logger_info logger_error).
Local Abbreviation nothing_cancelled :=
  (Main.nothing_cancelled channels_list calculate_metrics record_velocity
     check_for_hype repo_create broadcast_hype broadcast_metrics sleep).
Local Abbreviation sleep_raises_only_cancellation :=
  (Main.sleep_raises_only_cancellation sleep).

(** *** The save-and-broadcast step *)

Lemma save_raises ev w e w' :
  repo_create ev w = (Raise e, w') -> is_Exception e = true ->
  save_and_broadcast ev w =
  (Ok tt, logger_error ("Failed to save/broadcast hype event: " ++ str e) w').
Proof.
  intros Hsave He. unfold Main.save_and_broadcast, try_except_Exception.
  rewrite (bind_raise _ _ _ _ _ Hsave). by rewrite He.
Qed.

Lemma broadcast_raises ev w w' e w'' :
  repo_create ev w = (Ok tt, w') ->
  broadcast_hype ev w' = (Raise e, w'') -> is_Exception e = true ->
  save_and_broadcast ev w =
  (Ok tt, logger_error ("Failed to save/broadcast hype event: " ++ str e) w'').
Proof.
  intros Hsave Hb He. unfold Main.save_and_broadcast, try_except_Exception.
  rewrite (bind_ok _ _ _ _ _ Hsave), Hb. by rewrite He.
Qed.

Lemma save_then_broadcast ev w w' w'' :
  repo_create ev w = (Ok tt, w') -> broadcast_hype ev w' = (Ok tt, w'') ->
  save_and_broadcast ev w = (Ok tt, w'').
Proof.
  intros Hsave Hb. unfold Main.save_and_broadcast, try_except_Exception.
  by rewrite (bind_ok _ _ _ _ _ Hsave), Hb.
Qed.

(** The step lets nothing through but a cancellation. *)
Lemma save_and_broadcast_raises ev :
  raises_only (fun e => e = CancelledError) (save_and_broadcast ev).
Proof.
  intros w e w' H. unfold Main.save_and_broadcast, try_except_Exception in H.
  destruct (bind _ _ w) as [[[]|e0] w0]; [congruence|].
  destruct e0; cbn in H; try unfold effect in H; congruence.
Qed.

(** A channel up to the detector's answer. *)
Lemma process_channel_after_check c w metrics w1 w2 hype_event w3 :
  calculate_metrics c w = (Ok metrics, w1) ->
  record_velocity c (ChannelMetrics.messages_per_second metrics) w1 = (Ok tt, w2) ->
  check_for_hype c (ChannelMetrics.messages_per_second metrics)
    (ChannelMetrics.top_emotes metrics) w2 = (Ok hype_event, w3) ->
  process_channel c w =
  bind (match hype_event with
        | Some ev => save_and_broadcast ev
        | None => ret tt
        end)
       (fun _ => broadcast_metrics metrics) w3.
Proof.
  intros Hm Hr Hc. unfold Main.process_channel.
  rewrite (bind_ok _ _ _ _ _ Hm), (bind_ok _ _ _ _ _ Hr).
  by rewrite (bind_ok _ _ _ _ _ Hc).
Qed.

(** C2, as the code has it (save failure).  When the detector returns a
    hype event for a channel and saving it raises an exception, the error
    is logged and the step is over: the hype event is not broadcast to the
    burst subscribers.  The channel goes on with the broadcast of its
    metrics, from the world the failed save and the log line left. *)
Theorem save_failure_skips_hype_broadcast (c : string) (w w1 w2 w3 w4 : World)
    (metrics : ChannelMetrics.t) (ev : HypeEvent.t) (e : exn) :
  calculate_metrics c w = (Ok metrics, w1) ->
  record_velocity c (ChannelMetrics.messages_per_second metrics) w1 = (Ok tt, w2) ->
  check_for_hype c (ChannelMetrics.messages_per_second metrics)
    (ChannelMetrics.top_emotes metrics) w2 = (Ok (Some ev), w3) ->
  repo_create ev w3 = (Raise e, w4) ->
  is_Exception e = true ->
  let logged := logger_error ("Failed to save/broadcast hype event: " ++ str e) w4 in
  save_and_broadcast ev w3 = (Ok tt, logged)
  /\ process_channel c w = broadcast_metrics metrics logged.
Proof.
  intros Hm Hr Hc Hsave He logged.
  pose proof (save_raises ev w3 e w4 Hsave He) as Hstep.
  split; [exact Hstep|].
  rewrite (process_channel_after_check c w metrics w1 w2 (Some ev) w3 Hm Hr Hc).
  by rewrite (bind_ok _ _ _ _ _ Hstep).
Qed.

(** *** One pass of the loop *)

(** The pass when the channel loop raises an exception [e] in world [w2]. *)
Lemma iteration_exception w0 channels w w2 e :
  channels_list w0 = (Ok channels, w) ->
  for_each channels process_channel w = (Raise e, w2) ->
  is_Exception e = true ->
  iteration w0 =
  bind (sleep 1) (fun _ => ret Continue)
       (logger_error ("Error in metrics broadcast loop: " ++ str e) w2).
Proof.
  intros Hch Hfor He. unfold Main.iteration, try_except_Cancelled_Exception.
  rewrite (bind_ok _ _ _ _ _ Hch), (bind_raise _ _ _ _ _ Hfor).
  by destruct e.
Qed.

(** The pass when the channel loop is cancelled in world [w2]. *)
Lemma iteration_cancelled w0 channels w w2 :
  channels_list w0 = (Ok channels, w) ->
  for_each channels process_channel w = (Raise CancelledError, w2) ->
  iteration w0 = (Ok Break, logger_info "Metrics broadcast loop cancelled" w2).
Proof.
  intros Hch Hfor. unfold Main.iteration, try_except_Cancelled_Exception.
  by rewrite (bind_ok _ _ _ _ _ Hch), (bind_raise _ _ _ _ _ Hfor).
Qed.

(** The pass when the sleep that ends it is cancelled in world [w2]. *)
Lemma iteration_cancelled_asleep w0 channels w w1 w2 :
  channels_list w0 = (Ok channels, w) ->
  for_each channels process_channel w = (Ok tt, w1) ->
  sleep 1 w1 = (Raise CancelledError, w2) ->
  iteration w0 = (Ok Break, logger_info "Metrics broadcast loop cancelled" w2).
Proof.
  intros Hch Hfor Hsleep. unfold Main.iteration, try_except_Cancelled_Exception.
  rewrite (bind_ok _ _ _ _ _ Hch), (bind_ok _ _ _ _ _ Hfor).
  by rewrite (bind_raise _ _ _ _ _ Hsleep).
Qed.

(** A pass lets nothing out but a cancellation of the sleep in its
    exception handler. *)
Lemma iteration_raises :
  sleep_raises_only_cancellation ->
  raises_only (fun e => e = CancelledError) iteration.
Proof.
  intros Hsleep w e w' H. unfold Main.iteration, try_except_Cancelled_Exception in H.
  destruct (bind channels_list _ w) as [[f|e0] w0]; [congruence|].
  assert (Hhandler : forall msg, raises_only (fun e => e = CancelledError)
            (bind (effect (logger_error msg))
               (fun _ => bind (sleep 1) (fun _ => @ret World flow Continue)))).
  { intros msg. apply raises_only_bind; [apply raises_only_effect|].
    intros _. apply raises_only_bind; [apply Hsleep|]. intros _. apply raises_only_ret. }
  destruct e0; cbv iota in H; try exact (Hhandler _ w0 e w' H).
  cbv [bind effect ret] in H. congruence.
Qed.

Lemma while_true_raises fuel :
  sleep_raises_only_cancellation ->
  raises_only (fun e => e = CancelledError) (while_true fuel).
Proof.
  intros Hsleep. induction fuel as [|fuel IH]; simpl.
  - apply raises_only_ret.
  - apply raises_only_bind; [by apply iteration_raises|].
    intros [|]; [exact IH | apply raises_only_ret].
Qed.

Lemma save_and_broadcast_never_cancelled ev :
  never_cancelled (repo_create ev) -> never_cancelled (broadcast_hype ev) ->
  never_cancelled (save_and_broadcast ev).
Proof.
  intros Hsave Hb. unfold never_cancelled, Main.save_and_broadcast.
  apply raises_only_try_except_Exception.
  - intros e. apply raises_only_effect.
  - eapply raises_only_weaken; [|apply raises_only_bind; [exact Hsave | intros _; exact Hb]].
    intros e He _. exact He.
Qed.

Lemma process_channel_never_cancelled c :
  nothing_cancelled -> never_cancelled (process_channel c).
Proof.
  intros (_ & Hm & Hr & Hc & Hs & Hb & Hbm & _).
  unfold never_cancelled, Main.process_channel.
  apply raises_only_bind; [apply Hm|]. intros metrics.
  apply raises_only_bind; [apply Hr|]. intros _.
  apply raises_only_bind; [apply Hc|]. intros [ev|].
  - apply raises_only_bind; [by apply save_and_broadcast_never_cancelled|].
    intros _. apply Hbm.
  - apply raises_only_bind; [apply raises_only_ret|]. intros _. apply Hbm.
Qed.

(** Without a cancellation, every pass ends in [Continue]. *)
Lemma iteration_continues w :
  nothing_cancelled -> sleep_raises_only_cancellation ->
  exists w', iteration w = (Ok Continue, w').
Proof.
  intros Hnc Hsleep.
  assert (Hsl : forall w1, exists w2, sleep 1 w1 = (Ok tt, w2)).
  { intros w1. destruct (sleep 1 w1) as [[[]|e] w2] eqn:Hs; [by eexists|].
    pose proof (Hsleep 1 w1 e w2 Hs) as ->.
    destruct Hnc as (_ & _ & _ & _ & _ & _ & _ & Hn). by destruct (Hn 1 w1 _ w2 Hs). }
  assert (Hbody : never_cancelled
            (bind channels_list (fun channels =>
               bind (for_each channels process_channel) (fun _ =>
                 bind (sleep 1) (fun _ => @ret World flow Continue))))).
  { unfold never_cancelled. apply raises_only_bind; [apply Hnc|]. intros channels.
    apply raises_only_bind.
    - apply raises_only_for_each. intros c. by apply process_channel_never_cancelled.
    - intros _. apply raises_only_bind; [apply Hnc|]. intros _. apply raises_only_ret. }
  unfold Main.iteration, try_except_Cancelled_Exception.
  destruct (bind channels_list _ w) as [[f|e] w0] eqn:Hrun.
  - exists w0. f_equal. f_equal. unfold bind, ret in Hrun.
    destruct (channels_list w) as [[channels|?] wa]; [|congruence].
    destruct (for_each channels _ wa) as [[[]|?] wb]; [|congruence].
    destruct (sleep 1 wb) as [[[]|?] wc]; congruence.
  - assert (He : e <> CancelledError) by apply (Hbody w e w0 Hrun).
    destruct (Hsl (logger_error ("Error in metrics broadcast loop: " ++ str e) w0))
      as [w2 Hs2].
    exists w2. destruct e; try done; unfold bind, effect, ret; by rewrite Hs2.
Qed.

Lemma while_true_runs fuel w :
  nothing_cancelled -> sleep_raises_only_cancellation ->
  exists w', while_true fuel w = (Ok None, w').
Proof.
  intros Hnc Hsleep. revert w. induction fuel as [|fuel IH]; intros w; simpl.
  - by eexists.
  - destruct (iteration_continues w Hnc Hsleep) as [w1 Hw1].
    rewrite (bind_ok _ _ _ _ _ Hw1). apply IH.
Qed.

(** C1, as the code has it (failures and cancellation in the loop).

    - The save-and-broadcast step of a hype event has its own handler: an
      exception of the save or of the hype broadcast is logged there, the
      step is over, and nothing but a cancellation leaves it; so the
      channel goes on with its metrics broadcast and the later channels
      follow.
    - Any other exception raised while channel [c] is processed is handled
      once for the whole pass: it is logged, the channels after [c] are not
      processed in this pass, and after a sleep of one second the loop goes
      on with the next pass.
    - A cancellation that arrives while channel [c] is processed ends the
      loop there: the pass logs it and breaks, whatever was left of [c] and
      of the later channels.
    - Only a cancellation ends the loop: it never ends by another
      exception, and as long as nothing is cancelled it is still running
      after any number of passes. *)
Theorem loop_failure_handling :
  (forall ev, raises_only (fun e => e = CancelledError) (save_and_broadcast ev))
  /\ (forall ev w e w',
        repo_create ev w = (Raise e, w') -> is_Exception e = true ->
        save_and_broadcast ev w =
        (Ok tt, logger_error ("Failed to save/broadcast hype event: " ++ str e) w'))
  /\ (forall ev w w' e w'',
        repo_create ev w = (Ok tt, w') ->
        broadcast_hype ev w' = (Raise e, w'') -> is_Exception e = true ->
        save_and_broadcast ev w =
        (Ok tt, logger_error ("Failed to save/broadcast hype event: " ++ str e) w''))
  /\ (forall w0 pre c post w w1 w2 e,
        channels_list w0 = (Ok (pre ++ c :: post), w) ->
        for_each pre process_channel w = (Ok tt, w1) ->
        process_channel c w1 = (Raise e, w2) ->
        (is_Exception e = true ->
         iteration w0 =
         bind (sleep 1) (fun _ => ret Continue)
              (logger_error ("Error in metrics broadcast loop: " ++ str e) w2))
        /\ (e = CancelledError ->
            iteration w0 = (Ok Break, logger_info "Metrics broadcast loop cancelled" w2)
            /\ forall fuel,
                 while_true (S fuel) w0 =
                 (Ok (Some tt), logger_info "Metrics broadcast loop cancelled" w2)))
  /\ (sleep_raises_only_cancellation ->
      forall fuel, raises_only (fun e => e = CancelledError) (broadcast_metrics_loop fuel))
  /\ (nothing_cancelled -> sleep_raises_only_cancellation ->
      forall fuel w, exists w', broadcast_metrics_loop fuel w = (Ok None, w')).
Proof.
  split; [apply save_and_broadcast_raises|].
  split; [apply save_raises|].
  split; [apply broadcast_raises|].
  split.
  { intros w0 pre c post w w1 w2 e Hch Hpre Hc.
    pose proof (for_each_raise process_channel pre c post w w1 w2 e Hpre Hc) as Hfor.
    split.
    - intros He. exact (iteration_exception w0 _ w w2 e Hch Hfor He).
    - intros ->.
      pose proof (iteration_cancelled w0 _ w w2 Hch Hfor) as Hit.
      split; [exact Hit|]. intros fuel. simpl.
      by rewrite (bind_ok _ _ _ _ _ Hit). }
  split.
  { intros Hsleep fuel. unfold Main.broadcast_metrics_loop.
    apply raises_only_bind; [apply raises_only_effect|].
    intros _. by apply while_true_raises. }
  intros Hnc Hsleep fuel w. unfold Main.broadcast_metrics_loop, bind, effect.
  apply while_true_runs; done.
Qed.

End LoopFacts.

End MainFacts.

(** ** Runs of the loop on concrete data *)

Module SimFacts.

Import Py Websockets Main Sim.

(** C1 as stated fails, twice.  First run: channels [a] and [b], and
    computing the metrics of [a] raises.  The pass logs the error, sleeps
    and goes on, but [b] is not processed in it: its metrics are neither
    computed nor broadcast.  Second run: the save of a hype event of [a] is
    cancelled.  The loop breaks there, in the middle of [a]: the metrics of
    [a] are never broadcast. *)
Lemma remaining_channels_not_processed :
  (fst (Sim.iteration metrics_fail world0) = Ok Continue
   /\ calls (snd (Sim.iteration metrics_fail world0)) =
        [("calculate_metrics", "a"); ("sleep", "")]
   /\ ~ In ("calculate_metrics", "b") (calls (snd (Sim.iteration metrics_fail world0)))
   /\ ~ In ("broadcast_metrics", "b") (calls (snd (Sim.iteration metrics_fail world0)))
   /\ inbox (net (snd (Sim.iteration metrics_fail world0))) 1%nat = []
   /\ log (snd (Sim.iteration metrics_fail world0)) =
        ["ERROR Error in metrics broadcast loop: metrics failed"])
  /\ (fst (Sim.iteration save_cancelled world0) = Ok Break
      /\ calls (snd (Sim.iteration save_cancelled world0)) =
           [("calculate_metrics", "a"); ("record_velocity", "a");
            ("check_for_hype", "a"); ("repo.create", "a")]
      /\ ~ In ("broadcast_metrics", "a") (calls (snd (Sim.iteration save_cancelled world0)))
      /\ inbox (net (snd (Sim.iteration save_cancelled world0))) 1%nat = []
      /\ log (snd (Sim.iteration save_cancelled world0)) =
           ["INFO Metrics broadcast loop cancelled"]).
Proof.
  vm_compute.
  repeat split; try reflexivity; intros H;
    repeat (destruct H as [H|H]; [discriminate H|]); exact H.
Qed.

(** C2 as stated fails.  Run: a hype event is detected on channel [a] and
    its save raises.  The error is logged, and neither burst subscriber (3
    and 4) receives anything: [broadcast_hype] is not called.  The metrics
    of [a] still reach the metrics subscribers.  With the same run and a
    save that succeeds, the burst subscribers do receive the event. *)
Lemma save_failure_blocks_hype_broadcast :
  (fst (Sim.process_channel save_fail "a" world0) = Ok tt
   /\ log (snd (Sim.process_channel save_fail "a" world0)) =
        ["ERROR Failed to save/broadcast hype event: database is locked"]
   /\ ~ In ("broadcast_hype", "a") (calls (snd (Sim.process_channel save_fail "a" world0)))
   /\ inbox (net (snd (Sim.process_channel save_fail "a" world0))) 3%nat = []
   /\ inbox (net (snd (Sim.process_channel save_fail "a" world0))) 4%nat = []
   /\ inbox (net (snd (Sim.process_channel save_fail "a" world0))) 1%nat =
        [MetricsPayload (metrics_of "a")])
  /\ (fst (Sim.process_channel all_well "a" world0) = Ok tt
      /\ inbox (net (snd (Sim.process_channel all_well "a" world0))) 3%nat =
           [HypePayload (event_of "a" 0%Qc [])]
      /\ inbox (net (snd (Sim.process_channel all_well "a" world0))) 4%nat =
           [HypePayload (event_of "a" 0%Qc [])]).
Proof.
  vm_compute.
  repeat split; try reflexivity; intros H;
    repeat (destruct H as [H|H]; [discriminate H|]); exact H.
Qed.

(** *** The harness never cancels on its own *)

Lemma call_raises script name channel :
  raises_only (fun e => raises script name channel = Some e) (call script name channel).
Proof.
  intros w e w' H. unfold call in H.
  destruct (raises script name channel); congruence.
Qed.

Lemma sim_broadcast_hype_quiet (P : exn -> Prop) event :
  raises_only P
    (fun w =>
       let '(r, manager, net) := Websockets.broadcast_hype (hype_manager w) event (net w) in
       (r, Sim.mk (calls w) (log w) (ws_manager w) manager net (saved w))).
Proof.
  intros w e w' H. unfold Websockets.broadcast_hype in H.
  destruct (WebsocketsFacts.broadcast_spec (hype_manager w) (HypePayload event) (net w))
    as (net' & Hb & _).
  rewrite Hb in H. congruence.
Qed.

Lemma sim_broadcast_metrics_quiet (P : exn -> Prop) metrics :
  raises_only P
    (fun w =>
       let '(r, manager, net) := Websockets.broadcast_metrics (ws_manager w) metrics (net w) in
       (r, Sim.mk (calls w) (log w) manager (hype_manager w) net (saved w))).
Proof.
  intros w e w' H. unfold Websockets.broadcast_metrics in H.
  destruct (WebsocketsFacts.broadcast_spec (ws_manager w) (MetricsPayload metrics) (net w))
    as (net' & Hb & _).
  rewrite Hb in H. congruence.
Qed.

(** A script that cancels nothing gives collaborators that are never
    cancelled. *)
Lemma sim_nothing_cancelled script :
  (forall name channel, raises script name channel <> Some CancelledError) ->
  Main.nothing_cancelled (Sim.channels_list script) (Sim.calculate_metrics script)
    (Sim.record_velocity script) (Sim.check_for_hype script) (Sim.repo_create script)
    (Sim.broadcast_hype script) (Sim.broadcast_metrics script) (Sim.sleep script).
Proof.
  intros Hscript.
  assert (Hcall : forall name channel, never_cancelled (call script name channel)).
  { intros name channel. eapply MainFacts.raises_only_weaken; [|apply call_raises].
    intros e He ->. by apply (Hscript name channel). }
  unfold Main.nothing_cancelled, never_cancelled.
  repeat split; intros.
  - apply MainFacts.raises_only_ret.
  - apply MainFacts.raises_only_bind; [apply Hcall | intros; apply MainFacts.raises_only_ret].
  - apply Hcall.
  - apply MainFacts.raises_only_bind; [apply Hcall | intros; apply MainFacts.raises_only_ret].
  - apply MainFacts.raises_only_bind; [apply Hcall | intros; apply MainFacts.raises_only_effect].
  - apply MainFacts.raises_only_bind; [apply Hcall | intros; apply sim_broadcast_hype_quiet].
  - apply MainFacts.raises_only_bind; [apply Hcall | intros; apply sim_broadcast_metrics_quiet].
  - apply Hcall.
Qed.

Lemma sim_sleep_quiet script :
  raises script "sleep" "" = None ->
  Main.sleep_raises_only_cancellation (Sim.sleep script).
Proof.
  intros Hscript n w e w' H. apply call_raises in H. congruence.
Qed.

Lemma metrics_fail_cancels_nothing name channel :
  raises metrics_fail name channel <> Some CancelledError.
Proof.
  cbn [raises metrics_fail].
  by destruct (String.eqb name "calculate_metrics" && String.eqb channel "a")%bool.
Qed.

(** The run of the first counterexample, by the theorem: the pass over [a]
    and [b] in which the metrics of [a] raise equals the handler run from
    the world the failed call left, and the loop is still running after
    three passes. *)
Lemma loop_failure_handling_witness :
  Sim.iteration metrics_fail world0 =
    bind (Sim.sleep metrics_fail 1) (fun _ => ret Continue)
      (Sim.logger_error "Error in metrics broadcast loop: metrics failed"
         (snd (Sim.calculate_metrics metrics_fail "a" world0)))
  /\ exists w', Sim.broadcast_metrics_loop metrics_fail 3 world0 = (Ok None, w').
Proof.
  destruct (MainFacts.loop_failure_handling
              (Sim.channels_list metrics_fail) (Sim.calculate_metrics metrics_fail)
              (Sim.record_velocity metrics_fail) (Sim.check_for_hype metrics_fail)
              (Sim.repo_create metrics_fail) (Sim.broadcast_hype metrics_fail)
              (Sim.broadcast_metrics metrics_fail) (Sim.sleep metrics_fail)
              Sim.logger_info Sim.logger_error)
    as (_ & _ & _ & Hpass & _ & Hruns).
  split.
  - exact (proj1 (Hpass world0 [] "a" ["b"] world0 world0 _ (Exception "metrics failed")
                    eq_refl eq_refl eq_refl) eq_refl).
  - exact (Hruns (sim_nothing_cancelled metrics_fail metrics_fail_cancels_nothing)
                 (sim_sleep_quiet metrics_fail eq_refl) 3%nat world0).
Defined.

(** The run of the second counterexample, by the theorem: after the failed
    save of the hype event of [a], the channel goes on with its metrics
    broadcast from the world that the failed save and the log line left. *)
Lemma save_failure_skips_hype_broadcast_witness :
  Sim.process_channel save_fail "a" world0 =
  Sim.broadcast_metrics save_fail (metrics_of "a")
    (Sim.logger_error "Failed to save/broadcast hype event: database is locked"
       (snd (Sim.repo_create save_fail (event_of "a" 0%Qc [])
          (snd (Sim.check_for_hype save_fail "a" 0%Qc []
             (snd (Sim.record_velocity save_fail "a" 0%Qc
                (snd (Sim.calculate_metrics save_fail "a" world0)))))))))
  /\ inbox (net (snd (Sim.process_channel save_fail "a" world0))) 3%nat = [].
Proof.
  split; [|by vm_compute].
  exact (proj2 (MainFacts.save_failure_skips_hype_broadcast
                  (Sim.calculate_metrics save_fail) (Sim.record_velocity save_fail)
                  (Sim.check_for_hype save_fail) (Sim.repo_create save_fail)
                  (Sim.broadcast_hype save_fail) (Sim.broadcast_metrics save_fail)
                  Sim.logger_error "a" world0 _ _ _ _ (metrics_of "a")
                  (event_of "a" 0%Qc []) (Exception "database is locked")
                  eq_refl eq_refl eq_refl eq_refl eq_refl)).
Defined.

End SimFacts.

(** ** The theorems on sample data *)

Module SamplesFacts.

Import Py Datetime Samples.

Lemma sqrt_down_0 : sqrt_down 0%Qc = 0%Qc.
Proof. apply Qc_is_canon. by vm_compute. Qed.

(** The scenario of C4 on the messages A, B, C, D sent at seconds 1 to 4 to
    the channel [Chan], whose window has the key [chan]. *)
Lemma query_since_witness :
  let b := MessageBuffer.insert_all (MessageBuffer.init 3)
             [("Chan", msgA); ("Chan", msgB); ("Chan", msgC); ("Chan", msgD)] in
  MessageBuffer.window b "Chan" = [msgB; msgC; msgD]
  /\ MessageBuffer.get_messages_since b "Chan" (ChatMessage.timestamp msgB) None
     = [msgB; msgC; msgD]
  /\ MessageBuffer.get_messages_since b "Chan"
       (Datetime.add (ChatMessage.timestamp msgD) 1) None = [].
Proof.
  intros b.
  destruct (proj2 MessageBufferFacts.query_since "Chan" msgA msgB msgC msgD) as [Hw Hq].
  assert (HBC : MessageBuffer.no_later msgB msgC) by (by vm_compute).
  assert (HCD : MessageBuffer.no_later msgC msgD) by (by vm_compute).
  destruct (Hq HBC HCD) as [HB HD].
  split; [exact Hw|]. split; [exact HB|]. apply HD. reflexivity.
Defined.

(** C5 on the steady detector: the velocity 10.3 at second 13 fires; until
    second 43 nothing does, here a velocity of 100 at second 42; at second
    44 the cooldown test is passed. *)
Lemma cooldown_gate_witness :
  let fired := HypeDetector.check_for_hype sqrt_down steady "c" (Q2Qc (103 # 10)) None
                 (seconds 13) in
  HypeDetector._last_hype (snd fired) !! "c" = Some (seconds 13)
  /\ HypeDetector.check_for_hype sqrt_down (snd fired) "c" (Q2Qc 100) None (seconds 42)
     = (Ok None, snd fired)
  /\ HypeDetector.in_cooldown (snd fired) "c" (seconds 13 + seconds 31) = false.
Proof.
  intros fired.
  pose (ev := match fst fired with
              | Ok (Some ev) => ev
              | _ => HypeEvent.mk "" (naive 0) 0%Qc 0%Qc 0%Qc 0%Qc []
              end).
  assert (Hfired : fired = (Ok (Some ev), snd fired)) by (by vm_compute).
  destruct (HypeDetectorFacts.cooldown_gate sqrt_down steady (snd fired) "c"
              (Q2Qc (103 # 10)) None (seconds 13) ev eq_refl Hfired)
    as ((Hcd & Hlast) & _ & Hblocked & Hopen).
  split; [exact Hlast|]. split.
  - apply Hblocked; [exact Hcd | exact Hlast | reflexivity].
  - exact (proj1 (Hopen (snd fired) 0%Qc None 0%Qc Hcd Hlast)).
Defined.

(** C6 on the steady detector: twelve samples of 10.0 have deviation zero,
    the threshold is 10.2, and the velocity 10.3 yields an event that
    reports the deviation 0.1. *)
Lemma zero_std_epsilon_witness :
  exists ev,
    HypeDetector.check_for_hype sqrt_down steady "c" (Q2Qc (103 # 10)) None (seconds 13)
    = (Ok (Some ev),
       HypeDetector.set_last_hype steady
         (<["c" := seconds 13]> (HypeDetector._last_hype steady)))
    /\ HypeEvent.velocity ev = Q2Qc (103 # 10)
    /\ HypeEvent.baseline_std ev = Q2Qc (1 # 10).
Proof.
  assert (Hlen : (10 <= length (Deque.items steady_window))%nat) by (simpl; lia).
  destruct (HypeDetectorFacts.zero_std_epsilon sqrt_down steady "c" (Q2Qc (103 # 10))
              None (seconds 13) steady_window eq_refl eq_refl Hlen)
    as (_ & Hzero & Hsame).
  assert (Hall : Forall (fun x => x = Q2Qc 10) (map snd (Deque.items steady_window)))
    by (repeat constructor).
  destruct (Hsame (Q2Qc 10) sqrt_down_0 Hall) as [Hmean Hstd].
  destruct (Hzero (Q2Qc 10) Hmean Hstd) as (_ & Hfire & _).
  assert (Hmin : (HypeDetector.min_velocity steady <= Q2Qc (103 # 10))%Qc)
    by (by vm_compute).
  assert (Hv : (Q2Qc 10 + HypeDetector.threshold_std steady * Q2Qc (1 # 10)
                < Q2Qc (103 # 10))%Qc) by (by vm_compute).
  destruct (Hfire Hmin Hv) as (ev & Hcall & Hvel & _ & Hdev).
  exists ev. split; [exact Hcall|]. split; [exact Hvel | exact Hdev].
Defined.

(** C7 on three subscribers of which the second fails on send: the other
    two receive the event, and only the second leaves the registry. *)
Lemma broadcast_isolation_witness :
  let self := Websockets.mk_manager {[1%nat; 2%nat; 3%nat]} in
  let net := Websockets.mk_net ∅ {[2%nat]} in
  let event := Sim.event_of "a" 0%Qc [] in
  let out := Websockets.broadcast_hype self event net in
  fst (fst out) = Ok tt
  /\ Websockets.active_connections (snd (fst out)) = {[1%nat; 3%nat]}
  /\ Websockets.inbox (snd out) 1%nat = [Websockets.HypePayload event]
  /\ Websockets.inbox (snd out) 2%nat = []
  /\ Websockets.inbox (snd out) 3%nat = [Websockets.HypePayload event].
Proof.
  intros self net event out.
  pose proof (proj2 (WebsocketsFacts.broadcast_isolation self net
                       (Sim.metrics_of "a") event)) as H.
  fold out in H. unfold Websockets.isolated_delivery in H.
  destruct out as [[r self'] net']. cbn [fst snd].
  destruct H as (Hr & Hset & Hgood & Hbad & _).
  split; [exact Hr|]. split.
  - rewrite Hset. cbn [Websockets.active_connections Websockets.failing self net].
    apply set_eq. intros ws. set_solver.
  - split; [apply (Hgood 1%nat); set_solver|].
    split; [apply (Hbad 2%nat); set_solver|].
    apply (Hgood 3%nat); set_solver.
Defined.

(** The ranking of C9 on the emotes of A, B, C, D: LUL and KEKW both occur
    twice and LUL was seen first. *)
Example top_emotes_sample :
  MetricsCalculator._get_top_emotes [msgA; msgB; msgC; msgD] 2
  = [("LUL", 2%nat); ("KEKW", 2%nat)]
  /\ MetricsCalculator._get_top_emotes [msgA; msgB; msgC; msgD] 10
     = [("LUL", 2%nat); ("KEKW", 2%nat); ("Pog", 1%nat)].
Proof. by vm_compute. Qed.

(** The horizons of C8 on a window holding A, B, C, D, read at second 4:
    two events since second 3, four in the last minute, all by one
    chatter. *)
Example horizons_sample :
  let b := MessageBuffer.insert_all (MessageBuffer.init 10)
             [("chan", msgA); ("chan", msgB); ("chan", msgC); ("chan", msgD)] in
  let metrics := MetricsCalculator.calculate_metrics b "chan" (seconds 4) in
  ChannelMetrics.messages_last_minute metrics = 4%nat
  /\ ChannelMetrics.unique_chatters_5min metrics = 1%nat
  /\ length (MetricsCalculator._get_messages_in_window b "chan"
               (aware_utc (seconds 4)) 1) = 2%nat.
Proof. by vm_compute. Qed.

End SamplesFacts.

(** * Further properties *)

(** ** The message window: limits, clearing, statistics *)

Module MessageBufferMore.

Import Datetime Deque MessageBuffer DequeFacts MessageBufferFacts.

Lemma lower_ascii_idemp c : Str.lower_ascii (Str.lower_ascii c) = Str.lower_ascii c.
Proof. destruct c as [[] [] [] [] [] [] [] []]; reflexivity. Qed.

Lemma lower_idemp s : Str.lower (Str.lower s) = Str.lower s.
Proof. induction s as [|c s IH]; simpl; [done|]. by rewrite lower_ascii_idemp, IH. Qed.

(** The scan with a limit that is not zero: the first [max 1 limit]
    matches, newest first. *)
Lemma scan_since_limit since (n : Z) newest_first messages :
  n <> 0 ->
  (length messages < Z.to_nat (Z.max 1 n))%nat ->
  scan_since since (Some n) newest_first messages =
  take (Z.to_nat (Z.max 1 n))
    (messages ++ List.filter (fun m => geb (assume_utc (ChatMessage.timestamp m)) since)
                   newest_first).
Proof.
  intros Hn. revert messages.
  induction newest_first as [|m rest IH]; intros messages Hlen; simpl.
  - rewrite app_nil_r. by rewrite take_ge by lia.
  - destruct (geb (assume_utc (ChatMessage.timestamp m)) since); [|by apply IH].
    set (matches := List.filter _ rest).
    assert (Hmid : messages ++ m :: matches = (messages ++ [m]) ++ matches)
      by (by rewrite <- app_assoc).
    assert (Hlen1 : length (messages ++ [m]) = (length messages + 1)%nat)
      by (rewrite length_app; simpl; lia).
    rewrite Hmid. unfold limit_reached. rewrite Hlen1.
    destruct (Z.eqb_spec n 0) as [|_]; [done|]. simpl.
    destruct (Z.leb_spec n (Z.of_nat (length messages + 1))) as [Hle|Hgt].
    + rewrite take_app_le by lia. by rewrite take_ge by lia.
    + apply IH. lia.
Qed.

Lemma rev_take_rev {A} (n : nat) (l : list A) : rev (take n (rev l)) = lastn n l.
Proof.
  unfold lastn. rewrite <- (rev_involutive (drop _ l)). f_equal.
  change (take n (rev l)) with (firstn n (rev l)).
  rewrite firstn_rev. done.
Qed.

Lemma get_messages_since_limit b channel since (n : Z) :
  n <> 0 ->
  get_messages_since b channel since (Some n) =
  lastn (Z.to_nat (Z.max 1 n)) (get_messages_since b channel since None).
Proof.
  intros Hn. unfold get_messages_since.
  destruct (_buffers b !! Str.lower channel) as [d|]; [|done].
  rewrite scan_since_limit by (done || simpl; lia).
  rewrite scan_since_no_limit. simpl.
  by rewrite List.filter_rev, rev_take_rev, rev_involutive.
Qed.

(** X1 (limit of the query).  With a positive [limit], [get_messages_since]
    returns the newest [limit] of the messages it returns without limit,
    oldest first, so at most [limit] messages.  A limit of 0 is no limit:
    everything is returned.  A negative limit returns the newest match
    only. *)
Theorem query_limit (b : MessageBuffer.t) (channel : string) (since : datetime) (n : Z) :
  (0 < n ->
     get_messages_since b channel since (Some n) =
       lastn (Z.to_nat n) (get_messages_since b channel since None)
     /\ (length (get_messages_since b channel since (Some n)) <= Z.to_nat n)%nat)
  /\ get_messages_since b channel since (Some 0) = get_messages_since b channel since None
  /\ (n < 0 ->
        get_messages_since b channel since (Some n) =
        lastn 1 (get_messages_since b channel since None)).
Proof.
  split; [|split].
  - intros Hn. rewrite get_messages_since_limit by lia.
    replace (Z.max 1 n) with n by lia. split; [done|].
    rewrite lastn_length. lia.
  - unfold get_messages_since.
    destruct (_buffers b !! Str.lower channel) as [d|]; [|done].
    f_equal. generalize (@nil ChatMessage.t) as acc.
    induction (rev (items d)) as [|m rest IH]; intros acc; simpl; [done|].
    destruct (geb _ _); [|apply IH]. unfold limit_reached. simpl. apply IH.
  - intros Hn. rewrite get_messages_since_limit by lia.
    by replace (Z.max 1 n) with 1 by lia.
Qed.

(** *** Runs of calls *)

Lemma run_snoc b ops o : run b (ops ++ [o]) = apply (run b ops) o.
Proof. unfold run. by rewrite fold_left_app. Qed.

Lemma run_maxlen b ops : _maxlen (run b ops) = _maxlen b.
Proof.
  induction ops as [|o ops IH] using rev_ind; [done|].
  rewrite run_snoc. destruct o as [c m|c|]; simpl; try done.
  unfold clear_channel. by destruct (_ !! _).
Qed.

Lemma append_keeps_bound {A} (d : deque A) x n :
  maxlen d = Some n -> (length (items d) <= n)%nat ->
  maxlen (append d x) = Some n /\ (length (items (append d x)) <= n)%nat.
Proof.
  intros Hmax Hlen. unfold append. rewrite Hmax.
  destruct (Nat.ltb_spec n (length (items d ++ [x]))) as [Hlt|Hge]; simpl.
  - split; [done|]. rewrite length_drop, length_app. simpl. lia.
  - split; [done|]. lia.
Qed.

Lemma add_message_bounded b c m : bounded b -> bounded (add_message b c m).
Proof.
  intros Hb key d. rewrite add_message_lookup, add_message_maxlen.
  destruct (decide (Str.lower c = key)) as [<-|Hne]; [|apply Hb].
  intros [= <-].
  destruct (_buffers b !! Str.lower c) as [d0|] eqn:Hd0; simpl.
  - destruct (Hb _ _ Hd0) as (Hmax & Hlen & _).
    destruct (append_keeps_bound d0 m _ Hmax Hlen) as [H1 H2].
    by rewrite lower_idemp.
  - destruct (append_keeps_bound (Deque.empty (Some (_maxlen b))) m (_maxlen b))
      as [H1 H2]; [done | simpl; lia |].
    by rewrite lower_idemp.
Qed.

Lemma clear_channel_lookup b c key :
  _buffers (clear_channel b c) !! key =
  if decide (Str.lower c = key) then Deque.clear <$> _buffers b !! key
  else _buffers b !! key.
Proof.
  unfold clear_channel.
  destruct (_buffers b !! Str.lower c) as [d|] eqn:Hd; simpl.
  - destruct (decide (Str.lower c = key)) as [<-|Hne].
    + by rewrite lookup_insert_eq, Hd.
    + by rewrite lookup_insert_ne.
  - destruct (decide (Str.lower c = key)) as [<-|Hne]; [by rewrite Hd | done].
Qed.

Lemma clear_channel_maxlen b c : _maxlen (clear_channel b c) = _maxlen b.
Proof. unfold clear_channel. by destruct (_ !! _). Qed.

Lemma clear_channel_bounded b c : bounded b -> bounded (clear_channel b c).
Proof.
  intros Hb key d. rewrite clear_channel_lookup, clear_channel_maxlen.
  destruct (decide (Str.lower c = key)) as [<-|Hne]; [|apply Hb].
  destruct (_buffers b !! Str.lower c) as [d0|] eqn:Hd0; simpl; [|done].
  intros [= <-]. destruct (Hb _ _ Hd0) as (Hmax & _ & Hkey).
  simpl. repeat split; [done | lia | done].
Qed.

Lemma run_bounded N ops : bounded (run (init N) ops).
Proof.
  induction ops as [|o ops IH] using rev_ind.
  - intros key d H. simpl in H. by rewrite lookup_empty in H.
  - rewrite run_snoc. destruct o as [c m|c|]; simpl.
    + by apply add_message_bounded.
    + by apply clear_channel_bounded.
    + intros key d H. simpl in H. by rewrite lookup_empty in H.
Qed.

Lemma get_all_channels_elem b key :
  key ∈ get_all_channels b <-> is_Some (_buffers b !! key).
Proof.
  unfold get_all_channels. rewrite list_elem_of_fmap. split.
  - intros ([k d] & -> & Hin). apply elem_of_map_to_list in Hin. by exists d.
  - intros [d Hd]. exists (key, d). split; [done|]. by apply elem_of_map_to_list.
Qed.

(** X2 (capacity and statistics).  After any run of [add_message],
    [clear_channel] and [clear_all] calls on a fresh buffer of capacity
    [N]: no channel holds more than [N] messages; [get_stats] reports [N]
    as [max_per_channel], one entry per listed channel, and for each the
    count that [get_message_count] returns, never above [N]; the channels
    listed are distinct lowercase names. *)
Theorem capacity_and_stats (N : nat) (ops : list op) :
  let b := run (init N) ops in
  (forall channel, (get_message_count b channel <= N)%nat)
  /\ max_per_channel (get_stats b) = N
  /\ total_channels (get_stats b) = length (get_all_channels b)
  /\ NoDup (get_all_channels b)
  /\ (forall key, key ∈ get_all_channels b <-> is_Some (channels (get_stats b) !! key))
  /\ (forall key n, channels (get_stats b) !! key = Some n ->
        Str.lower key = key /\ n = get_message_count b key /\ (n <= N)%nat).
Proof.
  intros b. pose proof (run_bounded N ops) as Hb. fold b in Hb.
  assert (HN : _maxlen b = N) by apply run_maxlen.
  split.
  { intros channel. unfold get_message_count.
    destruct (_buffers b !! Str.lower channel) as [d|] eqn:Hd; [|lia].
    destruct (Hb _ _ Hd) as (_ & Hlen & _). lia. }
  split; [exact HN|].
  split.
  { unfold get_stats, get_all_channels. simpl.
    by rewrite length_fmap, length_map_to_list. }
  split; [apply NoDup_fst_map_to_list|].
  split.
  { intros key. rewrite get_all_channels_elem. unfold get_stats. simpl.
    rewrite lookup_fmap. by rewrite fmap_is_Some. }
  intros key n. unfold get_stats. simpl. rewrite lookup_fmap.
  destruct (_buffers b !! key) as [d|] eqn:Hd; simpl; [|done].
  intros [= <-]. destruct (Hb _ _ Hd) as (_ & Hlen & Hkey).
  split; [done|]. split; [|lia].
  unfold get_message_count. by rewrite Hkey, Hd.
Qed.

(** *** Reading back *)

Lemma get_recent_messages_lastn b channel count :
  get_recent_messages b channel count = lastn (Z.to_nat count) (window b channel).
Proof.
  unfold get_recent_messages, window, lastn. cbv zeta.
  destruct (_buffers b !! Str.lower channel) as [d|]; [|done].
  destruct (Z.le_gt_cases 0 count) as [Hpos|Hneg].
  - f_equal. lia.
  - rewrite !drop_ge by lia. done.
Qed.

Lemma lastn_1_last {A} (l : list A) x : last l = Some x -> lastn 1 l = [x].
Proof.
  intros Hlast. destruct l as [|y l] using rev_ind; [done|].
  rewrite last_snoc in Hlast. injection Hlast as ->.
  unfold lastn. rewrite length_app. simpl.
  rewrite drop_app_length'; [done | lia].
Qed.

Lemma append_last {A} (d : deque A) x n :
  maxlen d = Some n -> (0 < n)%nat -> (length (items d) <= n)%nat ->
  last (items (append d x)) = Some x.
Proof.
  intros Hmax Hn Hlen. unfold append. rewrite Hmax.
  destruct (Nat.ltb_spec n (length (items d ++ [x]))) as [Hlt|Hge]; simpl.
  - destruct (items d) as [|y l]; simpl in *; [lia|]. apply last_snoc.
  - apply last_snoc.
Qed.

(** X3 (insert, then read).  On a buffer of capacity at least 1, built by
    any run of calls, a message added to a channel is the newest of the
    channel's window: [get_recent_messages] with count 1 returns it, the
    query since its own timestamp contains it under any spelling of the
    channel name, and the count grows by one up to the capacity.  The
    windows of the other channels are as before, and the call with the
    lowercase name does the same. *)
Theorem insert_then_read (N : nat) (ops : list op) (channel : string) (m : ChatMessage.t) :
  (0 < N)%nat ->
  let b := run (init N) ops in
  let b' := add_message b channel m in
  last (window b' channel) = Some m
  /\ get_recent_messages b' channel 1 = [m]
  /\ (forall c', Str.lower c' = Str.lower channel ->
        m ∈ get_messages_since b' c' (ChatMessage.timestamp m) None)
  /\ get_message_count b' channel = (S (get_message_count b channel) `min` N)%nat
  /\ (forall c', Str.lower c' <> Str.lower channel -> window b' c' = window b c')
  /\ add_message b (Str.lower channel) m = b'.
Proof.
  intros HN b b'.
  pose proof (run_bounded N ops) as Hb. fold b in Hb.
  assert (HmaxN : _maxlen b = N) by apply run_maxlen.
  set (d0 := default (Deque.empty (Some (_maxlen b))) (_buffers b !! Str.lower channel)).
  assert (Hd0 : maxlen d0 = Some N /\ (length (items d0) <= N)%nat).
  { subst d0. destruct (_buffers b !! Str.lower channel) as [d|] eqn:Hd; simpl.
    - destruct (Hb _ _ Hd) as (H1 & H2 & _). rewrite <- HmaxN. done.
    - rewrite HmaxN. split; [done | lia]. }
  destruct Hd0 as [Hmax Hlen].
  assert (Hwin : window b' channel = items (append d0 m)).
  { unfold window. subst b'. rewrite add_message_lookup. by rewrite decide_True. }
  assert (Hlast : last (window b' channel) = Some m).
  { rewrite Hwin. by apply (append_last d0 m N). }
  split; [exact Hlast|].
  split; [rewrite get_recent_messages_lastn; by apply lastn_1_last|].
  split.
  { intros c' Hc'. rewrite get_messages_since_filter.
    apply list_elem_of_In, List.filter_In. split.
    - apply list_elem_of_In. unfold window in *. rewrite Hc'.
      apply last_Some_elem_of in Hlast. exact Hlast.
    - apply not_before_true. lia. }
  split.
  { unfold get_message_count. subst b'. rewrite add_message_lookup.
    rewrite decide_True by done. fold d0.
    replace (match _buffers b !! Str.lower channel with
             | Some d => length (items d) | None => 0%nat end)
      with (length (items d0))
      by (subst d0; by destruct (_buffers b !! Str.lower channel)).
    assert (Hl : length (items d0 ++ [m]) = S (length (items d0)))
      by (rewrite length_app; simpl; lia).
    unfold append. rewrite Hmax.
    destruct (Nat.ltb_spec N (length (items d0 ++ [m]))) as [Hlt|Hge]; cbn [items];
      rewrite ?length_drop, Hl; lia. }
  split.
  { intros c' Hc'. unfold window. subst b'. rewrite add_message_lookup.
    by rewrite decide_False by congruence. }
  subst b'. unfold add_message. by rewrite lower_idemp.
Qed.

Lemma filter_all {A} (f : A -> bool) (l : list A) :
  Forall (fun x => f x = true) l -> List.filter f l = l.
Proof. induction 1 as [|x l Hx _ IH]; simpl; [done|]. by rewrite Hx, IH. Qed.

(** X4 (recent messages).  [get_recent_messages] returns the last [count]
    messages of the channel's window, oldest first: nothing for a count of
    zero or less, the whole window for a count that reaches its size,
    nothing for a channel without buffer.  When every stored message is at
    or after [since], the query with a positive limit returns the same
    messages. *)
Theorem recent_messages (b : MessageBuffer.t) (channel : string) (count : Z) :
  get_recent_messages b channel count = lastn (Z.to_nat count) (window b channel)
  /\ (count <= 0 -> get_recent_messages b channel count = [])
  /\ (Z.of_nat (length (window b channel)) <= count ->
        get_recent_messages b channel count = window b channel)
  /\ (_buffers b !! Str.lower channel = None -> get_recent_messages b channel count = [])
  /\ (forall since, 0 < count ->
        Forall (fun m => not_before since m = true) (window b channel) ->
        get_messages_since b channel since (Some count) =
        get_recent_messages b channel count).
Proof.
  pose proof (get_recent_messages_lastn b channel count) as Hrec.
  split; [exact Hrec|]. split.
  { intros Hc. rewrite Hrec. replace (Z.to_nat count) with 0%nat by lia.
    unfold lastn. rewrite Nat.sub_0_r. apply drop_all. }
  split.
  { intros Hc. rewrite Hrec. apply lastn_all. lia. }
  split.
  { intros Hnone. unfold get_recent_messages. by rewrite Hnone. }
  intros since Hc Hall. rewrite Hrec, get_messages_since_limit by lia.
  replace (Z.max 1 count) with count by lia. f_equal.
  rewrite get_messages_since_filter. by apply filter_all.
Qed.

(** X5 (clearing).  [clear_channel] empties the window of its channel, so
    its count is 0 and every query on it is empty, but the channel stays
    listed and the capacity is kept; the windows of the other channels are
    untouched, and clearing a channel without buffer changes nothing.
    [clear_all] leaves no channel listed and every window empty. *)
Theorem cleared_windows (b : MessageBuffer.t) (channel : string) :
  let b' := clear_channel b channel in
  window b' channel = []
  /\ get_message_count b' channel = 0%nat
  /\ (forall since limit, get_messages_since b' channel since limit = [])
  /\ (forall c', Str.lower c' <> Str.lower channel -> window b' c' = window b c')
  /\ (forall key, key ∈ get_all_channels b' <-> key ∈ get_all_channels b)
  /\ _maxlen b' = _maxlen b
  /\ (_buffers b !! Str.lower channel = None -> b' = b)
  /\ get_all_channels (clear_all b) = []
  /\ (forall c, window (clear_all b) c = []).
Proof.
  intros b'.
  assert (Hsame : _buffers b' !! Str.lower channel
                  = Deque.clear <$> _buffers b !! Str.lower channel).
  { subst b'. rewrite clear_channel_lookup. by rewrite decide_True. }
  split; [unfold window; rewrite Hsame; by destruct (_buffers b !! _)|].
  split; [unfold get_message_count; rewrite Hsame; by destruct (_buffers b !! _)|].
  split.
  { intros since limit. unfold get_messages_since. rewrite Hsame.
    by destruct (_buffers b !! _). }
  split.
  { intros c' Hc'. unfold window. subst b'. rewrite clear_channel_lookup.
    by rewrite decide_False by congruence. }
  split.
  { intros key. rewrite !get_all_channels_elem. subst b'.
    rewrite clear_channel_lookup. destruct (decide (Str.lower channel = key)); [|done].
    by rewrite fmap_is_Some. }
  split; [apply clear_channel_maxlen|].
  split; [intros Hnone; subst b'; unfold clear_channel; by rewrite Hnone|].
  split; [unfold get_all_channels, clear_all; simpl; by rewrite map_to_list_empty|].
  intros c. unfold window, clear_all. simpl. by rewrite lookup_empty.
Qed.

End MessageBufferMore.

(** ** The metrics aggregator: chatters, averages, velocity history *)

Module MetricsCalculatorMore.

Import Datetime MessageBuffer MetricsCalculator.
Import DequeFacts MessageBufferFacts MetricsCalculatorFacts StatisticsFacts.
Import MessageBufferMore.

Lemma unique_snoc_known (names : list string) (name : string) :
  name ∈ names ->
  size (list_to_set (names ++ [name]) : gset string)
  = size (list_to_set names : gset string).
Proof.
  intros Hin. f_equal. apply set_eq. intros x.
  rewrite !elem_of_list_to_set, elem_of_app, list_elem_of_singleton.
  split; [intros [?| ->]; done | by left].
Qed.

Lemma unique_snoc_fresh (names : list string) (name : string) :
  name ∉ names ->
  size (list_to_set (names ++ [name]) : gset string)
  = S (size (list_to_set names : gset string)).
Proof.
  intros Hin. rewrite list_to_set_snoc_L, size_union.
  - rewrite size_singleton. lia.
  - apply disjoint_singleton_r. by rewrite elem_of_list_to_set.
Qed.

Lemma unique_le (names : list string) :
  (size (list_to_set names : gset string) <= length names)%nat.
Proof.
  induction names as [|name names IH] using rev_ind.
  { change (list_to_set []) with (∅ : gset string). by rewrite size_empty. }
  rewrite length_app. simpl.
  destruct (decide (name ∈ names)).
  - rewrite unique_snoc_known by done. lia.
  - rewrite unique_snoc_fresh by done. lia.
Qed.

(** X6 (unique chatters).  [_count_unique_chatters] counts names without
    regard to letter case: it never exceeds the number of messages, is zero
    exactly for no messages, does not move when a message arrives from a
    name already seen in any spelling, grows by one for a new name, does
    not depend on the order of the messages, and equals the number of
    messages when all names differ. *)
Theorem unique_chatters (messages : list ChatMessage.t) (m : ChatMessage.t) :
  let name := fun msg => Str.lower (ChatMessage.username msg) in
  (_count_unique_chatters messages <= length messages)%nat
  /\ (_count_unique_chatters messages = 0%nat <-> messages = [])
  /\ (name m ∈ map name messages ->
      _count_unique_chatters (messages ++ [m]) = _count_unique_chatters messages)
  /\ (name m ∉ map name messages ->
      _count_unique_chatters (messages ++ [m]) = S (_count_unique_chatters messages))
  /\ (forall messages', messages ≡ₚ messages' ->
      _count_unique_chatters messages' = _count_unique_chatters messages)
  /\ (NoDup (map name messages) -> _count_unique_chatters messages = length messages).
Proof.
  intros name. unfold _count_unique_chatters. fold name.
  split; [|split; [|split; [|split; [|split]]]].
  - rewrite <- (length_map name). apply unique_le.
  - rewrite size_empty_iff. split.
    + destruct messages as [|m0 rest]; [done|]. intros Hempty.
      exfalso. apply (not_elem_of_empty (C:=gset string) (name m0)).
      rewrite <- Hempty, elem_of_list_to_set. simpl. left.
    + by intros ->.
  - intros Hin. rewrite map_app. by apply unique_snoc_known.
  - intros Hin. rewrite map_app. by apply unique_snoc_fresh.
  - intros messages' Hperm. f_equal. apply set_eq. intros x.
    rewrite !elem_of_list_to_set. by rewrite Hperm.
  - intros Hnd. rewrite size_list_to_set by done. apply length_map.
Qed.

Lemma horizon_sub buffer channel now s :
  _get_messages_in_window buffer channel now s
  = List.filter (not_before (Datetime.sub now (seconds s))) (window buffer channel).
Proof. unfold _get_messages_in_window. cbv zeta. apply get_messages_since_filter. Qed.

Lemma filter_length_le {A} (f : A -> bool) (l : list A) :
  (length (List.filter f l) <= length l)%nat.
Proof. induction l as [|x l IH]; simpl; [lia|]. destruct (f x); simpl; lia. Qed.

Lemma window_count b channel : length (window b channel) = get_message_count b channel.
Proof. unfold window, get_message_count. by destruct (_ !! _). Qed.

Lemma window_bounded N ops channel :
  (length (window (run (init N) ops) channel) <= N)%nat.
Proof.
  unfold window.
  destruct (_buffers (run (init N) ops) !! Str.lower channel) as [d|] eqn:Hd; simpl; [|lia].
  destruct (run_bounded N ops _ _ Hd) as (_ & Hlen & _).
  by rewrite run_maxlen in Hlen.
Qed.

Lemma window_lower b channel : window b (Str.lower channel) = window b channel.
Proof. unfold window. by rewrite lower_idemp. Qed.

Lemma unique_le_messages messages :
  (_count_unique_chatters messages <= length messages)%nat.
Proof.
  unfold _count_unique_chatters. cbv zeta.
  rewrite <- (length_map (fun msg => Str.lower (ChatMessage.username msg))).
  apply unique_le.
Qed.

(** X7 (quiet channel).  [calculate_metrics] on a channel with no message
    in the last five minutes returns the all-zero snapshot for the name as
    given and the clock reading: this covers a channel the buffer has never
    seen, one whose window is empty, one just cleared, and any channel
    after [clear_all]. *)
Theorem quiet_channel (buffer : MessageBuffer.t) (channel : string) (now : Z) :
  let zero := ChannelMetrics.mk channel (aware_utc now) 0%Qc 0%nat 0%nat [] 0%Qc in
  (_get_messages_in_window buffer channel (aware_utc now) 300 = [] ->
   calculate_metrics buffer channel now = zero)
  /\ (_buffers buffer !! Str.lower channel = None ->
      calculate_metrics buffer channel now = zero)
  /\ (window buffer channel = [] -> calculate_metrics buffer channel now = zero)
  /\ calculate_metrics (clear_channel buffer channel) channel now = zero
  /\ calculate_metrics (clear_all buffer) channel now = zero.
Proof.
  intros zero.
  assert (H300 : forall b, _get_messages_in_window b channel (aware_utc now) 300 = [] ->
    calculate_metrics b channel now = zero).
  { intros b H5. unfold calculate_metrics. cbv zeta.
    pose proof (horizon_mono b channel (aware_utc now) 1 300 ltac:(lia)) as H1.
    pose proof (horizon_mono b channel (aware_utc now) 60 300 ltac:(lia)) as H60.
    rewrite H5 in *. simpl in H1, H60.
    destruct (_get_messages_in_window b channel (aware_utc now) 1); [|simpl in H1; lia].
    destruct (_get_messages_in_window b channel (aware_utc now) 60); [|simpl in H60; lia].
    unfold zero. simpl. f_equal. apply Z2Qc_inj_0. }
  assert (Hwin : forall b, window b channel = [] -> calculate_metrics b channel now = zero).
  { intros b Hw. apply H300. by rewrite horizon_sub, Hw. }
  split; [apply H300|]. split; [|split; [apply Hwin|split]].
  - intros Hnone. apply Hwin. unfold window. by rewrite Hnone.
  - apply Hwin. unfold window. rewrite clear_channel_lookup, decide_True by done.
    by destruct (_buffers buffer !! Str.lower channel).
  - apply Hwin. unfold window, clear_all. simpl. by rewrite lookup_empty.
Qed.

(** X8 (metrics and capacity).  On a buffer of capacity [N], after any run
    of calls: the velocity is a whole number no larger than
    [messages_last_minute]; [messages_last_minute] and
    [unique_chatters_5min] never exceed the stored count of the channel,
    which never exceeds [N]; at most 10 emotes are ranked; the snapshot
    carries the channel name as passed and the clock reading; and another
    spelling of the channel changes only the name in the snapshot. *)
Theorem metrics_within_capacity (N : nat) (ops : list op) (channel : string) (now : Z) :
  let buffer := run (init N) ops in
  let metrics := calculate_metrics buffer channel now in
  (exists n : nat, ChannelMetrics.messages_per_second metrics = Num.of_nat n
     /\ (n <= ChannelMetrics.messages_last_minute metrics)%nat)
  /\ (ChannelMetrics.messages_last_minute metrics <= get_message_count buffer channel)%nat
  /\ (ChannelMetrics.unique_chatters_5min metrics <= get_message_count buffer channel)%nat
  /\ (get_message_count buffer channel <= N)%nat
  /\ (length (ChannelMetrics.top_emotes metrics) <= 10)%nat
  /\ ChannelMetrics.channel metrics = channel
  /\ ChannelMetrics.timestamp metrics = aware_utc now
  /\ calculate_metrics buffer (Str.lower channel) now
     = ChannelMetrics.mk (Str.lower channel) (ChannelMetrics.timestamp metrics)
         (ChannelMetrics.messages_per_second metrics)
         (ChannelMetrics.messages_last_minute metrics)
         (ChannelMetrics.unique_chatters_5min metrics)
         (ChannelMetrics.top_emotes metrics)
         (ChannelMetrics.avg_message_length metrics).
Proof.
  intros buffer metrics. subst metrics. unfold calculate_metrics. cbv zeta. simpl.
  split.
  { eexists. split; [reflexivity|]. apply horizon_mono. lia. }
  split.
  { rewrite horizon_sub, <- window_count. apply filter_length_le. }
  split.
  { etrans; [apply unique_le_messages|].
    rewrite horizon_sub, <- window_count. apply filter_length_le. }
  split; [rewrite <- window_count; apply window_bounded|].
  split; [unfold _get_top_emotes, most_common; cbv zeta; rewrite length_take; lia|].
  split; [done|]. split; [done|].
  by rewrite !horizon_sub, !window_lower.
Qed.










Lemma count_between_aware (from to : Z) (messages : list ChatMessage.t) :
  Forall aware messages ->
  count_between (aware_utc from) (aware_utc to) messages
  = Py.Ok (length (List.filter
      (fun m => let t := instant (assume_utc (ChatMessage.timestamp m)) in
                (from <=? t) && (t <? to)) messages)).
Proof.
  induction 1 as [|m rest Hm Hrest IH]; [done|].
  cbn [count_between List.filter]. rewrite IH. clear IH.
  unfold aware in Hm. unfold comparable, instant, assume_utc. cbv zeta.
  destruct (tzinfo (ChatMessage.timestamp m)) as [off|] eqn:Hoff; [|done].
  rewrite Hoff. cbn [aware_utc tzinfo wall]. rewrite !Z.sub_0_r.
  destruct (from <=? _); [|done]. cbn [andb].
  by destruct (_ <? to).
Qed.

Lemma count_between_naive (from to : Z) (messages : list ChatMessage.t) :
  Exists (fun m => tzinfo (ChatMessage.timestamp m) = None) messages ->
  count_between (aware_utc from) (aware_utc to) messages
  = Py.Raise (Py.Exception "can't compare offset-naive and offset-aware datetimes").
Proof.
  induction 1 as [m rest Hm|m rest Hrest IH].
  - cbn [count_between]. unfold comparable. by rewrite Hm.
  - cbn [count_between]. rewrite IH. unfold comparable.
    destruct (tzinfo (ChatMessage.timestamp m)) as [off|]; [|done].
    cbn [aware_utc tzinfo wall]. by destruct (_ <=? _).
Qed.

Lemma filter_filter_implied {A} (f g : A -> bool) (l : list A) :
  (forall x, g x = true -> f x = true) ->
  List.filter g (List.filter f l) = List.filter g l.
Proof.
  intros Hgf. induction l as [|x l IH]; [done|]. simpl.
  destruct (f x) eqn:Hf; simpl.
  - by rewrite IH.
  - destruct (g x) eqn:Hg; [|done]. by rewrite (Hgf x Hg) in Hf.
Qed.

Lemma sub_aware_utc now i : Datetime.sub (aware_utc now) (seconds i) = aware_utc (now - seconds i).
Proof. done. Qed.

Lemma history_loop_aware buffer channel now (W : Z) (steps : list Z) :
  Forall (fun i => i <= W) steps ->
  Forall (fun m => now - seconds (W + 1) <= instant (assume_utc (ChatMessage.timestamp m))
                   -> aware m) (window buffer channel) ->
  history_loop buffer channel (aware_utc now) steps
  = Py.Ok (map (history_point buffer channel now) steps).
Proof.
  intros Hsteps Haware. induction Hsteps as [|i steps Hi Hsteps IH]; [done|].
  cbn [history_loop map]. cbv zeta. rewrite IH. clear IH.
  rewrite !sub_aware_utc, get_messages_since_filter.
  replace (now - seconds i - seconds 1) with (now - seconds (i + 1)) by (unfold seconds; lia).
  rewrite count_between_aware.
  - rewrite filter_filter_implied; [done|].
    intros m. rewrite not_before_true. cbv zeta. cbn [assume_utc aware_utc tzinfo instant wall].
    rewrite andb_true_iff, Z.leb_le. lia.
  - apply Forall_forall. intros m [Hin Hnb]%list_elem_of_In%filter_In.
    rewrite Forall_forall in Haware. apply Haware; [by apply list_elem_of_In|].
    apply not_before_true in Hnb. cbn [assume_utc aware_utc tzinfo instant wall] in Hnb.
    unfold seconds in *. lia.
Qed.

Lemma range_down_le n : Forall (fun i => i <= Z.of_nat n) (range_down n).
Proof.
  induction n as [|n IH]; [constructor|]. cbn [range_down]. constructor; [lia|].
  eapply Forall_impl; [exact IH|]. simpl. lia.
Qed.

Lemma stored_between_split buffer channel a b c :
  a <= b -> b <= c ->
  length (stored_between buffer channel a c)
  = (length (stored_between buffer channel a b)
     + length (stored_between buffer channel b c))%nat.
Proof.
  intros Hab Hbc. unfold stored_between. cbv zeta.
  induction (window buffer channel) as [|m l IH]; [done|]. cbn [List.filter].
  set (t := instant (assume_utc (ChatMessage.timestamp m))).
  destruct (a <=? t) eqn:Ha, (t <? b) eqn:Hb, (b <=? t) eqn:Hb', (t <? c) eqn:Hc;
    cbn [andb length]; rewrite IH; try lia.
Qed.

Lemma stored_between_empty buffer channel a b :
  b <= a -> stored_between buffer channel a b = [].
Proof.
  intros Hba. unfold stored_between. cbv zeta.
  induction (window buffer channel) as [|m l IH]; [done|]. cbn [List.filter].
  set (t := instant (assume_utc (ChatMessage.timestamp m))).
  destruct (a <=? t) eqn:Ha, (t <? b) eqn:Hb; cbn [andb]; try exact IH. lia.
Qed.

Lemma history_sum buffer channel now (n : nat) :
  sum_list (map snd (map (history_point buffer channel now) (range_down n)))
  = length (stored_between buffer channel
              (now - seconds (Z.of_nat n + 1)) (now - seconds 1)).
Proof.
  induction n as [|n IH].
  - by rewrite stored_between_empty by (unfold seconds; lia).
  - cbn [range_down map sum_list snd history_point]. rewrite IH.
    rewrite (stored_between_split buffer channel
               (now - seconds (Z.of_nat (S n) + 1)) (now - seconds (Z.of_nat (S n)))
               (now - seconds 1)) by (unfold seconds; lia).
    do 3 f_equal. unfold seconds. lia.
Qed.

Lemma length_range_down n : length (range_down n) = n.
Proof. induction n as [|n IH]; [done|]. cbn [range_down length]. by rewrite IH. Qed.

Lemma velocity_history_ok buffer channel (W now : Z) :
  Forall (fun m => now - seconds (W + 1) <= instant (assume_utc (ChatMessage.timestamp m))
                   -> aware m) (window buffer channel) ->
  get_velocity_history buffer channel W now
  = Py.Ok (map (history_point buffer channel now) (range_down (Z.to_nat W))).
Proof.
  intros Haware. unfold get_velocity_history.
  apply (history_loop_aware _ _ _ W); [|done].
  destruct (Z.le_gt_cases 0 W) as [Hw|Hw].
  - eapply Forall_impl; [apply range_down_le|]. simpl. lia.
  - replace (Z.to_nat W) with 0%nat by lia. constructor.
Qed.

(** X10 (velocity history).  When every stored message of the channel that
    is no older than [W + 1] seconds carries a zone, [get_velocity_history]
    returns [W] points (none for [W <= 0]), for the seconds [W] down to 1
    before [now]; the point [i] seconds back counts the stored messages
    with timestamp in the second that ends there; the velocities add up to
    the number of stored messages in [[now - (W+1)s, now - 1s)], so the
    messages of the latest second are in no point. *)
Theorem velocity_history (buffer : MessageBuffer.t) (channel : string) (W now : Z) :
  Forall (fun m => now - seconds (W + 1) <= instant (assume_utc (ChatMessage.timestamp m))
                   -> aware m) (window buffer channel) ->
  exists history,
    get_velocity_history buffer channel W now = Py.Ok history
    /\ history = map (history_point buffer channel now) (range_down (Z.to_nat W))
    /\ length history = Z.to_nat W
    /\ sum_list (map snd history)
       = length (stored_between buffer channel
                   (now - seconds (W + 1)) (now - seconds 1)).
Proof.
  intros Haware. eexists. split; [|split; [reflexivity|split]].
  - by apply velocity_history_ok.
  - by rewrite length_map, length_range_down.
  - rewrite history_sum. destruct (Z.le_gt_cases 0 W) as [Hw|Hw].
    + by rewrite Z2Nat.id by done.
    + replace (Z.of_nat (Z.to_nat W)) with 0 by lia.
      rewrite (stored_between_empty _ _ (now - seconds (0 + 1))) by (unfold seconds; lia).
      rewrite (stored_between_empty _ _ (now - seconds (W + 1))); [done|].
      unfold seconds. lia.
Qed.

(** X11 (velocity history, naive timestamp).  A stored message with a naive
    timestamp no older than [W + 1] seconds (read as UTC) is selected by
    the buffer query of the first point, and the comparison of its
    timestamp with the aware window bound raises: for [W > 0],
    [get_velocity_history] ends with that TypeError and returns no
    history. *)
Theorem velocity_history_naive (buffer : MessageBuffer.t) (channel : string) (W now : Z)
    (m : ChatMessage.t) :
  0 < W ->
  m ∈ window buffer channel ->
  tzinfo (ChatMessage.timestamp m) = None ->
  now - seconds (W + 1) <= wall (ChatMessage.timestamp m) ->
  m ∈ get_messages_since buffer channel (aware_utc (now - seconds (W + 1))) None
  /\ get_velocity_history buffer channel W now
     = Py.Raise (Py.Exception "can't compare offset-naive and offset-aware datetimes").
Proof.
  intros HW Hin Hnaive Hscope.
  assert (Hsel : m ∈ get_messages_since buffer channel
                       (aware_utc (now - seconds (W + 1))) None).
  { rewrite get_messages_since_filter. apply list_elem_of_In, filter_In.
    split; [by apply list_elem_of_In|]. apply not_before_true.
    unfold assume_utc at 2. rewrite Hnaive. by cbn [assume_utc aware_utc tzinfo instant wall]; lia. }
  split; [done|].
  unfold get_velocity_history.
  destruct (Z.to_nat W) as [|k] eqn:Hk; [lia|].
  cbn [range_down history_loop]. cbv zeta. rewrite !sub_aware_utc.
  replace (now - seconds (Z.of_nat (S k)) - seconds 1) with (now - seconds (W + 1))
    by (unfold seconds; lia).
  rewrite count_between_naive; [done|].
  apply Exists_exists. by exists m.
Qed.

End MetricsCalculatorMore.

(** ** The burst detector: retention, criterion, spacing, reset *)

Module HypeDetectorMore.

Import Deque HypeDetector HypeDetectorFacts.
Import MessageBufferMore MetricsCalculatorMore.

Lemma evict_old_suffix cutoff window : evict_old cutoff window `suffix_of` window.
Proof.
  induction window as [|[t0 v0] rest IH]; [done|]. cbn [evict_old].
  destruct (t0 <? cutoff); [by apply suffix_cons_r | done].
Qed.

Lemma evict_old_head cutoff window s rest :
  evict_old cutoff window = s :: rest -> cutoff <= fst s.
Proof.
  induction window as [|[t0 v0] w IH]; [done|]. cbn [evict_old].
  destruct (t0 <? cutoff) eqn:Ht; [done|]. intros [= <- _]. simpl. lia.
Qed.

Lemma evict_old_sorted cutoff window :
  StronglySorted Z.le (map fst window) ->
  evict_old cutoff window = List.filter (fun s => cutoff <=? fst s) window.
Proof.
  induction window as [|[t0 v0] w IH]; [done|]. cbn [evict_old map List.filter fst].
  intros [Hw Hall]%StronglySorted_inv.
  destruct (t0 <? cutoff) eqn:Ht.
  - rewrite (proj2 (Z.leb_gt _ _)) by lia. by apply IH.
  - rewrite (proj2 (Z.leb_le _ _)) by lia. f_equal.
    symmetry. apply filter_all.
    rewrite Forall_forall in Hall. apply Forall_forall. intros s Hs.
    apply Z.leb_le. assert (t0 <= fst s); [|lia].
    apply Hall. apply list_elem_of_In. apply in_map, list_elem_of_In, Hs.
Qed.

Lemma record_velocity_lookup self channel velocity now key :
  (forall d, _velocity_windows self !! channel = Some d -> maxlen d = None) ->
  _velocity_windows (record_velocity self channel velocity now) !! key
  = if decide (channel = key) then
      let old := default [] (items <$> _velocity_windows self !! channel) in
      Some (mk_deque (evict_old (now - Datetime.seconds (window_seconds self))
                        (old ++ [(now, velocity)])) None)
    else _velocity_windows self !! key.
Proof.
  intros Hunb. unfold record_velocity.
  destruct (_velocity_windows self !! channel) as [d|] eqn:Hd; cbv zeta.
  - rewrite Hd. cbn [set_windows _velocity_windows default fmap option_fmap option_map].
    destruct (decide (channel = key)) as [<-|Hne].
    + rewrite lookup_insert_eq. unfold append. by rewrite (Hunb d eq_refl).
    + by rewrite lookup_insert_ne.
  - rewrite lookup_insert_eq. cbn [set_windows _velocity_windows default].
    destruct (decide (channel = key)) as [<-|Hne].
    + by rewrite lookup_insert_eq.
    + by rewrite !lookup_insert_ne.
Qed.

Section Calls.

Variable sqrt : Qc -> Qc.

Lemma run_calls_snoc self calls c :
  run_calls sqrt self (calls ++ [c]) = step sqrt (run_calls sqrt self calls) c.
Proof. unfold run_calls. by rewrite fold_left_app. Qed.

Lemma check_for_hype_windows self channel v emotes now :
  _velocity_windows (snd (check_for_hype sqrt self channel v emotes now))
  = _velocity_windows self
  /\ window_seconds (snd (check_for_hype sqrt self channel v emotes now))
     = window_seconds self
  /\ cooldown_seconds (snd (check_for_hype sqrt self channel v emotes now))
     = cooldown_seconds self.
Proof.
  pose proof (check_for_hype_state sqrt self channel v emotes now) as H.
  destruct (fst (check_for_hype sqrt self channel v emotes now)) as [[ev|]|e];
    by rewrite H.
Qed.

Lemma record_velocity_params self channel v now :
  window_seconds (record_velocity self channel v now) = window_seconds self
  /\ cooldown_seconds (record_velocity self channel v now) = cooldown_seconds self
  /\ _last_hype (record_velocity self channel v now) = _last_hype self.
Proof.
  unfold record_velocity.
  destruct (_velocity_windows self !! channel); simpl.
  - by destruct (_ !! channel).
  - by rewrite lookup_insert_eq.
Qed.

Lemma record_velocity_unbounded self channel v now :
  unbounded self -> unbounded (record_velocity self channel v now).
Proof.
  intros Hu key d. rewrite record_velocity_lookup by apply Hu.
  destruct (decide (channel = key)); [by intros [= <-] | apply Hu].
Qed.

Lemma step_params acc c :
  window_seconds (snd (step sqrt acc c)) = window_seconds (snd acc)
  /\ cooldown_seconds (snd (step sqrt acc c)) = cooldown_seconds (snd acc).
Proof.
  destruct c as [ch v now|ch v emotes now|ch]; cbn [step snd].
  - by destruct (record_velocity_params (snd acc) ch v now) as (? & ? & _).
  - pose proof (check_for_hype_windows (snd acc) ch v emotes now) as (_ & ? & ?).
    by destruct (fst (check_for_hype sqrt (snd acc) ch v emotes now)) as [[ev|]|e].
  - done.
Qed.

Lemma step_unbounded acc c : unbounded (snd acc) -> unbounded (snd (step sqrt acc c)).
Proof.
  intros Hu. destruct c as [ch v now|ch v emotes now|ch]; cbn [step snd].
  - by apply record_velocity_unbounded.
  - pose proof (check_for_hype_windows (snd acc) ch v emotes now) as (Hw & _).
    assert (unbounded (snd (check_for_hype sqrt (snd acc) ch v emotes now))).
    { intros key d. rewrite Hw. apply Hu. }
    by destruct (fst (check_for_hype sqrt (snd acc) ch v emotes now)) as [[ev|]|e].
  - intros key d. cbn [reset_channel _velocity_windows].
    intros [_ Hd]%lookup_delete_Some. by apply (Hu key).
Qed.

Lemma run_calls_invariant self calls :
  unbounded self ->
  unbounded (snd (run_calls sqrt self calls))
  /\ window_seconds (snd (run_calls sqrt self calls)) = window_seconds self
  /\ cooldown_seconds (snd (run_calls sqrt self calls)) = cooldown_seconds self.
Proof.
  intros Hu. induction calls as [|c calls IH] using rev_ind; [done|].
  rewrite run_calls_snoc. destruct IH as (IHu & IHw & IHc).
  split; [by apply step_unbounded|].
  destruct (step_params (run_calls sqrt self calls) c) as [-> ->]. done.
Qed.

Lemma filter_sorted (f : Z * Qc -> bool) (l : list (Z * Qc)) :
  StronglySorted Z.le (map fst l) -> StronglySorted Z.le (map fst (List.filter f l)).
Proof.
  induction l as [|x l IH]; [done|]. cbn [map List.filter].
  intros [Hl Hx]%StronglySorted_inv. destruct (f x); [|by apply IH].
  cbn [map]. constructor; [by apply IH|].
  rewrite Forall_forall in Hx. apply Forall_forall. intros t Ht.
  apply Hx. apply list_elem_of_fmap in Ht as (s & -> & Hs).
  apply list_elem_of_fmap. exists s. split; [done|].
  apply list_elem_of_In in Hs. apply filter_In in Hs as [Hs _].
  by apply list_elem_of_In.
Qed.

Lemma retained_snoc W samples t v :
  StronglySorted Z.le (map fst (samples ++ [(t, v)])) ->
  evict_old (t - Datetime.seconds W) (retained W samples ++ [(t, v)])
  = retained W (samples ++ [(t, v)]).
Proof.
  intros Hsorted. rewrite map_app in Hsorted.
  apply StronglySorted_app in Hsorted as (Hle & Hs & _).
  assert (Hle' : forall s, s ∈ samples -> fst s <= t).
  { intros s Hs'. apply Hle; [|simpl; left].
    apply list_elem_of_fmap. by exists s. }
  assert (Hsub : StronglySorted Z.le (map fst (retained W samples ++ [(t, v)]))).
  { rewrite map_app. apply StronglySorted_app. split; [|split].
    - intros x1 x2 Hx1 ->%list_elem_of_singleton.
      apply list_elem_of_fmap in Hx1 as (s & -> & Hs1). apply Hle'.
      unfold retained in Hs1. destruct (last samples); [|by apply elem_of_nil in Hs1].
      apply list_elem_of_In in Hs1. apply filter_In in Hs1 as [Hs1 _].
      by apply list_elem_of_In.
    - unfold retained. destruct (last samples); [|constructor].
      by apply filter_sorted.
    - repeat constructor. }
  rewrite evict_old_sorted by done.
  unfold retained at 2. rewrite last_snoc. cbn [fst].
  rewrite !List.filter_app. f_equal.
  unfold retained. destruct (last samples) as [s_last|] eqn:Hlast.
  - rewrite filter_filter_implied; [done|]. intros s.
    rewrite !Z.leb_le. intros Hs'.
    assert (fst s_last <= t); [|lia].
    apply Hle'. apply last_Some in Hlast as [l' ->].
    apply elem_of_app. right. by apply list_elem_of_singleton.
  - apply last_None in Hlast. by subst.
Qed.

Lemma recorded_snoc channel calls c :
  recorded channel (calls ++ [c])
  = recorded channel calls
    ++ match c with
       | Record channel' v now => if decide (channel' = channel) then [(now, v)] else []
       | _ => []
       end.
Proof. unfold recorded. rewrite flat_map_app. simpl. by rewrite app_nil_r. Qed.

Lemma no_reset_snoc calls c :
  no_reset (calls ++ [c]) ->
  no_reset calls /\ match c with Reset _ => False | _ => True end.
Proof. unfold no_reset. rewrite Forall_app, Forall_singleton. done. Qed.

Lemma run_calls_window self calls channel :
  unbounded self -> _velocity_windows self !! channel = None ->
  no_reset calls ->
  StronglySorted Z.le (map fst (recorded channel calls)) ->
  _velocity_windows (snd (run_calls sqrt self calls)) !! channel
  = match recorded channel calls with
    | [] => None
    | _ => Some (mk_deque (retained (window_seconds self) (recorded channel calls)) None)
    end.
Proof.
  intros Hu Hnone. induction calls as [|c calls IH] using rev_ind; [done|].
  intros [Hnr Hc]%no_reset_snoc. rewrite recorded_snoc, run_calls_snoc.
  destruct (run_calls_invariant self calls Hu) as (Hu' & HW & _).
  destruct c as [ch v now|ch v emotes now|ch]; [| |done].
  - cbn [step snd]. rewrite record_velocity_lookup by apply Hu'.
    destruct (decide (ch = channel)) as [->|Hne].
    + intros Hsorted. cbv zeta.
      assert (Hs : StronglySorted Z.le (map fst (recorded channel calls))).
      { rewrite map_app in Hsorted. by apply StronglySorted_app in Hsorted as (_ & ? & _). }
      rewrite (IH Hnr Hs), HW.
      assert (Hold : default [] (items <$>
                match recorded channel calls with
                | [] => None
                | _ => Some (mk_deque (retained (window_seconds self)
                                         (recorded channel calls)) None)
                end) = retained (window_seconds self) (recorded channel calls)).
      { by destruct (recorded channel calls). }
      rewrite Hold, retained_snoc by done.
      by destruct (recorded channel calls).
    + rewrite app_nil_r. apply IH, Hnr.
  - rewrite app_nil_r. intros Hsorted. rewrite <- (IH Hnr Hsorted).
    cbn [step]. cbv zeta.
    pose proof (check_for_hype_windows (snd (run_calls sqrt self calls)) ch v emotes now)
      as (Hw & _).
    destruct (fst (check_for_hype sqrt (snd (run_calls sqrt self calls)) ch v emotes now))
      as [[ev|]|e]; cbn [snd]; by rewrite Hw.
Qed.

(** X12 (velocity window).  On a detector made with window [W], after any
    run of [record_velocity] and [check_for_hype] calls in which the clock
    readings of the recordings for [channel] never go back: the window of
    the channel holds exactly the recorded samples taken no earlier than
    [W] seconds before the last one, in recording order (and there is no
    window before the first recording).  Every retained sample is a
    recorded one within [W] seconds of the last; for [W >= 0] the sample
    just recorded is the newest of the window, so a check that follows
    sees it in its baseline; for [W < 0] the window stays empty. *)
Theorem velocity_window (W : Z) (th : Qc) (cd : Z) (mv : Qc) (calls : list call)
    (channel : string) :
  no_reset calls ->
  StronglySorted Z.le (map fst (recorded channel calls)) ->
  let self := snd (run_calls sqrt (init W th cd mv) calls) in
  let samples := recorded channel calls in
  items <$> _velocity_windows self !! channel
  = match samples with [] => None | _ => Some (retained W samples) end
  /\ (forall s s_last, s ∈ retained W samples -> last samples = Some s_last ->
       s ∈ samples /\ fst s_last - Datetime.seconds W <= fst s <= fst s_last)
  /\ (0 <= W -> last (retained W samples) = last samples)
  /\ (W < 0 -> retained W samples = []).
Proof.
  intros Hnr Hsorted self samples.
  assert (Hle : forall s s_last, s ∈ samples -> last samples = Some s_last ->
                fst s <= fst s_last).
  { intros s s_last Hs [l' Hl']%last_Some. fold samples in Hsorted.
    rewrite Hl' in Hs, Hsorted. apply elem_of_app in Hs as [Hs| ->%list_elem_of_singleton]; [|lia].
    rewrite map_app in Hsorted. apply StronglySorted_app in Hsorted as (Hlt & _ & _).
    apply Hlt; [|simpl; left]. apply list_elem_of_fmap. by exists s. }
  split; [|split; [|split]].
  - subst self. rewrite run_calls_window; [|done|done|done|done].
    cbn [init window_seconds]. fold samples. by destruct samples.
  - intros s s_last Hs Hlast. unfold retained in Hs. rewrite Hlast in Hs.
    apply list_elem_of_In, filter_In in Hs as [Hs Hcut%Z.leb_le].
    apply list_elem_of_In in Hs. split; [done|]. split; [done|]. by apply Hle.
  - intros HW. unfold retained. destruct (last samples) as [s_last|] eqn:Hlast; [|done].
    apply last_Some in Hlast as [l' ->]. rewrite List.filter_app. cbn [List.filter].
    rewrite (proj2 (Z.leb_le _ _)) by (unfold Datetime.seconds; lia).
    by rewrite last_snoc.
  - intros HW. unfold retained. destruct (last samples) as [s_last|] eqn:Hlast; [|done].
    induction samples as [|s l IH] in Hle |- *; [done|]. cbn [List.filter].
    rewrite (proj2 (Z.leb_gt _ _)).
    + clear IH. induction l as [|s' l IH]; [done|]. cbn [List.filter].
      rewrite (proj2 (Z.leb_gt _ _)).
      * apply IH. intros x x_last Hx Hl. apply Hle; [|done]. 
        apply elem_of_cons in Hx as [->|Hx]; [left|right; by right].
      * assert (fst s' <= fst s_last) by (apply Hle; [right; left|done]).
        unfold Datetime.seconds. lia.
    + assert (fst s <= fst s_last) by (apply Hle; [left|done]).
      unfold Datetime.seconds. lia.
Qed.

Lemma in_cooldown_false self channel now last :
  in_cooldown self channel now = false ->
  _last_hype self !! channel = Some last ->
  last + Datetime.seconds (cooldown_seconds self) <= now.
Proof.
  unfold in_cooldown. intros Hcd Hlast. rewrite Hlast in Hcd.
  apply bool_decide_eq_false_1 in Hcd. rewrite NumFacts.total_seconds_lt in Hcd.
  unfold Datetime.seconds. lia.
Qed.

(** What an event tells about the call that returned it. *)
Lemma check_for_hype_event self channel v emotes now ev :
  fst (check_for_hype sqrt self channel v emotes now) = Py.Ok (Some ev) ->
  in_cooldown self channel now = false
  /\ (min_velocity self <= v)%Qc
  /\ (exists th, threshold_of sqrt self channel = Some th /\ (th < v)%Qc)
  /\ (exists window, _velocity_windows self !! channel = Some window
        /\ (10 <= length (items window))%nat)
  /\ HypeEvent.channel ev = channel
  /\ HypeEvent.timestamp ev = Datetime.naive now
  /\ HypeEvent.velocity ev = v
  /\ HypeEvent.top_emotes ev = or_empty emotes
  /\ snd (check_for_hype sqrt self channel v emotes now)
     = set_last_hype self (<[channel := now]> (_last_hype self)).
Proof.
  unfold check_for_hype, threshold_of.
  destruct (in_cooldown self channel now); [done|].
  destruct (decide (v < min_velocity self)%Qc) as [|Hmin%Qcnot_lt_le]; [done|].
  destruct (_velocity_windows self !! channel) as [window|]; [|done].
  destruct (length (items window) <? 10)%nat eqn:Hlen; [done|].
  apply Nat.ltb_ge in Hlen.
  destruct (baseline sqrt (map snd (items window))) as [[[mean std]|]|e]; try done.
  destruct (decide (_ < v)%Qc) as [Hth|]; [|done].
  destruct (decide (0 < mean)%Qc) as [Hpos|Hnpos].
  - rewrite NumFacts.div_pos by done. cbn [fst snd]. intros [= <-].
    repeat split; eauto.
  - cbn [fst snd]. intros [= <-]. repeat split; eauto.
Qed.

(** X13 (detection criterion).  [check_for_hype] never raises, and returns
    an event exactly when the channel is not in cooldown, the velocity is
    at least [min_velocity], and the velocity is above the threshold of
    the channel (which needs ten retained samples).  The event carries the
    channel, the clock reading, the velocity and the emotes of the call
    (none given: the empty list), and its [baseline_mean] is the mean that
    [get_baseline] reports. *)
Theorem detection_criterion (self : HypeDetector.t) (channel : string) (v : Qc)
    (emotes : option (list (string * nat))) (now : Z) :
  let out := check_for_hype sqrt self channel v emotes now in
  ((exists ev, fst out = Py.Ok (Some ev)) <->
     in_cooldown self channel now = false
     /\ (min_velocity self <= v)%Qc
     /\ exists th, threshold_of sqrt self channel = Some th /\ (th < v)%Qc)
  /\ (fst out = Py.Ok None \/ exists ev, fst out = Py.Ok (Some ev))
  /\ (forall ev, fst out = Py.Ok (Some ev) ->
       HypeEvent.channel ev = channel
       /\ HypeEvent.timestamp ev = Datetime.naive now
       /\ HypeEvent.velocity ev = v
       /\ HypeEvent.top_emotes ev = or_empty emotes
       /\ (exists window, _velocity_windows self !! channel = Some window
             /\ (10 <= length (items window))%nat)
       /\ HypeEvent.baseline_mean ev = fst (get_baseline sqrt self channel)).
Proof.
  intros out. subst out. split; [split|split].
  - intros [ev Hev]. apply check_for_hype_event in Hev as (? & ? & ? & _). done.
  - intros (Hcd & Hmin & th & Hth & Hv).
    destruct (check_for_hype_above sqrt self channel v emotes now th Hcd Hmin Hth Hv)
      as (ev & -> & _). by exists ev.
  - destruct (check_for_hype_total sqrt self channel v emotes now) as [[ev|] Hr];
      [right; by exists ev | by left].
  - intros ev Hev. pose proof (check_for_hype_event _ _ _ _ _ _ Hev)
      as (_ & _ & _ & Hwin & Hc & Ht & Hv & He & _).
    repeat (split; [done|]).
    revert Hev. unfold check_for_hype, get_baseline, baseline.
    destruct (in_cooldown self channel now); [done|].
    destruct (decide (v < min_velocity self)%Qc); [done|].
    destruct (_velocity_windows self !! channel) as [window|]; [|done].
    destruct (length (items window) <? 10)%nat eqn:Hlen; [done|].
    apply Nat.ltb_ge in Hlen.
    rewrite (proj2 (Nat.ltb_ge _ 2)) by lia.
    rewrite length_map. rewrite (proj2 (Nat.ltb_lt 1 _)) by lia.
    destruct (Statistics.mean (map snd (items window))) as [mean|[]]; try done.
    destruct (Statistics.stdev sqrt (map snd (items window))) as [std|[]]; try done.
    destruct (decide (_ < v)%Qc); [|done].
    destruct (decide (0 < mean)%Qc).
    + rewrite NumFacts.div_pos by done. by intros [= <-].
    + by intros [= <-].
Qed.

Lemma step_events acc c :
  fst (step sqrt acc c) = fst acc
  \/ exists channel v emotes now ev,
       c = Check channel v emotes now
       /\ fst (check_for_hype sqrt (snd acc) channel v emotes now) = Py.Ok (Some ev)
       /\ step sqrt acc c
          = (fst acc ++ [ev],
             set_last_hype (snd acc) (<[channel := now]> (_last_hype (snd acc)))).
Proof.
  destruct c as [ch v now|ch v emotes now|ch]; [by left| |by left].
  cbn [step]. cbv zeta.
  destruct (fst (check_for_hype sqrt (snd acc) ch v emotes now)) as [[ev|]|e] eqn:Hev;
    [|by left|by left].
  right. exists ch, v, emotes, now, ev. split; [done|]. split; [done|].
  by rewrite (proj2 (proj2 (proj2 (proj2 (proj2 (proj2 (proj2 (proj2
       (check_for_hype_event _ _ _ _ _ _ Hev))))))))).
Qed.

Lemma step_last_hype acc c :
  fst (step sqrt acc c) = fst acc ->
  match c with Reset _ => False | _ => True end ->
  _last_hype (snd (step sqrt acc c)) = _last_hype (snd acc).
Proof.
  destruct c as [ch v now|ch v emotes now|ch]; [| |done]; cbn [step]; cbv zeta.
  - intros _ _. by destruct (record_velocity_params (snd acc) ch v now) as (_ & _ & ?).
  - pose proof (check_for_hype_state sqrt (snd acc) ch v emotes now) as Hst.
    destruct (fst (check_for_hype sqrt (snd acc) ch v emotes now)) as [[ev|]|e];
      cbn [fst snd]; intros Heq _.
    + exfalso. apply (f_equal length) in Heq. rewrite length_app in Heq. simpl in Heq. lia.
    + by rewrite Hst.
    + by rewrite Hst.
Qed.

(** X14 (alert spacing).  With a cooldown that is not negative, in any run
    of [record_velocity] and [check_for_hype] calls, from any detector
    state: of two events returned for the same channel, the later one is
    stamped at least [cooldown_seconds] after the earlier one. *)
Theorem alert_spacing (self : HypeDetector.t) (calls : list call) :
  no_reset calls ->
  0 <= cooldown_seconds self ->
  let events := fst (run_calls sqrt self calls) in
  forall (i j : nat) (e1 e2 : HypeEvent.t),
    (i < j)%nat -> events !! i = Some e1 -> events !! j = Some e2 ->
    HypeEvent.channel e1 = HypeEvent.channel e2 ->
    Datetime.wall (HypeEvent.timestamp e1) + Datetime.seconds (cooldown_seconds self)
    <= Datetime.wall (HypeEvent.timestamp e2).
Proof.
  intros Hnr Hcd. cbv zeta.
  set (spaced := fun events : list HypeEvent.t =>
    forall (i j : nat) e1 e2, (i < j)%nat -> events !! i = Some e1 -> events !! j = Some e2 ->
      HypeEvent.channel e1 = HypeEvent.channel e2 ->
      Datetime.wall (HypeEvent.timestamp e1) + Datetime.seconds (cooldown_seconds self)
      <= Datetime.wall (HypeEvent.timestamp e2)).
  set (known := fun acc : list HypeEvent.t * HypeDetector.t =>
    forall e, e ∈ fst acc -> exists last,
      _last_hype (snd acc) !! HypeEvent.channel e = Some last
      /\ Datetime.wall (HypeEvent.timestamp e) <= last).
  assert (Hinv : spaced (fst (run_calls sqrt self calls))
                 /\ known (run_calls sqrt self calls)
                 /\ cooldown_seconds (snd (run_calls sqrt self calls))
                    = cooldown_seconds self).
  { induction calls as [|c calls IH] using rev_ind.
    - unfold run_calls. cbn [fold_left fst snd].
      split; [intros i j e1 e2 _ Hi; by rewrite lookup_nil in Hi|].
      split; [intros e He; by apply elem_of_nil in He | done].
    - apply no_reset_snoc in Hnr as [Hnr Hc]. destruct (IH Hnr) as (Hsp & Hkn & Hcds).
      rewrite run_calls_snoc. set (acc := run_calls sqrt self calls) in *.
      destruct (step_params acc c) as [_ Hcd'].
      split; [|split; [|by rewrite Hcd']].
      + destruct (step_events acc c) as [Heq|(ch & v & emotes & now & ev & -> & Hev & ->)];
          [by rewrite Heq|].
        cbn [fst]. intros i j e1 e2 Hij Hi Hj Hch.
        apply lookup_lt_Some in Hi as Hilt. rewrite length_app in Hilt. simpl in Hilt.
        apply lookup_lt_Some in Hj as Hjlt. rewrite length_app in Hjlt. simpl in Hjlt.
        rewrite lookup_app_l in Hi by lia.
        destruct (decide (j < length (fst acc))%nat) as [Hjold|Hjnew].
        * rewrite lookup_app_l in Hj by lia. by apply (Hsp i j).
        * rewrite lookup_app_r in Hj by lia.
          replace (j - length (fst acc))%nat with 0%nat in Hj by lia.
          injection Hj as <-.
          apply check_for_hype_event in Hev
            as (Hcool & _ & _ & _ & Hevc & Hevt & _).
          rewrite Hevt. cbn [Datetime.naive Datetime.wall].
          destruct (Hkn e1) as (last & Hlast & Hle); [by eapply list_elem_of_lookup_2|].
          rewrite Hch, Hevc in Hlast.
          pose proof (in_cooldown_false _ _ _ _ Hcool Hlast) as Hnow.
          rewrite Hcds in Hnow. lia.
      + destruct (step_events acc c) as [Heq|(ch & v & emotes & now & ev & -> & Hev & ->)].
        * intros e He. rewrite Heq in He. destruct (Hkn e He) as (last & Hlast & Hle).
          exists last. by rewrite step_last_hype.
        * intros e He. cbn [fst snd set_last_hype _last_hype] in He |- *.
          apply check_for_hype_event in Hev
            as (Hcool & _ & _ & _ & Hevc & Hevt & _).
          destruct (decide (HypeEvent.channel e = ch)) as [Hsame|Hother].
          -- exists now. rewrite Hsame, lookup_insert_eq. split; [done|].
             apply elem_of_app in He as [He| ->%list_elem_of_singleton].
             ++ destruct (Hkn e He) as (last & Hlast & Hle). rewrite Hsame in Hlast.
                pose proof (in_cooldown_false _ _ _ _ Hcool Hlast) as Hnow.
                rewrite Hcds in Hnow. unfold Datetime.seconds in *. lia.
             ++ rewrite Hevt. simpl. lia.
          -- apply elem_of_app in He as [He| ->%list_elem_of_singleton]; [|done].
             destruct (Hkn e He) as (last & Hlast & Hle). exists last.
             by rewrite lookup_insert_ne. }
  apply Hinv.
Qed.

(** X15 (reset).  After [reset_channel] the channel has no window and no
    last burst time: [get_baseline] gives (0, 0) and [check_for_hype]
    returns none for every velocity at every time.  The other channels
    keep their window, their last burst time, their baseline and the
    outcome of every check.  The next recording starts a fresh window
    holding that one sample. *)
Theorem reset_channel_forgets (self : HypeDetector.t) (channel : string) :
  let self' := reset_channel self channel in
  _velocity_windows self' !! channel = None
  /\ _last_hype self' !! channel = None
  /\ get_baseline sqrt self' channel = (0%Qc, 0%Qc)
  /\ (forall v emotes now,
       check_for_hype sqrt self' channel v emotes now = (Py.Ok None, self'))
  /\ (forall c', c' <> channel ->
       _velocity_windows self' !! c' = _velocity_windows self !! c'
       /\ _last_hype self' !! c' = _last_hype self !! c'
       /\ get_baseline sqrt self' c' = get_baseline sqrt self c'
       /\ forall v emotes now,
            fst (check_for_hype sqrt self' c' v emotes now)
            = fst (check_for_hype sqrt self c' v emotes now))
  /\ (forall v now,
       0 <= window_seconds self ->
       _velocity_windows (record_velocity self' channel v now) !! channel
       = Some (mk_deque [(now, v)] None)).
Proof.
  intros self'.
  assert (Hw : _velocity_windows self' !! channel = None) by apply lookup_delete_eq.
  assert (Hl : _last_hype self' !! channel = None) by apply lookup_delete_eq.
  split; [done|]. split; [done|]. split; [|split; [|split]].
  - unfold get_baseline. by rewrite Hw.
  - intros v emotes now. unfold check_for_hype, in_cooldown. rewrite Hl, Hw.
    by destruct (decide _).
  - intros c' Hc'.
    assert (Hw' : _velocity_windows self' !! c' = _velocity_windows self !! c')
      by (by apply lookup_delete_ne).
    assert (Hl' : _last_hype self' !! c' = _last_hype self !! c')
      by (by apply lookup_delete_ne).
    split; [done|]. split; [done|]. split.
    + unfold get_baseline. by rewrite Hw'.
    + intros v emotes now. unfold check_for_hype, in_cooldown. rewrite Hl', Hw'.
      cbn [reset_channel cooldown_seconds min_velocity threshold_std].
      destruct (_last_hype self !! c') as [last|].
      * destruct (bool_decide _); [done|].
        destruct (decide _); [done|].
        destruct (_velocity_windows self !! c') as [window|]; [|done].
        destruct (_ <? 10)%nat; [done|].
        destruct (baseline sqrt _) as [[[mean std]|]|e]; try done.
        destruct (decide (_ < v)%Qc); [|done].
        by destruct (if decide (0 < mean)%Qc then _ else _).
      * destruct (decide _); [done|].
        destruct (_velocity_windows self !! c') as [window|]; [|done].
        destruct (_ <? 10)%nat; [done|].
        destruct (baseline sqrt _) as [[[mean std]|]|e]; try done.
        destruct (decide (_ < v)%Qc); [|done].
        by destruct (if decide (0 < mean)%Qc then _ else _).
  - intros v now HW. unfold record_velocity. rewrite Hw. cbv zeta.
    rewrite lookup_insert_eq. cbn [set_windows _velocity_windows].
    rewrite lookup_insert_eq. cbn [append empty items maxlen app evict_old].
    rewrite (proj2 (Z.ltb_ge _ _)); [done|].
    subst self'. cbn [reset_channel window_seconds]. unfold Datetime.seconds. lia.
Qed.

End Calls.

End HypeDetectorMore.

(** ** The registries: connections and broadcasts *)

Module WebsocketsMore.

Import Websockets WebsocketsFacts.

Lemma manager_eq (a b : ConnectionManager) :
  active_connections a = active_connections b -> a = b.
Proof. destruct a, b. simpl. by intros ->. Qed.

Lemma size_remove (A : gset nat) (x : nat) : x ∈ A -> S (size (A ∖ {[x]})) = size A.
Proof.
  intros Hin.
  assert (Heq : A = {[x]} ∪ (A ∖ {[x]})).
  { apply set_eq. intros y. destruct (decide (y = x)); set_solver. }
  rewrite Heq at 2.
  rewrite (size_union (C:=gset nat) {[x]} (A ∖ {[x]})) by set_solver.
  by rewrite size_singleton.
Qed.

(** X16 (registry).  [connect] (once accepted) and [disconnect] act on a
    set: connecting a new socket raises [client_count] by one, connecting a
    registered one changes nothing; disconnecting a registered socket
    lowers the count by one, disconnecting an unknown one changes nothing
    (and raises nothing); both are idempotent, a disconnect undoes the
    connect of a new socket, and neither touches another socket. *)
Theorem registry_lifecycle (self : ConnectionManager) (ws : WebSocket) :
  (ws ∉ active_connections self -> client_count (connect self ws) = S (client_count self))
  /\ (ws ∈ active_connections self -> connect self ws = self)
  /\ (ws ∈ active_connections self ->
      S (client_count (disconnect self ws)) = client_count self)
  /\ (ws ∉ active_connections self -> disconnect self ws = self)
  /\ disconnect (disconnect self ws) ws = disconnect self ws
  /\ connect (connect self ws) ws = connect self ws
  /\ (ws ∉ active_connections self -> disconnect (connect self ws) ws = self)
  /\ (ws ∈ active_connections (connect self ws))
  /\ (ws ∉ active_connections (disconnect self ws))
  /\ (forall ws', ws' <> ws ->
        ((ws' ∈ active_connections (connect self ws)) <-> (ws' ∈ active_connections self))
        /\ ((ws' ∈ active_connections (disconnect self ws))
            <-> (ws' ∈ active_connections self))).
Proof.
  unfold client_count, connect, disconnect. cbn [active_connections].
  split; [|split; [|split; [|split; [|split; [|split; [|split; [|split; [|split]]]]]]]].
  - intros Hnew. rewrite size_union by set_solver. by rewrite size_singleton.
  - intros Hin. apply manager_eq. simpl. set_solver.
  - intros Hin.
    by apply size_remove.
  - intros Hnew. apply manager_eq. simpl. set_solver.
  - apply manager_eq. simpl. set_solver.
  - apply manager_eq. simpl. set_solver.
  - intros Hnew. apply manager_eq. simpl. set_solver.
  - set_solver.
  - set_solver.
  - intros ws' Hne. set_solver.
Qed.


End WebsocketsMore.

(** ** The configured lists *)

Module ConfigFacts.

Import Config.

Lemma split_nonempty sep s : split sep s <> [].
Proof.
  destruct s as [|c rest]; [done|]. cbn [split].
  destruct (Ascii.eqb c sep); [done|]. by destruct (split sep rest).
Qed.

Lemma split_app sep a b :
  split sep (a ++ String sep b) = split sep a ++ split sep b.
Proof.
  induction a as [|c a IH]; simpl.
  - by rewrite Ascii.eqb_refl.
  - destruct (Ascii.eqb c sep); [by rewrite IH|]. rewrite IH.
    pose proof (split_nonempty sep a). by destruct (split sep a).
Qed.

Lemma split_plain sep s : occurs sep s = false -> split sep s = [s].
Proof.
  induction s as [|c s IH]; [done|]. cbn [occurs split].
  intros [Hc Hs]%orb_false_elim. rewrite Hc. by rewrite IH.
Qed.

Lemma split_fields sep s : Forall (fun x => occurs sep x = false) (split sep s).
Proof.
  induction s as [|c s IH]; cbn [split]; [by repeat constructor|].
  destruct (Ascii.eqb c sep) eqn:Hc; [by constructor|].
  pose proof (split_nonempty sep s) as Hne.
  destruct (split sep s) as [|field fields]; [done|].
  apply Forall_cons in IH as [Hf Hfs]. constructor; [|done].
  cbn [occurs]. by rewrite Hc, Hf.
Qed.

Lemma occurs_lstrip c s : occurs c (lstrip s) = true -> occurs c s = true.
Proof.
  induction s as [|c' s IH]; [done|]. cbn [lstrip].
  destruct (is_space c'); [|done]. intros H%IH. cbn [occurs]. rewrite H.
  apply orb_true_r.
Qed.

Lemma occurs_rstrip c s : occurs c (rstrip s) = true -> occurs c s = true.
Proof.
  induction s as [|c' s IH]; [done|]. cbn [rstrip occurs].
  destruct (rstrip s) as [|k kept] eqn:Hk.
  - destruct (is_space c'); [done|]. cbn [occurs]. rewrite orb_false_r.
    intros ->. done.
  - cbn [occurs] in *. intros [->|H]%orb_true_iff; [done|].
    rewrite IH by done. apply orb_true_r.
Qed.

Lemma occurs_strip c s : occurs c s = false -> occurs c (strip s) = false.
Proof.
  intros Hs. destruct (occurs c (strip s)) eqn:H; [|done].
  apply occurs_rstrip, occurs_lstrip in H. congruence.
Qed.

Lemma rstrip_idemp s : rstrip (rstrip s) = rstrip s.
Proof.
  induction s as [|c s IH]; [done|]. cbn [rstrip].
  destruct (rstrip s) as [|k kept] eqn:Hk.
  - destruct (is_space c) eqn:Hc; [done|]. cbn [rstrip]. by rewrite Hc.
  - cbn [rstrip]. cbn [rstrip] in IH. by rewrite IH.
Qed.

Lemma lstrip_head s :
  match lstrip s with
  | EmptyString => True
  | String c _ => is_space c = false
  end.
Proof.
  induction s as [|c s IH]; [done|]. cbn [lstrip].
  by destruct (is_space c) eqn:Hc.
Qed.

Lemma rstrip_head s :
  match s with
  | EmptyString => True
  | String c _ => is_space c = false
  end ->
  match rstrip s with
  | EmptyString => True
  | String c _ => is_space c = false
  end.
Proof.
  destruct s as [|c s]; [done|]. cbn [rstrip]. intros Hc.
  destruct (rstrip s); [by rewrite Hc|done].
Qed.

Lemma lstrip_clean s :
  match s with
  | EmptyString => True
  | String c _ => is_space c = false
  end -> lstrip s = s.
Proof. destruct s as [|c s]; [done|]. cbn [lstrip]. by intros ->. Qed.

Lemma strip_idemp s : strip (strip s) = strip s.
Proof.
  unfold strip. rewrite (lstrip_clean (rstrip (lstrip s))).
  - apply rstrip_idemp.
  - apply rstrip_head, lstrip_head.
Qed.

Lemma truthy_spec s : truthy s = true <-> s <> EmptyString.
Proof. by destruct s. Qed.

Lemma comma_list_app a b :
  comma_list (a ++ String "," b) = comma_list a ++ comma_list b.
Proof. unfold comma_list. by rewrite split_app, List.filter_app, map_app. Qed.

Lemma comma_list_clean name : clean name -> comma_list name = [name].
Proof.
  intros (Hne & Hcomma & Hstrip). unfold comma_list.
  rewrite split_plain by done. cbn [List.filter]. rewrite Hstrip.
  destruct name; [done|]. cbn [truthy map]. by rewrite Hstrip.
Qed.

Lemma comma_list_blank s :
  strip s = EmptyString -> occurs "," s = false -> comma_list s = [].
Proof.
  intros Hs Hc. unfold comma_list. rewrite split_plain by done.
  cbn [List.filter]. by rewrite Hs.
Qed.

(** X18 (configured lists).  [channels_list] and [cors_origins_list] return
    only clean names: not empty, without a comma, with no white space at
    either end.  Joining clean names with commas and reading the setting
    back gives the same names, in order and with repetitions.  The value
    is read field by field: the list of [a,b] is the list of [a] followed
    by the list of [b], so an empty or blank field, in front or at the end,
    adds nothing, and the empty setting gives the empty list. *)
Theorem configured_lists (value origins : string) :
  Forall clean (channels_list (mk_settings value origins))
  /\ Forall clean (cors_origins_list (mk_settings value origins))
  /\ (forall names, Forall clean names ->
        channels_list (mk_settings (join "," names) origins) = names
        /\ cors_origins_list (mk_settings value (join "," names)) = names)
  /\ (forall a b,
        channels_list (mk_settings (a ++ "," ++ b) origins)
        = channels_list (mk_settings a origins) ++ channels_list (mk_settings b origins))
  /\ (forall blank, strip blank = EmptyString -> occurs "," blank = false ->
        channels_list (mk_settings blank origins) = []
        /\ channels_list (mk_settings (value ++ "," ++ blank) origins)
           = channels_list (mk_settings value origins)
        /\ channels_list (mk_settings (blank ++ "," ++ value) origins)
           = channels_list (mk_settings value origins))
  /\ channels_list (mk_settings EmptyString origins) = [].
Proof.
  unfold channels_list, cors_origins_list. cbn [default_channels cors_origins].
  assert (Hclean : forall v, Forall clean (comma_list v)).
  { intros v. unfold comma_list. apply Forall_forall. intros name Hname.
    apply list_elem_of_fmap in Hname as (x & -> & Hx).
    apply list_elem_of_In, filter_In in Hx as [Hx Htruthy].
    split; [by apply truthy_spec|]. split; [|apply strip_idemp].
    apply occurs_strip.
    pose proof (split_fields "," v) as Hfields. rewrite Forall_forall in Hfields.
    by apply Hfields, list_elem_of_In. }
  assert (Hjoin : forall names, Forall clean names -> comma_list (join "," names) = names).
  { intros names Hnames. induction Hnames as [|name names Hname Hnames IH]; [done|].
    destruct names as [|name' names].
    - by apply comma_list_clean.
    - change (join "," (name :: name' :: names))
        with (name ++ String "," (join "," (name' :: names)))%string.
      by rewrite comma_list_app, IH, comma_list_clean. }
  split; [apply Hclean|]. split; [apply Hclean|].
  split; [intros names Hnames; split; by apply Hjoin|].
  split; [intros a b; apply comma_list_app|]. split; [|done].
  intros blank Hb Hc. split; [by apply comma_list_blank|].
  change ("," ++ blank)%string with (String "," blank).
  change ("," ++ value)%string with (String "," value).
  rewrite !comma_list_app, (comma_list_blank blank) by done.
  by rewrite app_nil_r.
Qed.

(** Blanks around the names and empty fields are dropped; the case of the
    names and their repetitions are kept. *)
Example channels_list_sample :
  channels_list (mk_settings " Shroud, xqc ,,shroud , " "")
  = ["Shroud"; "xqc"; "shroud"]
  /\ channels_list (mk_settings "jasontheween" "") = ["jasontheween"].
Proof. by vm_compute. Qed.

End ConfigFacts.

(** ** The loop on the services *)

Module PipelineFacts.

Import Py Websockets Pipeline.
Import WebsocketsFacts HypeDetectorFacts HypeDetectorMore MainFacts WebsocketsMore.
Open Scope py_scope.

Section Services.

Variable sqrt : Qc -> Qc.

Local Abbreviation process_channel := (Pipeline.process_channel sqrt).
Local Abbreviation iteration := (Pipeline.iteration sqrt).

Lemma fold_step_events calls evs detector :
  fold_left (HypeDetector.step sqrt) calls (evs, detector)
  = (evs ++ fst (HypeDetector.run_calls sqrt detector calls),
     snd (HypeDetector.run_calls sqrt detector calls)).
Proof.
  induction calls as [|c calls IH] using rev_ind.
  - unfold HypeDetector.run_calls. simpl. by rewrite app_nil_r.
  - rewrite run_calls_snoc, fold_left_app, IH. cbn [fold_left].
    destruct c as [ch v now|ch v emotes now|ch]; cbn [HypeDetector.step fst snd]; [done| |done].
    cbv zeta.
    destruct (fst (HypeDetector.check_for_hype sqrt _ ch v emotes now)) as [[ev|]|e];
      cbn [fst snd]; by rewrite ?app_assoc.
Qed.

Lemma run_calls_app detector calls1 calls2 :
  HypeDetector.run_calls sqrt detector (calls1 ++ calls2)
  = (fst (HypeDetector.run_calls sqrt detector calls1)
     ++ fst (HypeDetector.run_calls sqrt
               (snd (HypeDetector.run_calls sqrt detector calls1)) calls2),
     snd (HypeDetector.run_calls sqrt
            (snd (HypeDetector.run_calls sqrt detector calls1)) calls2)).
Proof.
  unfold HypeDetector.run_calls at 1. rewrite fold_left_app.
  fold (HypeDetector.run_calls sqrt detector calls1).
  destruct (HypeDetector.run_calls sqrt detector calls1) as [evs d1].
  by rewrite fold_step_events.
Qed.

(** The outcome of the body of the loop for one channel. *)
Lemma process_channel_spec channel w :
  let metrics := snapshot w channel in
  let v := ChannelMetrics.messages_per_second metrics in
  let recorded := HypeDetector.record_velocity (hype_detector w) channel v (clock w) in
  let out := HypeDetector.check_for_hype sqrt recorded channel v
               (Some (ChannelMetrics.top_emotes metrics)) (clock w) in
  let w1 := set_detector w (snd out) in
  let w2 :=
    match fst out with
    | Ok (Some event) =>
        if database_down w
        then logger_error ("Failed to save/broadcast hype event: " ++ "database is locked") w1
        else
          let sent := Websockets.broadcast_hype (hype_manager w) event (hype_peers w) in
          set_hype_side (set_database w1 (database w ++ [event]))
            (snd (fst sent)) (snd sent)
    | _ => w1
    end in
  let sent := Websockets.broadcast_metrics (ws_manager w) metrics (metrics_peers w) in
  process_channel channel w
  = (Ok tt, set_metrics_side w2 (snd (fst sent)) (snd sent)).
Proof.
  intros metrics v recorded out w1 w2 sent.
  unfold Pipeline.process_channel, Main.process_channel.
  unfold bind at 1. unfold calculate_metrics at 1. fold (snapshot w channel). fold metrics.
  unfold bind at 1. unfold record_velocity at 1. fold v. fold recorded.
  unfold bind at 1. unfold bind at 1. unfold check_for_hype at 1.
  cbn [hype_detector set_detector clock]. fold out.
  destruct (check_for_hype_total sqrt recorded channel v
              (Some (ChannelMetrics.top_emotes metrics)) (clock w)) as [r Hr].
  fold out in Hr. subst w2. rewrite Hr. cbn [fst].
  set (w0 := set_detector (set_detector w recorded) (snd out)).
  assert (Hw0 : w0 = w1) by done. clearbody w0. subst w0.
  destruct (broadcast_spec (ws_manager w) (MetricsPayload metrics) (metrics_peers w))
    as (net' & Hb & _).
  destruct r as [event|].
  - unfold Main.save_and_broadcast, try_except_Exception, bind, repo_create.
    change (database_down w1) with (database_down w).
    destruct (database_down w) eqn:Hdown.
    + cbn [is_Exception effect str]. unfold broadcast_metrics, effect.
      subst sent. unfold Websockets.broadcast_metrics in *.
      cbn [logger_error write_log ws_manager metrics_peers set_detector].
      change (ws_manager w1) with (ws_manager w).
      change (metrics_peers w1) with (metrics_peers w).
      rewrite Hb. done.
    + unfold broadcast_hype.
      destruct (broadcast_spec (hype_manager w) (HypePayload event) (hype_peers w))
        as (hnet' & Hh & _).
      unfold Websockets.broadcast_hype in *.
      cbn [hype_manager hype_peers set_database set_detector].
      change (hype_manager w1) with (hype_manager w).
      change (hype_peers w1) with (hype_peers w).
      rewrite Hh. cbn [fst snd].
      unfold broadcast_metrics. subst sent. unfold Websockets.broadcast_metrics in *.
      cbn [ws_manager metrics_peers set_hype_side set_database].
      change (ws_manager w1) with (ws_manager w).
      change (metrics_peers w1) with (metrics_peers w).
      rewrite Hb. done.
  - unfold ret, broadcast_metrics. subst sent. unfold Websockets.broadcast_metrics in *.
    change (ws_manager w1) with (ws_manager w).
    change (metrics_peers w1) with (metrics_peers w).
    rewrite Hb. done.
Qed.

(** Broadcasting one more message after the messages [sent]. *)
Lemma broadcast_delivered manager peers sent manager1 peers1 message :
  manager1 = pruned manager peers sent ->
  failing peers1 = failing peers ->
  (forall ws, inbox peers1 ws = delivered manager peers sent ws) ->
  fst (broadcast manager1 message peers1)
  = (Ok tt, pruned manager peers (sent ++ [message]))
  /\ failing (snd (broadcast manager1 message peers1)) = failing peers
  /\ forall ws, inbox (snd (broadcast manager1 message peers1)) ws
                = delivered manager peers (sent ++ [message]) ws.
Proof.
  intros Hm Hf Hin.
  destruct (broadcast_spec manager1 message peers1) as (net' & -> & Hf' & Hin').
  cbn [fst snd]. split; [|split].
  - f_equal. apply manager_eq. rewrite Hm, Hf. unfold pruned.
    destruct sent; simpl; [done|]. set_solver.
  - by rewrite Hf'.
  - intros ws. rewrite Hin', Hin, Hf, Hm. unfold delivered, pruned.
    destruct (decide (ws ∈ active_connections manager /\ ws ∉ failing peers))
      as [[Hreg Hok]|Hno].
    + rewrite decide_True; [by rewrite <- app_assoc|].
      destruct sent; cbn [active_connections]; set_solver.
    + rewrite decide_False; [done|].
      destruct sent; cbn [active_connections]; set_solver.
Qed.

Lemma detector_calls_snoc w channels channel :
  detector_calls w (channels ++ [channel])
  = detector_calls w channels ++ detector_calls w [channel].
Proof. unfold detector_calls. by rewrite flat_map_app. Qed.

Lemma run_calls_channel detector w channel :
  let v := ChannelMetrics.messages_per_second (snapshot w channel) in
  let recorded := HypeDetector.record_velocity detector channel v (clock w) in
  let out := HypeDetector.check_for_hype sqrt recorded channel v
               (Some (ChannelMetrics.top_emotes (snapshot w channel))) (clock w) in
  HypeDetector.run_calls sqrt detector (detector_calls w [channel])
  = (match fst out with Ok (Some event) => [event] | _ => [] end, snd out).
Proof.
  intros v recorded out. unfold HypeDetector.run_calls, detector_calls.
  cbn [flat_map app fold_left HypeDetector.step fst snd]. cbv zeta.
  fold v. fold recorded. fold out.
  by destruct (fst out) as [[event|]|e].
Qed.

(** The loop over the channels [channels], from the world [w]. *)
Lemma for_each_channels channels w :
  exists w1,
    for_each channels process_channel w = (Ok tt, w1)
    /\ settings w1 = settings w
    /\ message_buffer w1 = message_buffer w
    /\ clock w1 = clock w
    /\ database_down w1 = database_down w
    /\ hype_detector w1
       = snd (HypeDetector.run_calls sqrt (hype_detector w) (detector_calls w channels))
    /\ ws_manager w1
       = pruned (ws_manager w) (metrics_peers w)
           (map (fun c => MetricsPayload (snapshot w c)) channels)
    /\ failing (metrics_peers w1) = failing (metrics_peers w)
    /\ (forall ws, inbox (metrics_peers w1) ws
                   = delivered (ws_manager w) (metrics_peers w)
                       (map (fun c => MetricsPayload (snapshot w c)) channels) ws)
    /\ let events :=
         fst (HypeDetector.run_calls sqrt (hype_detector w) (detector_calls w channels)) in
       if database_down w then
         database w1 = database w
         /\ hype_manager w1 = hype_manager w
         /\ hype_peers w1 = hype_peers w
         /\ log w1
            = log w ++ map (fun _ => "ERROR Failed to save/broadcast hype event: database is locked")
                         events
       else
         database w1 = database w ++ events
         /\ hype_manager w1
            = pruned (hype_manager w) (hype_peers w) (map HypePayload events)
         /\ failing (hype_peers w1) = failing (hype_peers w)
         /\ (forall ws, inbox (hype_peers w1) ws
                        = delivered (hype_manager w) (hype_peers w)
                            (map HypePayload events) ws)
         /\ log w1 = log w.
Proof.
  induction channels as [|channel channels IH] using rev_ind.
  - exists w. split; [done|]. repeat (split; [done|]). split.
    { intros ws. unfold delivered. case_decide; [by rewrite app_nil_r|done]. }
    unfold HypeDetector.run_calls. cbn [detector_calls flat_map fold_left fst map].
    destruct (database_down w).
    + repeat (split; [done|]). by rewrite app_nil_r.
    + split; [by rewrite app_nil_r|]. repeat (split; [done|]). split; [|done].
      intros ws. unfold delivered. case_decide; [by rewrite app_nil_r|done].
  - destruct IH as (w1 & Hrun & Hset & Hbuf & Hclock & Hdown & Hdet & Hreg & Hfail
                    & Hinbox & Halert).
    rewrite (for_each_ok_app _ _ _ _ _ Hrun). cbn [for_each]. unfold bind at 1.
    rewrite process_channel_spec. cbv zeta.
    assert (Hsnap : snapshot w1 channel = snapshot w channel)
      by (unfold snapshot; by rewrite Hbuf, Hclock).
    rewrite Hsnap, Hclock.
    set (metrics := snapshot w channel).
    set (v := ChannelMetrics.messages_per_second metrics).
    set (recorded := HypeDetector.record_velocity (hype_detector w1) channel v (clock w)).
    set (out := HypeDetector.check_for_hype sqrt recorded channel v
                  (Some (ChannelMetrics.top_emotes metrics)) (clock w)).
    pose proof (run_calls_channel (hype_detector w1) w channel) as Hone.
    cbv zeta in Hone. fold metrics v recorded out in Hone.
    rewrite detector_calls_snoc, run_calls_app. rewrite <- Hdet, Hone. cbn [fst snd].
    rewrite map_app. cbn [map].
    destruct (broadcast_delivered (ws_manager w) (metrics_peers w)
                (map (fun c => MetricsPayload (snapshot w c)) channels)
                (ws_manager w1) (metrics_peers w1) (MetricsPayload metrics)
                Hreg Hfail Hinbox) as (Hb1 & Hb2 & Hb3).
    unfold Websockets.broadcast_metrics.
    eexists. split; [reflexivity|].
    set (events := fst (HypeDetector.run_calls sqrt (hype_detector w)
                          (detector_calls w channels))) in *.
    cbv zeta in Halert.
    destruct (fst out) as [[event|]|e] eqn:Hout.
    + (* an event *)
      destruct (database_down w) eqn:Hd; rewrite Hdown.
      * destruct Halert as (Hdb & Hhm & Hhp & Hlog).
        cbn [set_metrics_side logger_error write_log set_detector settings
             message_buffer clock database_down hype_detector ws_manager
             metrics_peers database hype_manager hype_peers log].
        rewrite Hb1. cbn [snd].
        repeat (split; [done|]).
        rewrite Hlog, map_app, app_assoc. done.
      * destruct Halert as (Hdb & Hhm & Hhf & Hhin & Hlog).
        destruct (broadcast_delivered (hype_manager w) (hype_peers w)
                    (map HypePayload events)
                    (hype_manager w1) (hype_peers w1) (HypePayload event)
                    Hhm Hhf Hhin) as (Hh1 & Hh2 & Hh3).
        unfold Websockets.broadcast_hype.
        cbn [set_metrics_side set_hype_side set_database set_detector settings
             message_buffer clock database_down hype_detector ws_manager
             metrics_peers database hype_manager hype_peers log].
        rewrite Hb1, Hh1. cbn [snd].
        repeat (split; [done|]).
        rewrite Hdb, map_app, app_assoc. done.
    + (* no event *)
      cbn [set_metrics_side set_detector settings
           message_buffer clock database_down hype_detector ws_manager
           metrics_peers database hype_manager hype_peers log].
      rewrite Hb1. cbn [snd]. rewrite !app_nil_r.
      repeat (split; [done|]). done.
    + (* the check never raises *)
      destruct (check_for_hype_total sqrt recorded channel v
                  (Some (ChannelMetrics.top_emotes metrics)) (clock w)) as [r Hr].
      fold out in Hr. congruence.
Qed.




(** One pass of the loop. *)
Lemma iteration_spec w :
  let channels := Config.channels_list (settings w) in
  exists w1,
    for_each channels process_channel w = (Ok tt, w1)
    /\ iteration w = (Ok Main.Continue, set_clock w1 (clock w + Datetime.seconds 1)).
Proof.
  intros channels.
  destruct (for_each_channels channels w) as (w1 & Hrun & _ & _ & Hclock & _).
  exists w1. split; [done|].
  unfold Pipeline.iteration, Main.iteration, try_except_Cancelled_Exception.
  unfold bind at 1. unfold channels_list at 1. fold channels.
  unfold bind at 1. fold process_channel. rewrite Hrun.
  unfold bind, sleep, ret. by rewrite Hclock.
Qed.

Lemma iteration_metrics_side (w : World) :
  let channels := Config.channels_list (settings w) in
  let sent := map (fun c => MetricsPayload (snapshot w c)) channels in
  exists w',
    iteration w = (Ok Main.Continue, w')
    /\ settings w' = settings w
    /\ message_buffer w' = message_buffer w
    /\ clock w' = clock w + Datetime.seconds 1
    /\ ws_manager w' = pruned (ws_manager w) (metrics_peers w) sent
    /\ failing (metrics_peers w') = failing (metrics_peers w)
    /\ forall ws,
         inbox (metrics_peers w') ws = delivered (ws_manager w) (metrics_peers w) sent ws.
Proof.
  intros channels sent.
  destruct (iteration_spec w) as (w1 & Hrun & Hit).
  destruct (for_each_channels channels w)
    as (w1' & Hrun' & Hset & Hbuf & Hclock & _ & _ & Hreg & Hfail & Hin & _).
  fold channels in Hrun. rewrite Hrun in Hrun'. injection Hrun' as <-.
  eexists. split; [exact Hit|]. by repeat split.
Qed.

(** X19 (a pass delivers the snapshots).  One pass of the loop over the
    services ends normally, whatever the detector finds and whether or not
    the database is down.  It leaves the message buffer as it is and takes
    one second.  Every registered metrics connection whose send does not
    fail receives, after what it had, one snapshot per configured channel,
    in the order of the setting, each being [calculate_metrics] of the
    buffer at the clock reading of the pass; it stays registered.  A
    registered connection whose send fails receives nothing and, when a
    channel is configured, is registered no more; other connections are
    not touched. *)
Theorem tick_delivers_snapshots (w : World) :
  let channels := Config.channels_list (settings w) in
  let sent := map (fun c => MetricsPayload (snapshot w c)) channels in
  let w' := snd (iteration w) in
  fst (iteration w) = Ok Main.Continue
  /\ message_buffer w' = message_buffer w
  /\ clock w' = clock w + Datetime.seconds 1
  /\ (forall ws, ws ∈ active_connections (ws_manager w) ->
        ws ∉ failing (metrics_peers w) ->
        inbox (metrics_peers w') ws = inbox (metrics_peers w) ws ++ sent
        /\ (ws ∈ active_connections (ws_manager w')))
  /\ (forall ws, ws ∈ active_connections (ws_manager w) ->
        ws ∈ failing (metrics_peers w) ->
        inbox (metrics_peers w') ws = inbox (metrics_peers w) ws
        /\ (channels <> [] -> ws ∉ active_connections (ws_manager w')))
  /\ (forall ws, ws ∉ active_connections (ws_manager w) ->
        inbox (metrics_peers w') ws = inbox (metrics_peers w) ws
        /\ (ws ∉ active_connections (ws_manager w'))).
Proof.
  intros channels sent w'.
  destruct (iteration_metrics_side w) as (w1 & Hit & _ & Hbuf & Hclock & Hreg & _ & Hin).
  subst w'. rewrite Hit. cbn [fst snd]. fold channels in Hreg, Hin. fold sent in Hreg, Hin.
  split; [done|]. split; [done|]. split; [done|].
  assert (Hsent : channels <> [] -> sent <> []).
  { subst sent. by destruct channels. }
  split; [|split].
  - intros ws Hws Hok. rewrite Hin, Hreg. unfold delivered, pruned.
    rewrite decide_True by done. split; [done|].
    destruct sent; cbn [active_connections]; set_solver.
  - intros ws Hws Hbad. rewrite Hin, Hreg. unfold delivered, pruned.
    rewrite decide_False by (intros [_ ?]; done). split; [done|].
    intros Hne%Hsent. destruct sent; [done|]. cbn [active_connections]. set_solver.
  - intros ws Hws. rewrite Hin, Hreg. unfold delivered, pruned.
    rewrite decide_False by (intros [? _]; done). split; [done|].
    destruct sent; cbn [active_connections]; set_solver.
Qed.





End Services.

End PipelineFacts.

(** ** The channel routes *)

Module ChannelsFacts.

Import Py Channels.
Import MessageBufferMore ConfigFacts.

Lemma is_space_lower c : Config.is_space (Str.lower_ascii c) = Config.is_space c.
Proof.
  destruct c as [b0 b1 b2 b3 b4 b5 b6 b7].
  by destruct b0, b1, b2, b3, b4, b5, b6, b7.
Qed.

Lemma lower_lstrip s : Str.lower (Config.lstrip s) = Config.lstrip (Str.lower s).
Proof.
  induction s as [|c s IH]; [done|]. cbn [Config.lstrip Str.lower].
  rewrite is_space_lower. by destruct (Config.is_space c).
Qed.

Lemma lower_rstrip s : Str.lower (Config.rstrip s) = Config.rstrip (Str.lower s).
Proof.
  induction s as [|c s IH]; [done|]. cbn [Config.rstrip Str.lower].
  rewrite <- IH, is_space_lower.
  destruct (Config.rstrip s); cbn [Str.lower]; [|done].
  by destruct (Config.is_space c).
Qed.

Lemma lower_strip s : Str.lower (Config.strip s) = Config.strip (Str.lower s).
Proof. unfold Config.strip. by rewrite lower_rstrip, lower_lstrip. Qed.

(** The name a route works with is in lower case and stripped. *)
Lemma route_name_normal name :
  let channel := Config.strip (Str.lower name) in
  Str.lower channel = channel /\ Config.strip channel = channel.
Proof.
  cbv zeta. split; [by rewrite lower_strip, lower_idemp | apply strip_idemp].
Qed.

Lemma client_eq (a b : TwitchChatClient) :
  _connected_channels a = _connected_channels b -> irc_error a = irc_error b -> a = b.
Proof. destruct a, b. simpl. by intros -> ->. Qed.

(** X22 (channel routes).  Both routes work with the name in lower case and
    stripped.  POST answers 400 for a blank name, 503 without a client,
    [already_joined] for a connected channel, and otherwise joins: the
    channel is connected afterwards, or, when the IRC call raises, the
    answer is 500 with the message and the set is as before.  DELETE
    answers 503 without a client, 404 for a channel that is not connected,
    and otherwise leaves it, or answers 500 and keeps the set.  A join
    followed by a DELETE under any spelling of the name restores the
    client.  A connected channel whose name is not in lower case, as the
    setting may give it, is never left by DELETE. *)
Theorem channel_routes (c : TwitchChatClient) (name : string) :
  let channel := Config.strip (Str.lower name) in
  (* the outcomes of POST *)
  (channel = EmptyString ->
   forall client, add_channel client name
                  = (HTTPException 400 "Channel name cannot be empty", client))
  /\ (channel <> EmptyString ->
      add_channel None name
      = (HTTPException 503 "Twitch client not connected. Check credentials.", None))
  /\ (channel <> EmptyString -> channel ∈ _connected_channels c ->
      add_channel (Some c) name = (ChannelResponse "already_joined" channel, Some c))
  /\ (channel <> EmptyString -> channel ∉ _connected_channels c ->
      match irc_error c with
      | Some msg =>
          add_channel (Some c) name
          = (HTTPException 500 ("Failed to join channel: " ++ msg), Some c)
      | None =>
          add_channel (Some c) name
          = (ChannelResponse "joined" channel,
             Some (set_connected c ({[channel]} ∪ _connected_channels c)))
      end)
  (* the outcomes of DELETE *)
  /\ remove_channel None name = (HTTPException 503 "Twitch client not connected", None)
  /\ (channel ∉ _connected_channels c ->
      remove_channel (Some c) name
      = (HTTPException 404 ("Not monitoring channel: " ++ channel), Some c))
  /\ (channel ∈ _connected_channels c ->
      match irc_error c with
      | Some msg =>
          remove_channel (Some c) name
          = (HTTPException 500 ("Failed to leave channel: " ++ msg), Some c)
      | None =>
          remove_channel (Some c) name
          = (ChannelResponse "left" channel,
             Some (set_connected c (_connected_channels c ∖ {[channel]})))
      end)
  (* a join undone by a leave, under any spelling of the name *)
  /\ (channel <> EmptyString -> channel ∉ _connected_channels c -> irc_error c = None ->
      forall name', Config.strip (Str.lower name') = channel ->
        remove_channel (snd (add_channel (Some c) name)) name'
        = (ChannelResponse "left" channel, Some c))
  (* only names in lower case can be left *)
  /\ (forall kept, kept ∈ _connected_channels c -> Str.lower kept <> kept ->
        kept ∈ connected (snd (remove_channel (Some c) name))).
Proof.
  intros channel.
  destruct (route_name_normal name) as [Hlower Hstrip]. fold channel in Hlower, Hstrip.
  unfold add_channel, remove_channel. cbv zeta. fold channel.
  split; [|split; [|split; [|split; [|split; [|split; [|split; [|split]]]]]]].
  - intros ->. done.
  - intros Hne. by destruct channel.
  - intros Hne Hin. destruct channel; [done|]. cbn [Config.truthy negb].
    by rewrite decide_True.
  - intros Hne Hnew. destruct channel eqn:Hch; [done|]. cbn [Config.truthy negb].
    rewrite <- Hch in *. rewrite decide_False by done.
    unfold join_channel, irc_call. rewrite decide_True by done.
    by destruct (irc_error c).
  - done.
  - intros Hnew. by rewrite decide_True.
  - intros Hin. rewrite decide_False by (intros H; done).
    unfold leave_channel, irc_call. rewrite decide_True by done.
    by destruct (irc_error c).
  - intros Hne Hnew Hirc name' Hname'. destruct channel eqn:Hch; [done|].
    cbn [Config.truthy negb]. rewrite <- Hch in *. rewrite decide_False by done.
    unfold join_channel, irc_call. rewrite decide_True by done. rewrite Hirc.
    cbn [snd]. rewrite Hname'. cbn [set_connected _connected_channels].
    rewrite decide_False by set_solver.
    unfold leave_channel, irc_call. cbn [set_connected _connected_channels irc_error].
    rewrite decide_True by set_solver. rewrite Hirc. do 2 f_equal.
    apply client_eq; [|done]. cbn [_connected_channels]. set_solver.
  - intros kept Hkept Hupper.
    destruct (decide (channel ∉ _connected_channels c)); [done|].
    unfold leave_channel, irc_call. rewrite decide_True by (by apply dec_stable).
    destruct (irc_error c); cbn [is_Exception snd connected]; [done|].
    cbn [set_connected _connected_channels].
    assert (kept <> channel) by congruence. set_solver.
Qed.

End ChannelsFacts.

(** ** The chat client *)

Module TwitchClientFacts.

Import Py Datetime Deque MessageBuffer MetricsCalculator TwitchClient.
Import MessageBufferFacts MetricsCalculatorFacts MessageBufferMore MetricsCalculatorMore.
Import ConfigFacts.

Lemma substring_front m s : exists post, s = (substring 0 m s ++ post)%string.
Proof.
  revert m. induction s as [|c s IH]; intros m.
  - exists EmptyString. by destruct m.
  - destruct m as [|m]; [by exists (String c s)|].
    destruct (IH m) as [post Hp]. exists post.
    change (String c s = String c (substring 0 m s ++ post)%string).
    f_equal. exact Hp.
Qed.

Lemma substring_piece n m s : piece_of (substring n m s) s.
Proof.
  revert n. induction s as [|c s IH]; intros n.
  - exists EmptyString, EmptyString. by destruct n, m.
  - destruct n as [|n].
    + destruct (substring_front m (String c s)) as [post Hp].
      by exists EmptyString, post.
    + cbn [substring]. destruct (IH n) as (pre & post & Hs).
      exists (String c pre), post.
      change (String c s = String c (pre ++ substring n m s ++ post)%string).
      f_equal. exact Hs.
Qed.

Lemma slice_piece s start stop : piece_of (slice s start stop) s.
Proof. unfold slice. cbv zeta. apply substring_piece. Qed.

Lemma occurrences_nodup (l : list string) e :
  NoDup l -> occurrences l e = if bool_decide (e ∈ l) then 1%nat else 0%nat.
Proof.
  unfold occurrences. induction 1 as [|x l Hx Hnd IH]; [done|].
  cbn [count_occ]. destruct (string_dec x e) as [->|Hne].
  - rewrite bool_decide_eq_true_2 by left.
    rewrite IH, bool_decide_eq_false_2; done.
  - rewrite IH. destruct (decide (e ∈ l)) as [Hin|Hout].
    + rewrite !bool_decide_eq_true_2; [done| by right | done].
    + rewrite !bool_decide_eq_false_2; [done| |done].
      intros [->|?]%elem_of_cons; done.
Qed.

Lemma occurrences_messages (messages : list ChatMessage.t) e :
  Forall (fun m => NoDup (ChatMessage.emotes m)) messages ->
  occurrences (flat_map ChatMessage.emotes messages) e
  = length (List.filter (fun m => bool_decide (e ∈ ChatMessage.emotes m)) messages).
Proof.
  unfold occurrences. induction 1 as [|m messages Hm Hall IH]; [done|].
  cbn [flat_map List.filter]. rewrite count_occ_app, IH.
  fold (occurrences (ChatMessage.emotes m) e). rewrite occurrences_nodup by done.
  by destruct (bool_decide _).
Qed.

(** The entries of the ranking are entries of the counter. *)
Lemma top_emotes_counts messages limit en :
  en ∈ _get_top_emotes messages limit ->
  en.2 = occurrences (flat_map ChatMessage.emotes messages) en.1.
Proof.
  unfold _get_top_emotes, most_common. cbv zeta. intros Hin.
  apply elem_of_take in Hin as (i & Hin & _).
  apply list_elem_of_lookup_2 in Hin. rewrite sorted_desc_perm in Hin.
  destruct (Counter_spec (flat_map ChatMessage.emotes messages)) as (_ & _ & Hcount & _).
  rewrite Forall_forall in Hcount. by apply Hcount.
Qed.

(** X23 (emote counts).  For messages whose emote lists have no repetition,
    as the parser makes them, the count of every ranked emote is the number
    of messages that carry it: it is positive and never above the number
    of messages. *)
Theorem emote_counts_messages (messages : list ChatMessage.t) (limit : nat) :
  Forall (fun m => NoDup (ChatMessage.emotes m)) messages ->
  Forall (fun en =>
            en.2 = length (List.filter
                             (fun m => bool_decide (en.1 ∈ ChatMessage.emotes m)) messages)
            /\ (0 < en.2 <= length messages)%nat)
    (_get_top_emotes messages limit).
Proof.
  intros Hnd. apply Forall_forall. intros en Hen.
  pose proof (top_emotes_counts _ _ _ Hen) as Hcount.
  rewrite occurrences_messages in Hcount by done.
  split; [done|]. rewrite Hcount. split; [|apply filter_length_le].
  rewrite <- occurrences_messages by done. apply occurrences_pos.
  apply elem_of_take in Hen as (i & Hin & _).
  apply list_elem_of_lookup_2 in Hin. unfold _get_top_emotes in Hin. cbv zeta in Hin.
  rewrite sorted_desc_perm in Hin.
  destruct (Counter_spec (flat_map ChatMessage.emotes messages)) as (_ & Hkeys & _).
  apply Hkeys. apply list_elem_of_fmap. by exists en.
Qed.

Section Parser.

Variable int : string -> option Z.
Variable fromtimestamp_raises : Z -> option (option exn).

Lemma truthy_true s : Config.truthy s = true -> s <> EmptyString.
Proof. by destruct s. Qed.

Lemma scan_emotes_spec content fields emotes :
  NoDup emotes ->
  Forall (fun e => e <> EmptyString /\ piece_of e content) emotes ->
  NoDup (scan_emotes int content fields emotes)
  /\ Forall (fun e => e <> EmptyString /\ piece_of e content)
       (scan_emotes int content fields emotes)
  /\ (length (scan_emotes int content fields emotes)
      <= length emotes + length fields)%nat
  /\ emotes `prefix_of` scan_emotes int content fields emotes.
Proof.
  revert emotes. induction fields as [|emote_data rest IH]; intros emotes Hnd Hall.
  - cbn [scan_emotes length]. split; [done|]. split; [done|]. split; [lia|done].
  - cbn [scan_emotes]. cbv zeta.
    assert (Hskip : NoDup (scan_emotes int content rest emotes)
      /\ Forall (fun e => e <> EmptyString /\ piece_of e content)
           (scan_emotes int content rest emotes)
      /\ (length (scan_emotes int content rest emotes)
          <= length emotes + length (emote_data :: rest))%nat
      /\ emotes `prefix_of` scan_emotes int content rest emotes).
    { destruct (IH emotes Hnd Hall) as (? & ? & ? & ?).
      cbn [length]. repeat split; try done. lia. }
    assert (Hstop : NoDup emotes
      /\ Forall (fun e => e <> EmptyString /\ piece_of e content) emotes
      /\ (length emotes <= length emotes + length (emote_data :: rest))%nat
      /\ emotes `prefix_of` emotes).
    { repeat split; try done. lia. }
    destruct (Config.occurs ":" emote_data); [|done].
    destruct (Config.truthy (after ":" emote_data) && Config.truthy content); [|done].
    destruct (map int (Config.split "-" (before "," (after ":" emote_data))))
      as [|[start|] [|[stop|] [|? ?]]]; try done.
    destruct (Config.truthy (slice content start (stop + 1))) eqn:Hname; [|done].
    destruct (bool_decide (slice content start (stop + 1) ∈ emotes)) eqn:Hin; [done|].
    cbn [andb negb]. apply bool_decide_eq_false_1 in Hin.
    destruct (IH (emotes ++ [slice content start (stop + 1)])) as (H1 & H2 & H3 & H4).
    + apply NoDup_app. split; [done|]. split; [|apply NoDup_singleton].
      intros x Hx ->%list_elem_of_singleton. done.
    + apply Forall_app. split; [done|]. apply Forall_singleton.
      split; [by apply truthy_true | apply slice_piece].
    + split; [done|]. split; [done|]. split.
      * rewrite length_app in H3. cbn [length] in *. lia.
      * etrans; [|exact H4]. by apply prefix_app_r.
Qed.

(** X24 (extracted emotes).  Whatever [int] makes of the positions, the
    names that [_extract_emotes] returns are all different, none is empty,
    each is a piece of the content of the message, and there is at most
    one per field of the [emotes] tag; a message without that tag or
    without content has no emotes. *)
Theorem extracted_emotes (message : Message) :
  let emotes := _extract_emotes int message in
  NoDup emotes
  /\ Forall (fun e => e <> EmptyString
                      /\ exists text, content message = Some text /\ piece_of e text) emotes
  /\ (length emotes
      <= length (Config.split "/" (default EmptyString (tag message "emotes"))))%nat
  /\ (tag message "emotes" = None -> emotes = [])
  /\ (content message = None -> emotes = []).
Proof.
  intros emotes. subst emotes. unfold _extract_emotes. cbv zeta.
  destruct (scan_emotes_spec (default EmptyString (content message))
              (Config.split "/" (default EmptyString (tag message "emotes"))) []
              (NoDup_nil_2) (Forall_nil_2 _)) as (Hnd & Hall & Hlen & _).
  split; [|split; [|split; [|split]]].
  - destruct (Config.truthy _); [done|constructor].
  - destruct (Config.truthy _); [|constructor].
    eapply Forall_impl; [exact Hall|]. intros e [Hne Hpiece]. split; [done|].
    destruct (content message) as [text|]; [by exists text|].
    destruct Hpiece as (pre & post & Hs). simpl in Hs.
    destruct pre; [|done]. destruct e; done.
  - destruct (Config.truthy _); [|simpl; lia]. cbn [length] in Hlen. lia.
  - by intros ->.
  - intros Hc. rewrite Hc. destruct (Config.truthy _); [|done].
    cbn [default]. clear.
    induction (Config.split "/" (default EmptyString (tag message "emotes")))
      as [|f fields IH]; [done|].
    cbn [scan_emotes]. cbv zeta. destruct (Config.occurs ":" f); [|done].
    cbn [Config.truthy]. by rewrite andb_false_r.
Qed.

Lemma extract_emotes_nodup message : NoDup (_extract_emotes int message).
Proof.
  unfold _extract_emotes. cbv zeta. destruct (Config.truthy _); [|constructor].
  by apply scan_emotes_spec; constructor.
Qed.

Lemma extract_timestamp_aware message now timestamp :
  _extract_timestamp int fromtimestamp_raises message now = Ok timestamp ->
  tzinfo timestamp = Some 0.
Proof.
  unfold _extract_timestamp.
  destruct (tag message "tmi-sent-ts") as [text|]; [|by intros [= <-]].
  destruct (int text) as [ms|]; [|by intros [= <-]].
  destruct (fromtimestamp_raises ms) as [[e|]|]; [done| |]; by intros [= <-].
Qed.

(** What the parser gives for a message. *)
Lemma parse_message_spec message now parsed :
  _parse_message int fromtimestamp_raises message now = Ok parsed ->
  aware parsed
  /\ NoDup (ChatMessage.emotes parsed)
  /\ ChatMessage.emotes parsed = _extract_emotes int message
  /\ ChatMessage.channel parsed = default "unknown" (channel_name message)
  /\ ChatMessage.content parsed = default EmptyString (content message).
Proof.
  unfold _parse_message. cbv zeta.
  destruct (_extract_timestamp int fromtimestamp_raises message now) as [ts|e] eqn:Hts;
    [|done].
  intros [= <-]. cbn [ChatMessage.emotes ChatMessage.channel ChatMessage.content].
  split; [|split; [apply extract_emotes_nodup|done]].
  unfold aware. cbn [ChatMessage.timestamp].
  by rewrite (extract_timestamp_aware _ _ _ Hts).
Qed.

Lemma append_Forall {A} (P : A -> Prop) (d : deque A) x :
  Forall P (items d) -> P x -> Forall P (items (append d x)).
Proof.
  intros Hd Hx. unfold append.
  assert (Forall P (items d ++ [x])) by (apply Forall_app; by split; [|constructor]).
  destruct (maxlen d) as [n|]; [|done].
  destruct (n <? _)%nat; cbn [items]; [by apply Forall_drop|done].
Qed.

Lemma add_message_Forall (P : ChatMessage.t -> Prop) buffer channel m :
  (forall key d, _buffers buffer !! key = Some d -> Forall P (items d)) ->
  P m ->
  forall key d, _buffers (add_message buffer channel m) !! key = Some d ->
    Forall P (items d).
Proof.
  intros Hb Hm key d. rewrite add_message_lookup.
  destruct (decide (Str.lower channel = key)) as [<-|Hne]; [|apply Hb].
  intros [= <-]. apply append_Forall; [|done].
  destruct (_buffers buffer !! Str.lower channel) as [d0|] eqn:Hd0; cbn [default].
  - by apply (Hb _ _ Hd0).
  - constructor.
Qed.

Lemma feed_snoc buffer received message now :
  feed int fromtimestamp_raises buffer (received ++ [(message, now)])
  = snd (event_message int fromtimestamp_raises message now
           (feed int fromtimestamp_raises buffer received)).
Proof. unfold feed. by rewrite fold_left_app. Qed.

Lemma feed_Forall (P : ChatMessage.t -> Prop) N received :
  (forall message now parsed,
     _parse_message int fromtimestamp_raises message now = Ok parsed -> P parsed) ->
  forall key d,
    _buffers (feed int fromtimestamp_raises (init N) received) !! key = Some d ->
    Forall P (items d).
Proof.
  intros HP. induction received as [|[message now] received IH] using rev_ind.
  - intros key d. cbn [feed fold_left init _buffers]. by rewrite lookup_empty.
  - rewrite feed_snoc. unfold event_message.
    destruct (echo message); [done|].
    destruct (_parse_message int fromtimestamp_raises message now) as [parsed|e] eqn:Hp;
      [|done].
    cbn [snd]. apply add_message_Forall; [done|]. by apply (HP message now).
Qed.

(** X25 (a buffer fed by the client).  In a buffer that holds only what
    [event_message] has put there, every stored message has a timestamp
    with a zone and an emote list without repetition.  On such a buffer
    [get_velocity_history] raises nothing and returns its history for
    every channel, window and clock reading, and the count of every top
    emote of a snapshot is the number of messages of the last five minutes
    that carry the emote. *)
Theorem client_feed (N : nat) (received : list (Message * Z)) :
  let buffer := feed int fromtimestamp_raises (init N) received in
  all_aware buffer
  /\ (forall channel,
        Forall (fun m => aware m /\ NoDup (ChatMessage.emotes m)) (window buffer channel))
  /\ (forall channel W now,
        get_velocity_history buffer channel W now
        = Ok (map (history_point buffer channel now) (range_down (Z.to_nat W))))
  /\ (forall channel now,
        Forall (fun en =>
                  en.2 = length (List.filter
                                   (fun m => bool_decide (en.1 ∈ ChatMessage.emotes m))
                                   (_get_messages_in_window buffer channel
                                      (aware_utc now) 300)))
          (ChannelMetrics.top_emotes (calculate_metrics buffer channel now))).
Proof.
  intros buffer.
  assert (Haware : all_aware buffer).
  { intros key d. apply (feed_Forall aware). intros message now parsed Hp.
    by apply parse_message_spec in Hp as (? & _). }
  assert (Hwin : forall channel,
    Forall (fun m => aware m /\ NoDup (ChatMessage.emotes m)) (window buffer channel)).
  { intros channel. unfold window.
    destruct (_buffers buffer !! Str.lower channel) as [d|] eqn:Hd; [|constructor].
    revert Hd. apply feed_Forall. intros message now parsed Hp.
    by apply parse_message_spec in Hp as (? & ? & _). }
  split; [done|]. split; [done|]. split.
  - intros channel W now.
    apply velocity_history_ok.
    eapply Forall_impl; [apply Hwin|]. by intros m [? _] _.
  - intros channel now. unfold calculate_metrics. cbv zeta.
    cbn [ChannelMetrics.top_emotes ChannelMetrics.messages_last_minute].
    set (messages := _get_messages_in_window buffer channel (aware_utc now) 300).
    assert (Hnd : Forall (fun m => NoDup (ChatMessage.emotes m)) messages).
    { subst messages. rewrite horizon_sub. apply Forall_forall.
      intros m [Hm _]%list_elem_of_In%filter_In.
      specialize (Hwin channel). rewrite Forall_forall in Hwin.
      by apply Hwin, list_elem_of_In. }
    apply Forall_forall. intros en Hen.
    pose proof (top_emotes_counts _ _ _ Hen) as Hcount.
    by rewrite occurrences_messages in Hcount.
Qed.

End Parser.

End TwitchClientFacts.

(** ** Scenarios for the further properties *)

Module ScenarioFacts.

Import Py Datetime Samples.

(** X3 on a window of capacity 3 that holds A, B, C: inserting D under
    another spelling of the channel makes D the newest message and keeps
    the count at 3. *)
Lemma insert_then_read_witness :
  let b := MessageBuffer.run (MessageBuffer.init 3)
             [MessageBuffer.Add "chan" msgA; MessageBuffer.Add "chan" msgB;
              MessageBuffer.Add "chan" msgC] in
  let b' := MessageBuffer.add_message b "Chan" msgD in
  (0 < 3)%nat
  /\ last (MessageBuffer.window b' "Chan") = Some msgD
  /\ MessageBuffer.get_recent_messages b' "Chan" 1 = [msgD]
  /\ MessageBuffer.get_message_count b' "Chan" = 3%nat.
Proof.
  intros b b'.
  assert (HN : (0 < 3)%nat) by lia.
  destruct (MessageBufferMore.insert_then_read 3
              [MessageBuffer.Add "chan" msgA; MessageBuffer.Add "chan" msgB;
               MessageBuffer.Add "chan" msgC] "Chan" msgD HN)
    as (Hlast & Hrecent & _ & Hcount & _).
  split; [exact HN|]. split; [exact Hlast|]. split; [exact Hrecent|].
  etransitivity; [exact Hcount|]. reflexivity.
Defined.

(** X10 on a window holding A, B, C, D, sent at seconds 1 to 4, read at
    second 5 for a history of 3 seconds: one message in each of the seconds
    that end at 2, 3 and 4, and D, of the latest second, in none. *)
Lemma velocity_history_witness :
  let b := MessageBuffer.insert_all (MessageBuffer.init 10)
             [("chan", msgA); ("chan", msgB); ("chan", msgC); ("chan", msgD)] in
  MetricsCalculator.get_velocity_history b "chan" 3 (seconds 5)
  = Ok [(aware_utc (seconds 2), 1%nat); (aware_utc (seconds 3), 1%nat);
        (aware_utc (seconds 4), 1%nat)].
Proof.
  intros b.
  assert (Hwin : MessageBuffer.window b "chan" = [msgA; msgB; msgC; msgD]) by reflexivity.
  assert (Haware : Forall (fun m => seconds 5 - seconds (3 + 1)
                             <= instant (assume_utc (ChatMessage.timestamp m))
                             -> MetricsCalculator.aware m)
                     (MessageBuffer.window b "chan")).
  { rewrite Hwin. repeat constructor; intros _; discriminate. }
  destruct (MetricsCalculatorMore.velocity_history b "chan" 3 (seconds 5) Haware)
    as (history & Hget & Hhistory & _).
  etransitivity; [exact Hget|]. f_equal.
  etransitivity; [exact Hhistory|]. reflexivity.
Defined.

(** X11 on a window holding one message with the naive timestamp of second
    3, read at second 5 for a history of 3 seconds. *)
Lemma velocity_history_naive_witness :
  let m := ChatMessage.mk "N" "chan" "viewer" "hello" (naive (seconds 3)) [] [] in
  let b := MessageBuffer.add_message (MessageBuffer.init 10) "chan" m in
  MetricsCalculator.get_velocity_history b "chan" 3 (seconds 5)
  = Raise (Exception "can't compare offset-naive and offset-aware datetimes").
Proof.
  intros m b.
  assert (HW : 0 < 3) by lia.
  assert (Hin : m ∈ MessageBuffer.window b "chan") by (apply list_elem_of_here).
  assert (Hscope : seconds 5 - seconds (3 + 1) <= wall (ChatMessage.timestamp m))
    by (vm_compute; discriminate).
  exact (proj2 (MetricsCalculatorMore.velocity_history_naive b "chan" 3 (seconds 5) m
                  HW Hin eq_refl Hscope)).
Defined.

(** X12 on a detector with a window of 60 seconds: of the samples taken
    for [c] at seconds 1, 2 and 70, only the last is retained; the check
    and the recording for another channel in between do not matter. *)
Lemma velocity_window_witness :
  let calls := [HypeDetector.Record "c" (Q2Qc 10) (seconds 1);
                HypeDetector.Record "c" (Q2Qc 11) (seconds 2);
                HypeDetector.Check "c" (Q2Qc 11) None (seconds 2);
                HypeDetector.Record "d" (Q2Qc 3) (seconds 2);
                HypeDetector.Record "c" (Q2Qc 12) (seconds 70)] in
  let self := snd (HypeDetector.run_calls sqrt_down
                     (HypeDetector.init 60 (Q2Qc 2) 30 (Q2Qc 5)) calls) in
  Deque.items <$> HypeDetector._velocity_windows self !! "c"
  = Some [(seconds 70, Q2Qc 12)].
Proof.
  intros calls self.
  assert (Hnr : HypeDetector.no_reset calls) by (repeat constructor).
  assert (Hsorted : StronglySorted Z.le (map fst (HypeDetector.recorded "c" calls))).
  { change (StronglySorted Z.le [seconds 1; seconds 2; seconds 70]).
    repeat constructor; vm_compute; discriminate. }
  destruct (HypeDetectorMore.velocity_window sqrt_down 60 (Q2Qc 2) 30 (Q2Qc 5) calls "c"
              Hnr Hsorted) as (Hwin & _).
  etransitivity; [exact Hwin|]. reflexivity.
Defined.

(** X14 on the steady detector, whose cooldown is 30 seconds: of the checks
    at seconds 13, 20 and 44 the first and the last return an event, 31
    seconds apart. *)
Lemma alert_spacing_witness :
  let calls := [HypeDetector.Check "c" (Q2Qc (103 # 10)) None (seconds 13);
                HypeDetector.Check "c" (Q2Qc (103 # 10)) None (seconds 20);
                HypeDetector.Check "c" (Q2Qc (103 # 10)) None (seconds 44)] in
  let events := fst (HypeDetector.run_calls sqrt_down steady calls) in
  map (fun e => (HypeEvent.channel e, wall (HypeEvent.timestamp e))) events
  = [("c", seconds 13); ("c", seconds 44)]
  /\ match events with
     | [e1; e2] =>
         wall (HypeEvent.timestamp e1) + seconds (HypeDetector.cooldown_seconds steady)
         <= wall (HypeEvent.timestamp e2)
     | _ => False
     end.
Proof.
  intros calls events.
  assert (Hnr : HypeDetector.no_reset calls) by (repeat constructor).
  assert (Hcd : 0 <= HypeDetector.cooldown_seconds steady) by (vm_compute; discriminate).
  pose proof (HypeDetectorMore.alert_spacing sqrt_down steady calls Hnr Hcd) as Hspaced.
  cbv zeta in Hspaced. fold events in Hspaced.
  assert (Hmap : map (fun e => (HypeEvent.channel e, wall (HypeEvent.timestamp e))) events
                 = [("c", seconds 13); ("c", seconds 44)]) by (by vm_compute).
  split; [exact Hmap|].
  destruct events as [|e1 [|e2 [|e3 rest]]]; try discriminate Hmap.
  injection Hmap as Hc1 _ Hc2 _.
  apply (Hspaced 0%nat 1%nat e1 e2); [lia | reflexivity | reflexivity |].
  by rewrite Hc1, Hc2.
Defined.

(** X23 on the messages A, B, C, D, none of which repeats an emote. *)
Lemma emote_counts_messages_witness :
  Forall (fun en =>
            en.2 = length (List.filter
                             (fun m => bool_decide (en.1 ∈ ChatMessage.emotes m))
                             [msgA; msgB; msgC; msgD])
            /\ (0 < en.2 <= length [msgA; msgB; msgC; msgD])%nat)
    (MetricsCalculator._get_top_emotes [msgA; msgB; msgC; msgD] 2)
  /\ MetricsCalculator._get_top_emotes [msgA; msgB; msgC; msgD] 2
     = [("LUL", 2%nat); ("KEKW", 2%nat)].
Proof.
  assert (Hnd : Forall (fun m => NoDup (ChatMessage.emotes m)) [msgA; msgB; msgC; msgD]).
  { repeat constructor; set_solver. }
  split; [|reflexivity].
  exact (TwitchClientFacts.emote_counts_messages [msgA; msgB; msgC; msgD] 2 Hnd).
Defined.

End ScenarioFacts.
